(** * kenwoodutil: the serial command channel and the memory-channel codec

    A shallow embedding of [main.go]: the [MemoryEntry] record, the two
    line codecs ([WriteChannelLine] / [ReadChannelLine] and
    [WriteNameLine] / [ReadNameLine]), the request/response transaction
    [WriteReadString] and the bank operations built on it.

    Go's [fmt] and [strings] packages are not part of the repository; the
    functions of them that the program calls are modelled in the modules
    [Strings] and [Fmt] below, following the behaviour of the Go standard
    library on the fragment the program's format strings use (literal
    text, blanks, and the verbs [%d] with an optional [0] flag and width,
    and [%s]). *)

From Stdlib Require Import String Ascii NArith ZArith List Sorted Bool Lia.
Import ListNotations.
Local Open Scope string_scope.
Local Open Scope N_scope.

(** ** Bytes and strings *)

Definition CR : ascii := ascii_of_N 13.
Definition LF : ascii := ascii_of_N 10.

(** A Go string is a sequence of bytes; [len] is [String.length]. *)
Fixpoint take (n : nat) (s : string) : string :=
  match n, s with
  | S n', String c s' => String c (take n' s')
  | _, _ => EmptyString
  end.

Fixpoint replicate (n : nat) (c : ascii) (s : string) : string :=
  match n with
  | O => s
  | S n' => String c (replicate n' c s)
  end.

Fixpoint all_chars (p : ascii -> bool) (s : string) : bool :=
  match s with
  | EmptyString => true
  | String c s' => p c && all_chars p s'
  end.

Definition isDigit (c : ascii) : bool :=
  (48 <=? N_of_ascii c) && (N_of_ascii c <=? 57).

Definition notComma (c : ascii) : bool := negb (Ascii.eqb c ",").

Module Strings.

(** [strings.HasPrefix]. *)
Definition HasPrefix (s pre : string) : bool := String.prefix pre s.

(** [strings.HasSuffix]: some tail of [s] is [suf]. *)
Fixpoint HasSuffix (s suf : string) : bool :=
  if String.eqb s suf then true
  else match s with
       | EmptyString => false
       | String _ s' => HasSuffix s' suf
       end.

(** [strings.TrimSuffix]: [s] without the trailing [suf], or [s] itself
    when it does not end in [suf]. *)
Fixpoint TrimSuffix (s suf : string) : string :=
  if String.eqb s suf then EmptyString
  else match s with
       | EmptyString => EmptyString
       | String c s' => String c (TrimSuffix s' suf)
       end.

(** [strings.Split] for a one-byte separator: the pieces between the
    separators, always at least one piece. *)
Fixpoint Split (s : string) (sep : ascii) : list string :=
  match s with
  | EmptyString => [EmptyString]
  | String c s' =>
      if Ascii.eqb c sep then EmptyString :: Split s' sep
      else match Split s' sep with
           | [] => [String c EmptyString]
           | piece :: pieces => String c piece :: pieces
           end
  end.

End Strings.

(** ** Dynamic values ([interface{}]) handed to [fmt] *)

Inductive kind : Type :=
| KInt                 (* int *)
| KUint (bits : N)     (* uint8, uint16, uint32 *)
| KString.

Inductive value : Type :=
| VInt (z : Z)
| VUint (bits : N) (n : N)
| VString (s : string).

Definition kind_of (v : value) : kind :=
  match v with
  | VInt _ => KInt
  | VUint bits _ => KUint bits
  | VString _ => KString
  end.

(** ** The fragment of [fmt] that the program uses

    Format strings are ASCII.

    Printing: literal text, [%%], and a verb with an optional [0] flag and
    an optional width.  [%d] on an integer and [%s] on a string are
    printed as Go prints them (a width on [%s], which the program never
    gives, counts bytes and is filled with blanks); a verb on an operand
    of the wrong type, a missing operand and operands left over give Go's
    [%!] markers.  The other verbs and flags of Go do not occur in the
    program and are treated as unknown verbs.

    Scanning: literal text, blanks, and [%d] with an optional width on a
    pointer to an unsigned integer.  A newline or [%%] in the format, the
    other verbs and the other operand types do not occur in the program;
    the scan stops on them with [ErrUnmodelled]. *)

Module Fmt.

(** *** Printing *)

Definition digit (d : N) : ascii := ascii_of_N (48 + d).

(** The digit loop of [fmtInteger]: least significant digit first, each
    one pushed in front of the buffer. *)
Fixpoint fmtUnsigned (fuel : nat) (u : N) (buf : string) : string :=
  match fuel with
  | O => buf
  | S fuel' =>
      if u <? 10 then String (digit u) buf
      else fmtUnsigned fuel' (u / 10) (String (digit (u mod 10)) buf)
  end.

(** A number has no more decimal digits than binary ones. *)
Definition decimal (u : N) : string :=
  fmtUnsigned (S (N.to_nat (N.size u))) u EmptyString.

Definition padLeft (c : ascii) (width : nat) (s : string) : string :=
  replicate (width - String.length s) c s.

(** [%d] on an integer: with the [0] flag and a width the digits are
    filled with zeros up to the width (one less when there is a sign);
    what is still shorter than the width is filled with blanks. *)
Definition fmtInteger (zero : bool) (wid : option nat) (negative : bool)
    (u : N) : string :=
  let prec :=
    match wid with
    | Some w => if zero then (if negative then w - 1 else w)%nat else O
    | None => O
    end in
  let digits := padLeft "0" prec (decimal u) in
  let signed := if negative then String "-" digits else digits in
  padLeft " " (match wid with Some w => w | None => O end) signed.

Definition fmtString (wid : option nat) (s : string) : string :=
  padLeft " " (match wid with Some w => w | None => O end) s.

Definition typeName (k : kind) : string :=
  match k with
  | KInt => "int"
  | KUint bits => "uint" ++ decimal bits
  | KString => "string"
  end.

Definition plain (v : value) : string :=
  match v with
  | VInt z => fmtInteger false None (z <? 0)%Z (Z.abs_N z)
  | VUint _ n => fmtInteger false None false n
  | VString s => s
  end.

Definition badVerb (verb : ascii) (v : value) : string :=
  "%!" ++ String verb ("(" ++ typeName (kind_of v) ++ "=" ++ plain v ++ ")").

Definition printArg (zero : bool) (wid : option nat) (verb : ascii)
    (v : value) : string :=
  match v with
  | VInt z =>
      if Ascii.eqb verb "d" then fmtInteger zero wid (z <? 0)%Z (Z.abs_N z)
      else badVerb verb v
  | VUint _ n =>
      if Ascii.eqb verb "d" then fmtInteger zero wid false n
      else badVerb verb v
  | VString s =>
      if Ascii.eqb verb "s" then fmtString wid s
      else badVerb verb v
  end.

(** A format string cut into its items. *)
Inductive item : Type :=
| Lit (c : ascii)
| Verb (zero : bool) (wid : option nat) (verb : ascii)
| NoVerb.                    (* a lone [%] at the end of the format *)

(** The decimal number at the head of a string ([parsenum]). *)
Fixpoint parsenum (s : string) (acc : option nat) : option nat * string :=
  match s with
  | String c s' =>
      if isDigit c
      then parsenum s'
             (Some (10 * match acc with Some a => a | None => O end
                    + N.to_nat (N_of_ascii c - 48))%nat)
      else (acc, s)
  | EmptyString => (acc, s)
  end.

Definition verbAfter (zero : bool) (s : string) : item * string :=
  match parsenum s None with
  | (wid, String verb rest) => (Verb zero wid verb, rest)
  | (_, EmptyString) => (NoVerb, EmptyString)
  end.

Fixpoint printItems (fuel : nat) (format : string) : list item :=
  match fuel with
  | O => []
  | S fuel' =>
      match format with
      | EmptyString => []
      | String "%" (String "%" rest) => Lit "%" :: printItems fuel' rest
      | String "%" (String "0" rest) =>
          let '(it, rest') := verbAfter true rest in
          it :: printItems fuel' rest'
      | String "%" rest =>
          let '(it, rest') := verbAfter false rest in
          it :: printItems fuel' rest'
      | String c rest => Lit c :: printItems fuel' rest
      end
  end.

Fixpoint extras (a : list value) : string :=
  match a with
  | [] => ""
  | [v] => typeName (kind_of v) ++ "=" ++ plain v
  | v :: a' => typeName (kind_of v) ++ "=" ++ plain v ++ ", " ++ extras a'
  end.

Fixpoint doPrintf (items : list item) (a : list value) : string :=
  match items with
  | [] =>
      match a with
      | [] => ""
      | _ => "%!(EXTRA " ++ extras a ++ ")"
      end
  | Lit c :: items' => String c (doPrintf items' a)
  | NoVerb :: items' => "%!(NOVERB)" ++ doPrintf items' a
  | Verb zero wid verb :: items' =>
      match a with
      | [] => "%!" ++ String verb ("(MISSING)" ++ doPrintf items' a)
      | v :: a' => printArg zero wid verb v ++ doPrintf items' a'
      end
  end.

(** [fmt.Sprintf]. *)
Definition Sprintf (format : string) (a : list value) : string :=
  doPrintf (printItems (String.length format) format) a.

(** *** Scanning

    [fmt.Sscanf] reads runes from the input string and keeps a count of the
    runes consumed; a verb with a width cannot read past [count + width],
    and nothing is read past [hugeWid] runes.  An error stops the scan;
    the operands filled before it keep their values.  Blanks are the
    Unicode spaces; a rune that is not a blank is only ever consumed when
    it equals an ASCII character of the format or is a decimal digit, so
    it is known by its first byte. *)

Inductive scanError : Type :=
| ErrNoMatch              (* input does not match format *)
| ErrUnexpectedEOF
| ErrEOF
| ErrExpectedSpace        (* expected space in input to match format *)
| ErrNewlineInInput       (* newline in input does not match format *)
| ErrUnexpectedNewline
| ErrExpectedInteger
| ErrRange                (* strconv: value out of range *)
| ErrOverflow (tok : string)
| ErrBadVerb (verb : ascii)
| ErrMissingVerb
| ErrTooFewOperands
| ErrTooManyOperands
| ErrUnmodelled.           (* a format or operand outside the fragment *)

Record ss : Type := mkss { rest : string; count : N }.

Definition hugeWid : N := 2 ^ 30.

Definition isSpaceByte (c : ascii) : bool :=
  let n := N_of_ascii c in ((9 <=? n) && (n <=? 13)) || (n =? 32).

(** The blanks outside ASCII, in UTF-8: U+0085, U+00A0, U+1680,
    U+2000..U+200A, U+2028, U+2029, U+202F, U+205F and U+3000. *)
Definition wideSpace (s : string) : option string :=
  match s with
  | String a (String b r) =>
      let a := N_of_ascii a in
      let b := N_of_ascii b in
      if (a =? 194) && ((b =? 133) || (b =? 160)) then Some r
      else
        match r with
        | String c r' =>
            let c := N_of_ascii c in
            if (a =? 225) && (b =? 154) && (c =? 128) then Some r'
            else if (a =? 226) && (b =? 128)
                    && (((128 <=? c) && (c <=? 138))
                        || (c =? 168) || (c =? 169) || (c =? 175))
            then Some r'
            else if (a =? 226) && (b =? 129) && (c =? 159) then Some r'
            else if (a =? 227) && (b =? 128) && (c =? 128) then Some r'
            else None
        | EmptyString => None
        end
  | _ => None
  end.

Inductive rune : Type :=
| EOF
| Newline (after : ss)
| Space (after : ss)
| Other (c : ascii) (after : ss).

(** [ReadRune] under the limit [argLimit]. *)
Definition getRune (argLimit : N) (s : ss) : rune :=
  if argLimit <=? count s then EOF
  else
    match rest s with
    | EmptyString => EOF
    | String c after =>
        let next r := mkss r (count s + 1) in
        if Ascii.eqb c LF then Newline (next after)
        else if isSpaceByte c then Space (next after)
        else match wideSpace (rest s) with
             | Some after' => Space (next after')
             | None => Other c (next after)
             end
    end.

(** [SkipSpace] as [Sscanf] runs it: a newline is not a blank. *)
Fixpoint skipSpace (fuel : nat) (argLimit : N) (s : ss) : scanError + ss :=
  match fuel with
  | O => inr s
  | S fuel' =>
      match getRune argLimit s with
      | Space s' => skipSpace fuel' argLimit s'
      | Newline _ => inl ErrUnexpectedNewline
      | _ => inr s
      end
  end.

Definition SkipSpace (argLimit : N) (s : ss) : scanError + ss :=
  skipSpace (S (String.length (rest s))) argLimit s.

(** The blanks that follow the first one matched by a blank of the
    format; a newline stays in the input. *)
Fixpoint skipBlanks (fuel : nat) (s : ss) : ss :=
  match fuel with
  | O => s
  | S fuel' =>
      match getRune hugeWid s with
      | Space s' => skipBlanks fuel' s'
      | _ => s
      end
  end.

(** The digits accepted by [scanNumber], up to the limit. *)
Fixpoint scanDigits (fuel : nat) (argLimit : N) (s : ss) : string * ss :=
  match fuel with
  | O => (EmptyString, s)
  | S fuel' =>
      match getRune argLimit s with
      | Other c s' =>
          if isDigit c
          then let '(tok, s'') := scanDigits fuel' argLimit s' in
               (String c tok, s'')
          else (EmptyString, s)
      | _ => (EmptyString, s)
      end
  end.

(** The value of a string of decimal digits. *)
Fixpoint parseDigits (tok : string) (acc : N) : N :=
  match tok with
  | EmptyString => acc
  | String c tok' => parseDigits tok' (10 * acc + (N_of_ascii c - 48))
  end.

(** [scanUint] for the verb [%d]: an unsigned number of [bitSize] bits. *)
Definition scanUint (bitSize : N) (argLimit : N) (s : ss)
    : scanError + (N * ss) :=
  match SkipSpace argLimit s with
  | inl e => inl e
  | inr s1 =>
      match getRune argLimit s1 with
      | EOF => inl ErrEOF
      | _ =>
          let '(tok, s2) := scanDigits (String.length (rest s1)) argLimit s1 in
          match tok with
          | EmptyString => inl ErrExpectedInteger
          | _ =>
              let i := parseDigits tok 0 in
              if 2 ^ 64 <=? i then inl ErrRange
              else if 2 ^ bitSize <=? i then inl (ErrOverflow tok)
              else inr (i, s2)
          end
      end
  end.

(** [scanOne]: the operands of this program are pointers to unsigned
    integers and the verb is [%d]; [%d] on a string is a bad verb.  The
    other verbs and operand types that [Sscanf] accepts are not modelled. *)
Definition scanOne (verb : ascii) (arg : kind) (argLimit : N) (s : ss)
    : scanError + (value * ss) :=
  match arg with
  | KUint bits =>
      if Ascii.eqb verb "d"
      then match scanUint bits argLimit s with
           | inl e => inl e
           | inr (i, s') => inr (VUint bits i, s')
           end
      else inl ErrUnmodelled
  | KString =>
      if Ascii.eqb verb "d" then inl (ErrBadVerb verb) else inl ErrUnmodelled
  | KInt => inl ErrUnmodelled
  end.

Inductive scanItem : Type :=
| SLit (c : ascii)
| SBlank                              (* a run of blanks without newline *)
| SUnmodelled                         (* a newline or [%%] in the format *)
| SVerb (wid : option N) (verb : ascii)
| SNoVerb.

(** The width of a verb: the last character of the format is never
    read as a digit of the width. *)
Fixpoint scanWidth (s : string) (acc : option N) : option N * string :=
  match s with
  | String c (String _ _ as s') =>
      if isDigit c
      then scanWidth s'
             (Some (10 * match acc with Some a => a | None => 0 end
                    + (N_of_ascii c - 48)))
      else (acc, s)
  | _ => (acc, s)
  end.

Fixpoint dropBlanks (s : string) : string :=
  match s with
  | String c s' =>
      if isSpaceByte c && negb (Ascii.eqb c LF) then dropBlanks s' else s
  | EmptyString => s
  end.

Fixpoint scanItems (fuel : nat) (format : string) : list scanItem :=
  match fuel with
  | O => []
  | S fuel' =>
      match format with
      | EmptyString => []
      | String "%" EmptyString => [SNoVerb]
      | String "%" (String "%" _) => [SUnmodelled]
      | String "%" format' =>
          match scanWidth format' None with
          | (wid, String verb format'') =>
              SVerb wid verb :: scanItems fuel' format''
          | (_, EmptyString) => [SNoVerb]
          end
      | String c format' =>
          if Ascii.eqb c LF then [SUnmodelled]
          else if isSpaceByte c
          then SBlank :: scanItems fuel' (dropBlanks format')
          else SLit c :: scanItems fuel' format'
      end
  end.

(** [doScanf]: the values stored through the operands, in order, and the
    error that stopped the scan.  Operands left over when the format is
    used up are an error. *)
Fixpoint doScanf (items : list scanItem) (a : list kind) (s : ss)
    : list value * option scanError :=
  match items with
  | [] =>
      match a with
      | [] => ([], None)
      | _ => ([], Some ErrTooManyOperands)
      end
  | SLit c :: items' =>
      match getRune hugeWid s with
      | EOF => ([], Some ErrUnexpectedEOF)
      | Other c' s' =>
          if Ascii.eqb c c' then doScanf items' a s' else ([], Some ErrNoMatch)
      | _ => ([], Some ErrNoMatch)
      end
  | SBlank :: items' =>
      match getRune hugeWid s with
      | EOF => doScanf items' a s
      | Newline _ => ([], Some ErrNewlineInInput)
      | Space s' => doScanf items' a (skipBlanks (String.length (rest s')) s')
      | Other _ _ => ([], Some ErrExpectedSpace)
      end
  | SUnmodelled :: _ => ([], Some ErrUnmodelled)
  | SNoVerb :: _ => ([], Some ErrMissingVerb)
  | SVerb wid verb :: items' =>
      match SkipSpace hugeWid s with
      | inl e => ([], Some e)
      | inr s1 =>
          let maxWid := match wid with Some w => w | None => hugeWid end in
          let argLimit := N.min hugeWid (count s1 + maxWid) in
          match a with
          | [] => ([], Some ErrTooFewOperands)
          | arg :: a' =>
              match scanOne verb arg argLimit s1 with
              | inl e => ([], Some e)
              | inr (v, s2) =>
                  let '(vs, e) := doScanf items' a' s2 in (v :: vs, e)
              end
          end
      end
  end.

(** [fmt.Sscanf]: the operands are given by their kinds; the result is
    the list of values stored (its length is the count [Sscanf] returns)
    and the error. *)
Definition Sscanf (str format : string) (a : list kind)
    : list value * option scanError :=
  doScanf (scanItems (String.length format) format) a (mkss str 0).

End Fmt.

(** ** The memory channel record *)

Record MemoryEntry : Type := mkMemoryEntry {
  Number : N;            (* uint16 *)
  RXFrequency : N;       (* uint32 *)
  RXStepSize : N;        (* uint8 *)
  ShiftDirection : N;    (* uint8 *)
  ReverseEnabled : N;    (* uint8 *)
  ToneEnabled : N;       (* uint8 *)
  CTCSSEnabled : N;      (* uint8 *)
  DCSEnabled : N;        (* uint8 *)
  ToneFrequency : N;     (* uint16 *)
  CTCSSFrequency : N;    (* uint16 *)
  DCSFrequency : N;      (* uint16 *)
  OffsetFrequency : N;   (* uint32 *)
  Mode : N;              (* uint8 *)
  TXFrequency : N;       (* uint32 *)
  TXStepSize : N;        (* uint8 *)
  LockOut : N;           (* uint8 *)
  Name : string
}.

(** [MemoryEntry{}], the zero value. *)
Definition MemoryEntry_zero : MemoryEntry :=
  mkMemoryEntry 0 0 0 0 0 0 0 0 0 0 0 0 0 0 0 0 "".

(** The fields in declaration order, as reflection enumerates them. *)
Inductive field : Type :=
| FNumber | FRXFrequency | FRXStepSize | FShiftDirection | FReverseEnabled
| FToneEnabled | FCTCSSEnabled | FDCSEnabled | FToneFrequency
| FCTCSSFrequency | FDCSFrequency | FOffsetFrequency | FMode | FTXFrequency
| FTXStepSize | FLockOut | FName.

Definition fields : list field :=
  [FNumber; FRXFrequency; FRXStepSize; FShiftDirection; FReverseEnabled;
   FToneEnabled; FCTCSSEnabled; FDCSEnabled; FToneFrequency;
   FCTCSSFrequency; FDCSFrequency; FOffsetFrequency; FMode; FTXFrequency;
   FTXStepSize; FLockOut; FName].

Definition field_kind (f : field) : kind :=
  match f with
  | FNumber | FToneFrequency | FCTCSSFrequency | FDCSFrequency => KUint 16
  | FRXFrequency | FOffsetFrequency | FTXFrequency => KUint 32
  | FName => KString
  | _ => KUint 8
  end.

Definition field_value (m : MemoryEntry) (f : field) : value :=
  match f with
  | FNumber => VUint 16 (Number m)
  | FRXFrequency => VUint 32 (RXFrequency m)
  | FRXStepSize => VUint 8 (RXStepSize m)
  | FShiftDirection => VUint 8 (ShiftDirection m)
  | FReverseEnabled => VUint 8 (ReverseEnabled m)
  | FToneEnabled => VUint 8 (ToneEnabled m)
  | FCTCSSEnabled => VUint 8 (CTCSSEnabled m)
  | FDCSEnabled => VUint 8 (DCSEnabled m)
  | FToneFrequency => VUint 16 (ToneFrequency m)
  | FCTCSSFrequency => VUint 16 (CTCSSFrequency m)
  | FDCSFrequency => VUint 16 (DCSFrequency m)
  | FOffsetFrequency => VUint 32 (OffsetFrequency m)
  | FMode => VUint 8 (Mode m)
  | FTXFrequency => VUint 32 (TXFrequency m)
  | FTXStepSize => VUint 8 (TXStepSize m)
  | FLockOut => VUint 8 (LockOut m)
  | FName => VString (Name m)
  end.

Definition set_Name (m : MemoryEntry) (s : string) : MemoryEntry :=
  mkMemoryEntry (Number m) (RXFrequency m) (RXStepSize m) (ShiftDirection m)
    (ReverseEnabled m) (ToneEnabled m) (CTCSSEnabled m) (DCSEnabled m)
    (ToneFrequency m) (CTCSSFrequency m) (DCSFrequency m) (OffsetFrequency m)
    (Mode m) (TXFrequency m) (TXStepSize m) (LockOut m) s.

Definition field_eq_dec (f g : field) : {f = g} + {f <> g}.
Proof. decide equality. Defined.

(** A store of [n] into the unsigned field [f]. *)
Definition set_uint (m : MemoryEntry) (f : field) (n : N) : MemoryEntry :=
  let pick (g : field) (old : N) := if field_eq_dec f g then n else old in
  mkMemoryEntry (pick FNumber (Number m)) (pick FRXFrequency (RXFrequency m))
    (pick FRXStepSize (RXStepSize m))
    (pick FShiftDirection (ShiftDirection m))
    (pick FReverseEnabled (ReverseEnabled m))
    (pick FToneEnabled (ToneEnabled m)) (pick FCTCSSEnabled (CTCSSEnabled m))
    (pick FDCSEnabled (DCSEnabled m)) (pick FToneFrequency (ToneFrequency m))
    (pick FCTCSSFrequency (CTCSSFrequency m))
    (pick FDCSFrequency (DCSFrequency m))
    (pick FOffsetFrequency (OffsetFrequency m)) (pick FMode (Mode m))
    (pick FTXFrequency (TXFrequency m)) (pick FTXStepSize (TXStepSize m))
    (pick FLockOut (LockOut m)) (Name m).

(** A store through the pointer to field [f]. *)
Definition assign (m : MemoryEntry) (f : field) (v : value) : MemoryEntry :=
  match f, v with
  | FName, VString s => set_Name m s
  | FName, _ => m
  | _, VUint _ n => set_uint m f n
  | _, _ => m
  end.

Fixpoint store (m : MemoryEntry) (ptrs : list field) (vals : list value)
    : MemoryEntry :=
  match ptrs, vals with
  | p :: ptrs', v :: vals' => store (assign m p v) ptrs' vals'
  | _, _ => m
  end.

(** [StructFieldPointers]: one pointer per field of the receiver. *)
Definition StructFieldPointers (m : MemoryEntry) : list field := fields.

(** [StructFieldValues]: the value of each field. *)
Definition StructFieldValues (m : MemoryEntry) : list value :=
  map (field_value m) fields.

Definition MEFormat : string :=
  "ME %03d,%010d,%1d,%1d,%1d,%1d,%1d,%1d,%02d,%02d,%03d,%08d,%1d,%010d,%1d,%1d".
Definition MNFormat : string := "MN %03d,%s".
Definition IDCommandFormat : string := "ID" ++ String CR "".
Definition MECommandFormat : string := "ME %03d" ++ String CR "".
Definition MNCommandFormat : string := "MN %03d" ++ String CR "".
Definition IDFormat : string := "ID %s".

(** The line the radio sends for an unused channel. *)
Definition emptyLine : string := "N" ++ String CR "".

(** ** Errors: one constructor per [fmt.Errorf] of the program *)

Inductive error : Type :=
| PortFault (cause : string)
| ErrWriteString (command : string) (err : error)
| ErrFlush (command : string) (err : error)
| ErrReadString (err : error)
| ErrWriting (err : error)
| ErrReading (err : error)
| ErrRejected (command : string)
| ErrReadChannel (err : error)
| ErrReadChannelName (err : error)
| ErrParseChannelLine (err : error)
| ErrParseNameLine (err : error)
| ErrEmptyChannel (channel : Z)
| ErrClearChannel (channel : Z) (err : error)
| ErrWriteChannelData (channel : Z) (err : error)
| ErrWriteChannelName (channel : Z) (err : error)
| ErrReadMemory (err : error)
| ErrWriteMemory (number : N) (err : error)
| ErrNameLine (line : string)
| ErrChannelLine (line : string)
| ErrLessItems.

(** The error kinds of the specification. *)
Definition Rejected (e : error) : Prop := exists command, e = ErrRejected command.
Definition Precondition (e : error) : Prop := exists channel, e = ErrEmptyChannel channel.
Definition Malformed (e : error) : Prop :=
  (exists line, e = ErrChannelLine line) \/ e = ErrLessItems
  \/ (exists line, e = ErrNameLine line).

(** ** The codec *)

Definition ReadNameLine (m : MemoryEntry) (line : string)
    : MemoryEntry * option error :=
  if negb (String.eqb line emptyLine) then
    let line := Strings.TrimSuffix line (String CR "") in
    let items := Strings.Split line "," in
    if negb (Strings.HasPrefix (nth 0 items "") "MN")
    then (m, Some (ErrNameLine line))
    else if (length items <? 2)%nat || String.eqb (nth 1 items "") ""
    then (set_Name m "", None)
    else (set_Name m (nth 1 items ""), None)
  else (m, None).

Definition ReadChannelLine (m : MemoryEntry) (line : string)
    : MemoryEntry * option error :=
  if negb (String.eqb line emptyLine) then
    let ptrs := firstn 16 (StructFieldPointers m) in
    let '(vals, err) := Fmt.Sscanf line MEFormat (map field_kind ptrs) in
    let m' := store m ptrs vals in
    let items := length vals in
    match err with
    | Some _ => (m', Some (ErrChannelLine line))
    | None =>
        if (items <? 15)%nat then (m', Some ErrLessItems) else (m', None)
    end
  else (m, None).

Definition WriteNameLine (m : MemoryEntry) : string :=
  let n := if (8 <? String.length (Name m))%nat
           then take 8 (Name m) else Name m in
  Fmt.Sprintf MNFormat [VUint 16 (Number m); VString n].

Definition WriteChannelLine (m : MemoryEntry) : string :=
  Fmt.Sprintf MEFormat (firstn 16 (StructFieldValues m)).

(** ** The radio

    The serial port behind [PortRW] is an external device: what it does
    with each buffered write and what it delivers to each read is given by
    two scripts that the operations consume.  [Log] is the debug log in
    which [WriteString] and [ReadString] record every command sent and
    every line received. *)

Inductive writeOutcome : Type :=
| WriteOk
| WriteErr (cause : string)       (* [PortRW.WriteString] fails *)
| FlushErr (cause : string).      (* [PortRW.Flush] fails *)

Inductive readOutcome : Type :=
| ReadLine (line : string)
| ReadErr (cause : string).

Record ReadWriter : Type := mkReadWriter {
  writes : list writeOutcome;
  reads : list readOutcome
}.

Inductive event : Type :=
| Send (command : string)
| Recv (line : string).

Record Radio : Type := mkRadio {
  PortRW : ReadWriter;
  PortPath : string;
  BaudRate : Z;
  Model : string;
  Memory : list MemoryEntry;
  Log : list event
}.

Definition set_PortRW (r : Radio) (rw : ReadWriter) : Radio :=
  mkRadio rw (PortPath r) (BaudRate r) (Model r) (Memory r) (Log r).
Definition set_Memory (r : Radio) (mem : list MemoryEntry) : Radio :=
  mkRadio (PortRW r) (PortPath r) (BaudRate r) (Model r) mem (Log r).
Definition logEvent (r : Radio) (e : event) : Radio :=
  mkRadio (PortRW r) (PortPath r) (BaudRate r) (Model r) (Memory r)
    (Log r ++ [e])%list.

(** Methods on [*Radio]: state-passing computations. *)
Definition M (A : Type) : Type := Radio -> A * Radio.
Definition ret {A} (a : A) : M A := fun r => (a, r).
Definition bind {A B} (c : M A) (k : A -> M B) : M B :=
  fun r => let '(a, r') := c r in k a r'.
Notation "x <- c ;; k" := (bind c (fun x => k))
  (at level 61, c at next level, right associativity).
Notation "' p <- c ;; k" := (bind c (fun x => let 'p := x in k))
  (at level 61, p pattern, c at next level, right associativity).

Definition WriteString (command : string) : M (option error) :=
  fun r =>
    let rw := PortRW r in
    match writes rw with
    | WriteErr cause :: ws =>
        (Some (ErrWriteString command (PortFault cause)),
         set_PortRW r (mkReadWriter ws (reads rw)))
    | FlushErr cause :: ws =>
        (Some (ErrFlush command (PortFault cause)),
         logEvent (set_PortRW r (mkReadWriter ws (reads rw))) (Send command))
    | WriteOk :: ws =>
        (None,
         logEvent (set_PortRW r (mkReadWriter ws (reads rw))) (Send command))
    | [] => (None, logEvent r (Send command))
    end.

Definition ReadString : M (string * option error) :=
  fun r =>
    let rw := PortRW r in
    match reads rw with
    | ReadLine str :: rs =>
        ((str, None),
         logEvent (set_PortRW r (mkReadWriter (writes rw) rs)) (Recv str))
    | ReadErr cause :: rs =>
        (("", Some (ErrReadString (PortFault cause))),
         set_PortRW r (mkReadWriter (writes rw) rs))
    | [] => (("", Some (ErrReadString (PortFault "EOF"))), r)
    end.

Definition WriteReadString (command : string) : M (string * option error) :=
  err <- WriteString command ;;
  match err with
  | Some err => ret ("", Some (ErrWriting err))
  | None =>
      '(line, err) <- ReadString ;;
      match err with
      | Some err => ret ("", Some (ErrReading err))
      | None =>
          if Strings.HasPrefix line "?"
          then ret ("", Some (ErrRejected command))
          else ret (line, None)
      end
  end.

Definition ReadChannel (channel : Z) : M (MemoryEntry * option error) :=
  '(chline, err) <- WriteReadString (Fmt.Sprintf MECommandFormat [VInt channel]) ;;
  match err with
  | Some err => ret (MemoryEntry_zero, Some (ErrReadChannel err))
  | None =>
      '(nameline, err) <-
         WriteReadString (Fmt.Sprintf MNCommandFormat [VInt channel]) ;;
      match err with
      | Some err => ret (MemoryEntry_zero, Some (ErrReadChannelName err))
      | None =>
          let m := MemoryEntry_zero in
          let '(m, err) := ReadChannelLine m chline in
          match err with
          | Some err => ret (MemoryEntry_zero, Some (ErrParseChannelLine err))
          | None =>
              let '(m, err) := ReadNameLine m nameline in
              match err with
              | Some err => ret (MemoryEntry_zero, Some (ErrParseNameLine err))
              | None => ret (m, None)
              end
          end
      end
  end.

(** [uint16(channel)]. *)
Definition uint16 (z : Z) : N := Z.to_N (z mod 2 ^ 16).

(** The closure of [WriteChannel]: the first entry of the bank whose
    [Number] is [number], or the zero entry. *)
Fixpoint lookupNumber (mem : list MemoryEntry) (number : N) : MemoryEntry :=
  match mem with
  | [] => MemoryEntry_zero
  | m :: mem' => if Number m =? number then m else lookupNumber mem' number
  end.

Definition WriteChannel (channel : Z) : M (option error) :=
  fun r =>
    let ch := lookupNumber (Memory r) (uint16 channel) in
    if RXFrequency ch =? 0 then (Some (ErrEmptyChannel channel), r)
    else
      ('(_, err) <-
         WriteReadString
           (Fmt.Sprintf ("ME %03d,C" ++ String CR "") [VInt channel]) ;;
       match err with
       | Some err => ret (Some (ErrClearChannel channel err))
       | None =>
           let chline := WriteChannelLine ch ++ String CR "" in
           '(_, err) <- WriteReadString chline ;;
           match err with
           | Some err => ret (Some (ErrWriteChannelData channel err))
           | None =>
               let nameline := WriteNameLine ch ++ String CR "" in
               '(_, err) <- WriteReadString nameline ;;
               match err with
               | Some err => ret (Some (ErrWriteChannelName channel err))
               | None => ret None
               end
           end
       end) r.

(** [r.Memory[i] = m]; an index outside the slice panics. *)
Fixpoint setIndex (mem : list MemoryEntry) (i : nat) (m : MemoryEntry)
    : option (list MemoryEntry) :=
  match mem, i with
  | [], _ => None
  | _ :: mem', O => Some (m :: mem')
  | m0 :: mem', S i' => option_map (cons m0) (setIndex mem' i' m)
  end.

(** How a method that may panic ends. *)
Inductive outcome (A : Type) : Type :=
| Returns (a : A) (r : Radio)
| Panics (r : Radio).
Arguments Returns {A} a r.
Arguments Panics {A} r.

(** The loop of [ReadMemory] from channel [i], [n] channels to go. *)
Fixpoint ReadMemoryFrom (n : nat) (i : nat) (r : Radio)
    : outcome (option error) :=
  match n with
  | O => Returns None r
  | S n' =>
      let '((m, err), r1) := ReadChannel (Z.of_nat i) r in
      match setIndex (Memory r1) i m with
      | None => Panics r1
      | Some mem =>
          let r2 := set_Memory r1 mem in
          match err with
          | Some err => Returns (Some (ErrReadMemory err)) r2
          | None => ReadMemoryFrom n' (S i) r2
          end
      end
  end.

Definition ReadMemory (r : Radio) : outcome (option error) :=
  ReadMemoryFrom 1000 0 r.

(** The loop of [OccupedChannels]: [v = append(v, m)] for every entry
    whose [RXFrequency] is not zero. *)
Definition OccupedChannels (r : Radio) : list MemoryEntry :=
  fold_left (fun v m => if negb (RXFrequency m =? 0) then (v ++ [m])%list else v)
    (Memory r) [].

Fixpoint WriteMemoryOver (ms : list MemoryEntry) : M (option error) :=
  match ms with
  | [] => ret None
  | m :: ms' =>
      err <- WriteChannel (Z.of_N (Number m)) ;;
      match err with
      | Some err => ret (Some (ErrWriteMemory (Number m) err))
      | None => WriteMemoryOver ms'
      end
  end.

Definition WriteMemory : M (option error) :=
  fun r => WriteMemoryOver (OccupedChannels r) r.

(** ** Sample data *)

Definition line_146520000 : string :=
  "ME 001,0146520000,0,0,0,0,0,0,00,00,000,00000000,0,0146520000,0,0"
  ++ String CR "".

Definition entry_146520000 (number : N) (name : string) : MemoryEntry :=
  mkMemoryEntry number 146520000 0 0 0 0 0 0 0 0 0 0 0 146520000 0 0 name.

(** A radio as [NewRadio] makes it: a bank of 1000 zero entries, and a
    port that delivers [lines]. *)
Definition radioOf (lines : list string) (mem : list MemoryEntry) : Radio :=
  mkRadio (mkReadWriter [] (map ReadLine lines)) "/dev/ttyUSB0" 9600 "" mem [].

Definition newRadio (lines : list string) : Radio :=
  radioOf lines (repeat MemoryEntry_zero 1000).

Definition radio_rejecting : Radio :=
  newRadio ["?invalid" ++ String CR ""].

(** The command that clears a channel, as [WriteChannel] formats it. *)
Definition clearCommand (channel : Z) : string :=
  Fmt.Sprintf ("ME %03d,C" ++ String CR "") [VInt channel].

(** The radio after one transaction that the device answered with [line]. *)
Definition exchanged (r : Radio) (command line : string) : Radio :=
  mkRadio (mkReadWriter (tl (writes (PortRW r))) (tl (reads (PortRW r))))
    (PortPath r) (BaudRate r) (Model r) (Memory r)
    (Log r ++ [Send command; Recv line])%list.

(** The port answers the next transactions with [lines], none of which
    starts with [?], and accepts the writes. *)
Fixpoint answers (ws : list writeOutcome) (rs : list readOutcome)
    (lines : list string) : Prop :=
  match lines with
  | [] => True
  | line :: lines' =>
      hd WriteOk ws = WriteOk /\ hd_error rs = Some (ReadLine line)
      /\ Strings.HasPrefix line "?" = false
      /\ answers (tl ws) (tl rs) lines'
  end.

(** The commands among the events of a log. *)
Definition commands (evs : list event) : list string :=
  flat_map (fun e => match e with Send c => [c] | Recv _ => [] end) evs.

(** A bank as [main] loads it from a dump that holds one channel: the
    channel sits in slot 0, whatever its number. *)
Definition radio_loaded : Radio :=
  radioOf ["ME" ++ String CR ""; "ME" ++ String CR ""; "MN" ++ String CR ""]
    (entry_146520000 5 "CALL" :: repeat MemoryEntry_zero 999).

(** A numeric line that stops after its fifteenth field. *)
Definition line_fifteen_fields : string :=
  "ME 001,0146520000,0,0,0,0,0,0,00,00,000,00000000,0,0146520000,0"
  ++ String CR "".

(** A radio whose device reports channel 1 in use and every other channel
    empty. *)
Definition radio_one_channel : Radio :=
  newRadio (emptyLine :: emptyLine :: line_146520000
            :: ("MN 001,CALL" ++ String CR "") :: repeat emptyLine 1996).

(** The radio a method returned with no error. *)
Definition succeeded (o : outcome (option error)) : option Radio :=
  match o with
  | Returns None r => Some r
  | _ => None
  end.

(** The pointers [StructFieldPointers()[:16]] and the types behind them. *)
Definition channelFields : list field :=
  [FNumber; FRXFrequency; FRXStepSize; FShiftDirection; FReverseEnabled;
   FToneEnabled; FCTCSSEnabled; FDCSEnabled; FToneFrequency;
   FCTCSSFrequency; FDCSFrequency; FOffsetFrequency; FMode; FTXFrequency;
   FTXStepSize; FLockOut].

Definition channelKinds : list kind :=
  [KUint 16; KUint 32; KUint 8; KUint 8; KUint 8; KUint 8; KUint 8; KUint 8;
   KUint 16; KUint 16; KUint 16; KUint 32; KUint 8; KUint 32; KUint 8; KUint 8].

(** The [w] low decimal digits of [u], most significant first, in front
    of [buf]. *)
Fixpoint fixedDigits (w : nat) (u : N) (buf : string) : string :=
  match w with
  | O => buf
  | S w' => fixedDigits w' (u / 10) (String (Fmt.digit (u mod 10)) buf)
  end.

(** An entry whose every numeric field fits the digits the numeric line
    gives it (and its Go type). *)
Definition in_range (e : MemoryEntry) : Prop :=
  Number e < 1000 /\ RXFrequency e < 2 ^ 32 /\ RXStepSize e < 10
  /\ ShiftDirection e < 10 /\ ReverseEnabled e < 10 /\ ToneEnabled e < 10
  /\ CTCSSEnabled e < 10 /\ DCSEnabled e < 10 /\ ToneFrequency e < 100
  /\ CTCSSFrequency e < 100 /\ DCSFrequency e < 1000
  /\ OffsetFrequency e < 100000000 /\ Mode e < 10 /\ TXFrequency e < 2 ^ 32
  /\ TXStepSize e < 10 /\ LockOut e < 10.

(** A character that is a rune by itself and not a blank. *)
Definition plainChar (c : ascii) : bool :=
  (N_of_ascii c <? 128) && negb (Fmt.isSpaceByte c).

(** A bank in which channels 5 and 7 are in use and channel 6 is not. *)
Definition radio_three : Radio :=
  radioOf []
    [entry_146520000 5 "FIVE";
     mkMemoryEntry 6 0 0 0 0 0 0 0 0 0 0 0 0 0 0 0 "";
     entry_146520000 7 "SEVEN"].

(** A radio whose device answers the numeric read of channel 1 properly
    and the name read with a line that is no name line. *)
Definition radio_bad_name : Radio :=
  newRadio [line_146520000; "XX 001,CALL" ++ String CR ""].

(** A bound that follows from a hypothesis on the same number. *)
Ltac fits :=
  first [ lia
        | eapply N.lt_le_trans; [eassumption | vm_compute; discriminate] ].

(** The widths of the verbs of a format, in order. *)
Fixpoint verbWidths (items : list Fmt.scanItem) : list (option N) :=
  match items with
  | [] => []
  | Fmt.SVerb wid _ :: items' => wid :: verbWidths items'
  | _ :: items' => verbWidths items'
  end.

(** What a scan leaves in its operands: numbers of the operand's size
    that have no more digits than the verb's width. *)
Fixpoint storedBy (ws : list (option N)) (a : list kind) (vals : list value)
    {struct vals} : Prop :=
  match vals with
  | [] => True
  | v :: vals' =>
      match ws, a with
      | w :: ws', KUint bits :: a' =>
          (exists i, v = VUint bits i /\ i < 2 ^ bits
                     /\ match w with Some w => i < 10 ^ w | None => True end)
          /\ storedBy ws' a' vals'
      | _, _ => False
      end
  end.

(** A bound that follows from a hypothesis on the same number. *)
Ltac bounded :=
  match goal with
  | H : ?x < ?b |- ?x < ?c =>
      apply (N.lt_le_trans x b c H); vm_compute; discriminate
  end.

(** The three lines [WriteChannel] sends for the channel of entry [m]: the
    clear command with the number of [m], then the numeric line and the
    name line of the record its lookup selects in the bank [mem]. *)
Definition channelLines (mem : list MemoryEntry) (m : MemoryEntry)
    : list string :=
  let channel := Z.of_N (Number m) in
  let ch := lookupNumber mem (uint16 channel) in
  [clearCommand channel; WriteChannelLine ch ++ String CR "";
   WriteNameLine ch ++ String CR ""].

(** The log of transactions that send [cmds] and are answered by [lines]. *)
Fixpoint transcript (cmds lines : list string) : list event :=
  match cmds, lines with
  | c :: cmds', l :: lines' => Send c :: Recv l :: transcript cmds' lines'
  | _, _ => []
  end.

(** A radio with channel 5 in its bank whose device acknowledges the clear
    command and rejects the numeric line. *)
Definition radio_rejects_data : Radio :=
  radioOf ["ME" ++ String CR ""; "?" ++ String CR ""]
    [entry_146520000 5 "FIVE"].

(** The bank of [radio_three] with a device that acknowledges six
    commands. *)
Definition radio_three_acks : Radio :=
  radioOf (repeat ("ME" ++ String CR "") 6) (Memory radio_three).

(** The three lines that write entry [m] itself. *)
Definition entryLines (m : MemoryEntry) : list string :=
  [clearCommand (Z.of_N (Number m)); WriteChannelLine m ++ String CR "";
   WriteNameLine m ++ String CR ""].

(** The two commands [ReadChannel] sends for channel [i]. *)
Definition readCommands (i : nat) : list string :=
  [Fmt.Sprintf MECommandFormat [VInt (Z.of_nat i)];
   Fmt.Sprintf MNCommandFormat [VInt (Z.of_nat i)]].

(** A radio whose bank has three slots only. *)
Definition radio_short_bank : Radio :=
  radioOf (repeat emptyLine 2000) (repeat MemoryEntry_zero 3).

(** A radio whose device answers the reads of channels 0 and 1 and
    rejects the numeric read of channel 2; its bank is full of channel 9. *)
Definition radio_fails_at_two : Radio :=
  radioOf [emptyLine; emptyLine; line_146520000;
           String "M" (String "N" (String " " (String "0" (String "0"
             (String "1" (String "," (String "A" (String CR ""))))))));
           String "?" (String CR "")]
    (repeat (entry_146520000 9 "OLD") 1000).

(** An entry whose fields hold values of their Go types. *)
Definition typed (e : MemoryEntry) : Prop :=
  Number e < 2 ^ 16 /\ RXFrequency e < 2 ^ 32 /\ RXStepSize e < 2 ^ 8
  /\ ShiftDirection e < 2 ^ 8 /\ ReverseEnabled e < 2 ^ 8
  /\ ToneEnabled e < 2 ^ 8 /\ CTCSSEnabled e < 2 ^ 8 /\ DCSEnabled e < 2 ^ 8
  /\ ToneFrequency e < 2 ^ 16 /\ CTCSSFrequency e < 2 ^ 16
  /\ DCSFrequency e < 2 ^ 16 /\ OffsetFrequency e < 2 ^ 32 /\ Mode e < 2 ^ 8
  /\ TXFrequency e < 2 ^ 32 /\ TXStepSize e < 2 ^ 8 /\ LockOut e < 2 ^ 8.

(** Every field in front of [LockOut] has no more digits than its width
    (the two frequencies always fit their ten digits). *)
Definition narrow (e : MemoryEntry) : Prop :=
  Number e < 1000 /\ RXStepSize e < 10 /\ ShiftDirection e < 10
  /\ ReverseEnabled e < 10 /\ ToneEnabled e < 10 /\ CTCSSEnabled e < 10
  /\ DCSEnabled e < 10 /\ ToneFrequency e < 100 /\ CTCSSFrequency e < 100
  /\ DCSFrequency e < 1000 /\ OffsetFrequency e < 100000000 /\ Mode e < 10
  /\ TXStepSize e < 10.

(** A lower bound that follows from a hypothesis on the same number. *)
Ltac exceeds :=
  match goal with
  | H : ?c <= ?u |- ?d <= ?u =>
      apply (N.le_trans d c u); [vm_compute; discriminate | exact H]
  end.

(** The first decimal digit of a byte. *)
Definition leading (u : N) : N :=
  if u <? 10 then u else if u <? 100 then u / 10 else u / 100.

(** [%1d] prints [u] as a digit string that starts with [leading u]. *)
Definition leads (u : N) : bool :=
  match Fmt.fmtInteger false (Some 1%nat) false u with
  | String c _ => isDigit c && (Fmt.parseDigits (String c "") 0 =? leading u)
  | EmptyString => false
  end.

(** An entry whose channel number has four digits. *)
Definition entry_number_1000 : MemoryEntry :=
  set_uint (entry_146520000 1 "CALL") FNumber 1000.

(** An entry in range but for its lock-out byte. *)
Definition entry_lockout_25 : MemoryEntry :=
  set_uint (entry_146520000 1 "CALL") FLockOut 25.

(** ** Scanning a word: [%s] on a string operand

    [Identify] scans with [%s] into [r.Model].  The scanner of [Fmt] is
    extended by that case: the word is the run of runes up to the next
    blank, each one decoded from UTF-8 and written back to the token, a
    byte that starts no rune as the replacement rune U+FFFD. *)

Module FmtS.

Definition inRange (lo hi : N) (c : ascii) : bool :=
  let n := N_of_ascii c in (lo <=? n) && (n <=? hi).

(** The tables [first] and [acceptRanges] of package [utf8]: the size of
    the rune that a byte above 127 starts and the range of its second
    byte. *)
Definition leadByte (n0 : N) : option (nat * N * N) :=
  if (194 <=? n0) && (n0 <=? 223) then Some (2%nat, 128, 191)
  else if n0 =? 224 then Some (3%nat, 160, 191)
  else if n0 =? 237 then Some (3%nat, 128, 159)
  else if (225 <=? n0) && (n0 <=? 239) then Some (3%nat, 128, 191)
  else if n0 =? 240 then Some (4%nat, 144, 191)
  else if (241 <=? n0) && (n0 <=? 243) then Some (4%nat, 128, 191)
  else if n0 =? 244 then Some (4%nat, 128, 143)
  else None.

(** U+FFFD in UTF-8. *)
Definition runeError : string :=
  String (ascii_of_N 239) (String (ascii_of_N 191) (String (ascii_of_N 189) "")).

(** The first rune of a string that is not empty, as [writeRune] puts it
    into the token, and the input behind it. *)
Definition decodeRune (s : string) : string * string :=
  match s with
  | EmptyString => (EmptyString, EmptyString)
  | String c0 r0 =>
      if N_of_ascii c0 <? 128 then (String c0 "", r0)
      else
        match leadByte (N_of_ascii c0), r0 with
        | Some (2%nat, lo, hi), String c1 r1 =>
            if inRange lo hi c1
            then (String c0 (String c1 ""), r1)
            else (runeError, r0)
        | Some (3%nat, lo, hi), String c1 (String c2 r2) =>
            if inRange lo hi c1 && inRange 128 191 c2
            then (String c0 (String c1 (String c2 "")), r2)
            else (runeError, r0)
        | Some (4%nat, lo, hi), String c1 (String c2 (String c3 r3)) =>
            if inRange lo hi c1 && inRange 128 191 c2 && inRange 128 191 c3
            then (String c0 (String c1 (String c2 (String c3 ""))), r3)
            else (runeError, r0)
        | _, _ => (runeError, r0)
        end
  end.

(** [token(true, notSpace)] behind the blanks: the runes up to the next
    blank, newline or the limit. *)
Fixpoint token (fuel : nat) (argLimit : N) (s : Fmt.ss) : string * Fmt.ss :=
  match fuel with
  | O => (EmptyString, s)
  | S fuel' =>
      match Fmt.getRune argLimit s with
      | Fmt.Other _ _ =>
          let '(bytes, after) := decodeRune (Fmt.rest s) in
          let '(tok, s') :=
            token fuel' argLimit (Fmt.mkss after (Fmt.count s + 1)) in
          (bytes ++ tok, s')
      | _ => (EmptyString, s)
      end
  end.

(** [convertString] for the verbs [%s] and [%v]. *)
Definition convertString (argLimit : N) (s : Fmt.ss)
    : Fmt.scanError + (string * Fmt.ss) :=
  match Fmt.SkipSpace argLimit s with
  | inl e => inl e
  | inr s1 =>
      match Fmt.getRune argLimit s1 with
      | Fmt.EOF => inl Fmt.ErrUnexpectedEOF
      | _ =>
          match Fmt.SkipSpace argLimit s1 with
          | inl e => inl e
          | inr s2 => inr (token (String.length (Fmt.rest s2)) argLimit s2)
          end
      end
  end.

(** [scanOne] with the string operand: [%s] and [%v] read a word; the
    verbs [%q], [%x] and [%X] are not modelled; any other verb is a bad
    verb for a string. *)
Definition scanOne (verb : ascii) (arg : kind) (argLimit : N) (s : Fmt.ss)
    : Fmt.scanError + (value * Fmt.ss) :=
  match arg with
  | KString =>
      if Ascii.eqb verb "s" || Ascii.eqb verb "v"
      then match convertString argLimit s with
           | inl e => inl e
           | inr (str, s') => inr (VString str, s')
           end
      else if Ascii.eqb verb "q" || Ascii.eqb verb "x" || Ascii.eqb verb "X"
      then inl Fmt.ErrUnmodelled
      else inl (Fmt.ErrBadVerb verb)
  | _ => Fmt.scanOne verb arg argLimit s
  end.

(** [doScanf] of [Fmt] over this [scanOne]. *)
Fixpoint doScanf (items : list Fmt.scanItem) (a : list kind) (s : Fmt.ss)
    : list value * option Fmt.scanError :=
  match items with
  | [] =>
      match a with
      | [] => ([], None)
      | _ => ([], Some Fmt.ErrTooManyOperands)
      end
  | Fmt.SLit c :: items' =>
      match Fmt.getRune Fmt.hugeWid s with
      | Fmt.EOF => ([], Some Fmt.ErrUnexpectedEOF)
      | Fmt.Other c' s' =>
          if Ascii.eqb c c' then doScanf items' a s'
          else ([], Some Fmt.ErrNoMatch)
      | _ => ([], Some Fmt.ErrNoMatch)
      end
  | Fmt.SBlank :: items' =>
      match Fmt.getRune Fmt.hugeWid s with
      | Fmt.EOF => doScanf items' a s
      | Fmt.Newline _ => ([], Some Fmt.ErrNewlineInInput)
      | Fmt.Space s' =>
          doScanf items' a (Fmt.skipBlanks (String.length (Fmt.rest s')) s')
      | Fmt.Other _ _ => ([], Some Fmt.ErrExpectedSpace)
      end
  | Fmt.SUnmodelled :: _ => ([], Some Fmt.ErrUnmodelled)
  | Fmt.SNoVerb :: _ => ([], Some Fmt.ErrMissingVerb)
  | Fmt.SVerb wid verb :: items' =>
      match Fmt.SkipSpace Fmt.hugeWid s with
      | inl e => ([], Some e)
      | inr s1 =>
          let maxWid :=
            match wid with Some w => w | None => Fmt.hugeWid end in
          let argLimit := N.min Fmt.hugeWid (Fmt.count s1 + maxWid) in
          match a with
          | [] => ([], Some Fmt.ErrTooFewOperands)
          | arg :: a' =>
              match scanOne verb arg argLimit s1 with
              | inl e => ([], Some e)
              | inr (v, s2) =>
                  let '(vs, e) := doScanf items' a' s2 in (v :: vs, e)
              end
          end
      end
  end.

Definition Sscanf (str format : string) (a : list kind)
    : list value * option Fmt.scanError :=
  doScanf (Fmt.scanItems (String.length format) format) a (Fmt.mkss str 0).

End FmtS.

(** ** Identification and start-up *)

Definition set_Model (r : Radio) (model : string) : Radio :=
  mkRadio (PortRW r) (PortPath r) (BaudRate r) model (Memory r) (Log r).

(** The two [fmt.Errorf] of [Identify]. *)
Inductive identifyError : Type :=
| ErrIdentSequence (err : error)
| ErrIdentParse (err : Fmt.scanError).

Definition Identify : M (option identifyError) :=
  '(line, err) <- WriteReadString IDCommandFormat ;;
  match err with
  | Some err => ret (Some (ErrIdentSequence err))
  | None =>
      fun r =>
        let '(vals, err) := FmtS.Sscanf line IDFormat [KString] in
        let r' := match vals with
                  | VString model :: _ => set_Model r model
                  | _ => r
                  end in
        match err with
        | Some err => (Some (ErrIdentParse err), r')
        | None => (None, r')
        end
  end.

(** The errors of [Connect] and [NewRadio]. *)
Inductive connectError : Type :=
| ErrOpening (cause : string)
| ErrNewRadio (err : connectError).

(** [Connect]: [open] is what [serial.Open] gives for the path and the
    baud rate of the radio. *)
Definition Connect (open : string -> Z -> string + ReadWriter)
    : M (option connectError) :=
  fun r =>
    match open (PortPath r) (BaudRate r) with
    | inl cause => (Some (ErrOpening cause), r)
    | inr rw => (None, set_PortRW r rw)
    end.

(** [make([]MemoryEntry, n)]. *)
Definition make (n : nat) : list MemoryEntry := repeat MemoryEntry_zero n.

(** [NewRadio]: the port of the new radio, [nil] until [Connect] has
    opened it, is a port without scripts. *)
Definition NewRadio (open : string -> Z -> string + ReadWriter)
    (portpath : string) (baudrate : Z) : connectError + Radio :=
  let r := mkRadio (mkReadWriter [] []) portpath baudrate "" (make 1000) [] in
  match Connect open r with
  | (Some err, _) => inl (ErrNewRadio err)
  | (None, r) => inr r
  end.

(** [copy(dst, src)]: as many elements as both slices have. *)
Definition copy (dst src : list MemoryEntry) : list MemoryEntry :=
  (firstn (length dst) src ++ skipn (length src) dst)%list.

(** What [main] finds in [./kenwood-memory.json]. *)
Inductive dump : Type :=
| NoFile                               (* [os.ReadFile] fails *)
| BadJSON                              (* [json.Unmarshal] fails *)
| Entries (loaded : list MemoryEntry).

(** How [main] ends: by one of its [log.Fatal] or at its last line. *)
Inductive exit : Type :=
| FatalOpening (err : connectError)
| FatalReadingDump
| FatalParsingDump
| FatalWriting (err : error)
| Done.

(** [main]: the radio is made and identified (the error of [Identify] is
    dropped), the bank is replaced by the dump and written to the device.
    The messages that [main] logs itself are left out of [Log]. *)
Definition main (open : string -> Z -> string + ReadWriter) (file : dump)
    : exit * option Radio :=
  match NewRadio open "/dev/ttyUSB0" 9600 with
  | inl err => (FatalOpening err, None)
  | inr r =>
      let '(_, r) := Identify r in
      match file with
      | NoFile => (FatalReadingDump, Some r)
      | BadJSON => (FatalParsingDump, Some r)
      | Entries loadedMemories =>
          let r := set_Memory r [] in
          let r := set_Memory r (make 1000) in
          let r := set_Memory r (copy (Memory r) loadedMemories) in
          match WriteMemory r with
          | (Some err, r) => (FatalWriting err, Some r)
          | (None, r) => (Done, Some r)
          end
      end
  end.

(** The radio of [main] behind [Identify], on the port [rw]. *)
Definition identified (rw : ReadWriter) : Radio :=
  snd (Identify (mkRadio rw "/dev/ttyUSB0" 9600 "" (make 1000) [])).

(** The entries of a dump that [main] writes: those among the first
    thousand whose [RXFrequency] is not zero. *)
Definition written (loaded : list MemoryEntry) : list MemoryEntry :=
  filter (fun m => negb (RXFrequency m =? 0)) (firstn 1000 loaded).

(** A port that answers the identification and three more commands. *)
Definition port_four_answers : ReadWriter :=
  mkReadWriter []
    (map ReadLine
       (("ID TH-D7" ++ String CR "")
        :: repeat (String "M" (String "E" (String CR ""))) 3)).

(** * Properties *)

(** ** The formatting model on small inputs *)

Example Sprintf_ME_command :
  Fmt.Sprintf ("ME %03d" ++ String CR "") [VInt 7] = "ME 007" ++ String CR "".
Proof. reflexivity. Qed.

Example Sprintf_wide_number :
  Fmt.Sprintf "MN %03d,%s" [VUint 16 65535; VString "CALL"] = "MN 65535,CALL".
Proof. reflexivity. Qed.

Example Sprintf_negative :
  Fmt.Sprintf "%03d|%1d|%3d" [VInt (-5); VUint 8 0; VUint 8 12] = "-05|0| 12".
Proof. reflexivity. Qed.

Example Sscanf_two :
  Fmt.Sscanf "ME 012,7" "ME %03d,%1d" [KUint 16; KUint 8]
  = ([VUint 16 12; VUint 8 7], None).
Proof. reflexivity. Qed.

Example Sscanf_short :
  Fmt.Sscanf "ME 012" "ME %03d,%1d" [KUint 16; KUint 8]
  = ([VUint 16 12], Some Fmt.ErrUnexpectedEOF).
Proof. reflexivity. Qed.


(** ** The transaction *)

Lemma WriteReadString_unfold :
  forall command r,
    WriteReadString command r =
    match WriteString command r with
    | (Some err, r0) => (("", Some (ErrWriting err)), r0)
    | (None, r0) =>
        match ReadString r0 with
        | ((_, Some err), r1) => (("", Some (ErrReading err)), r1)
        | ((line, None), r1) =>
            if Strings.HasPrefix line "?"
            then (("", Some (ErrRejected command)), r1)
            else ((line, None), r1)
        end
    end.
Proof.
  intros command r. unfold WriteReadString, bind, ret.
  destruct (WriteString command r) as [[err|] r0]; [reflexivity|].
  destruct (ReadString r0) as [[line [err|]] r1]; [reflexivity|].
  destruct (Strings.HasPrefix line "?"); reflexivity.
Qed.

(** C2. When the line read in answer to a command starts with [?], the
    transaction returns no line and the Rejected error that carries the
    command; it does not return success. *)
Theorem WriteReadString_rejected :
  forall command r r0 line r1,
    WriteString command r = (None, r0) ->
    ReadString r0 = ((line, None), r1) ->
    Strings.HasPrefix line "?" = true ->
    WriteReadString command r = (("", Some (ErrRejected command)), r1)
    /\ Rejected (ErrRejected command)
    /\ snd (fst (WriteReadString command r)) <> None.
Proof.
  intros command r r0 line r1 Hw Hr Hq.
  assert (E : WriteReadString command r = (("", Some (ErrRejected command)), r1)).
  { rewrite WriteReadString_unfold, Hw, Hr, Hq. reflexivity. }
  split; [exact E|]. split.
  - exists command. reflexivity.
  - rewrite E. discriminate.
Qed.

Lemma WriteReadString_rejected_witness :
  WriteReadString IDCommandFormat radio_rejecting
  = (("", Some (ErrRejected IDCommandFormat)),
     snd (WriteReadString IDCommandFormat radio_rejecting))
  /\ Rejected (ErrRejected IDCommandFormat)
  /\ snd (fst (WriteReadString IDCommandFormat radio_rejecting)) <> None.
Proof.
  apply (WriteReadString_rejected IDCommandFormat radio_rejecting
           (snd (WriteString IDCommandFormat radio_rejecting))
           ("?invalid" ++ String CR "")).
  - reflexivity.
  - reflexivity.
  - reflexivity.
Defined.

(** ** Occupied channels *)

Lemma occupied_loop :
  forall mem v,
    fold_left (fun v m => if negb (RXFrequency m =? 0) then (v ++ [m])%list else v)
      mem v
    = (v ++ filter (fun m => negb (RXFrequency m =? 0)) mem)%list.
Proof.
  induction mem as [|m mem IH]; intros v; simpl.
  - now rewrite app_nil_r.
  - rewrite IH. destruct (RXFrequency m =? 0); simpl.
    + reflexivity.
    + now rewrite <- app_assoc.
Qed.

Lemma sorted_filter :
  forall (p : MemoryEntry -> bool) mem,
    StronglySorted N.lt (map Number mem) ->
    StronglySorted N.lt (map Number (filter p mem)).
Proof.
  induction mem as [|m mem IH]; simpl; intros Hs.
  - constructor.
  - inversion Hs as [|? ? Hs' Hall]; subst.
    destruct (p m); simpl; [constructor|]; auto.
    rewrite Forall_forall in *. intros x Hx. apply Hall.
    rewrite in_map_iff in *. destruct Hx as [y [Hy Hin]].
    exists y. split; [assumption|]. apply filter_In in Hin. tauto.
Qed.

(** The entries kept by a filter are those at the positions, in
    ascending order, where the test holds. *)
Lemma filter_positions :
  forall (p : MemoryEntry -> bool) mem,
    exists slots,
      StronglySorted lt slots
      /\ filter p mem = map (fun i => nth i mem MemoryEntry_zero) slots
      /\ forall i, In i slots
                   <-> (i < length mem)%nat
                       /\ p (nth i mem MemoryEntry_zero) = true.
Proof.
  intros p. induction mem as [|m mem IH].
  - exists []. split; [constructor|]. split; [reflexivity|].
    intros i. simpl. split; [tauto|lia].
  - destruct IH as (slots & Hsorted & Hmap & Hin).
    assert (Hsorted' : StronglySorted lt (map S slots)).
    { clear Hmap Hin. induction Hsorted as [|i slots Hs IHs Hall].
      - constructor.
      - simpl. constructor; [exact IHs|].
        rewrite Forall_forall in *. intros j Hj.
        apply in_map_iff in Hj. destruct Hj as (k & <- & Hk).
        apply Hall in Hk. lia. }
    assert (Hmap' : filter p mem
                    = map (fun i => nth i (m :: mem) MemoryEntry_zero)
                        (map S slots)).
    { rewrite map_map. exact Hmap. }
    assert (Hin' : forall i, In i (map S slots)
                             <-> (exists j, i = S j /\ (j < length mem)%nat
                                            /\ p (nth j mem MemoryEntry_zero) = true)).
    { intros i. rewrite in_map_iff. split.
      - intros (j & <- & Hj). exists j. apply Hin in Hj. tauto.
      - intros (j & -> & Hj). exists j. split; [reflexivity|]. now apply Hin. }
    simpl filter. destruct (p m) eqn:E.
    + exists (0%nat :: map S slots). split; [|split].
      * constructor; [exact Hsorted'|].
        rewrite Forall_forall. intros j Hj. apply in_map_iff in Hj.
        destruct Hj as (k & <- & _). lia.
      * simpl. now rewrite Hmap'.
      * intros [|i]; simpl.
        -- split; [intros _; split; [lia|exact E]|auto].
        -- rewrite Hin'. split.
           ++ intros [H|(j & Hj & H)]; [discriminate|].
              inversion Hj; subst. split; [lia|tauto].
           ++ intros [H1 H2]. right. exists i. repeat split; auto. lia.
    + exists (map S slots). split; [exact Hsorted'|]. split; [exact Hmap'|].
      intros [|i]; simpl.
      * rewrite Hin'. split.
        -- intros (j & Hj & _). discriminate.
        -- intros [_ H]. congruence.
      * rewrite Hin'. split.
        -- intros (j & Hj & H). inversion Hj; subst. split; [lia|tauto].
        -- intros [H1 H2]. exists i. repeat split; auto. lia.
Qed.

(** C4. [OccupedChannels] is the sub-sequence of the bank, in bank order,
    of the entries whose [RXFrequency] is not zero: it holds the entries
    of the slots, taken in ascending order, whose [RXFrequency] is not
    zero; an entry is in the result exactly when it is in the bank with
    a non-zero [RXFrequency], whatever its other fields; and when the
    bank is in ascending order of the [Number] fields, so is the
    result. *)
Theorem OccupedChannels_subsequence :
  forall r,
    OccupedChannels r = filter (fun m => negb (RXFrequency m =? 0)) (Memory r)
    /\ (exists slots,
          StronglySorted lt slots
          /\ OccupedChannels r
             = map (fun i => nth i (Memory r) MemoryEntry_zero) slots
          /\ forall i, In i slots
                       <-> (i < length (Memory r))%nat
                           /\ RXFrequency (nth i (Memory r) MemoryEntry_zero)
                              <> 0)
    /\ (forall m, In m (OccupedChannels r)
                  <-> In m (Memory r) /\ RXFrequency m <> 0)
    /\ (StronglySorted N.lt (map Number (Memory r)) ->
        StronglySorted N.lt (map Number (OccupedChannels r))).
Proof.
  intros r.
  assert (E : OccupedChannels r
              = filter (fun m => negb (RXFrequency m =? 0)) (Memory r)).
  { unfold OccupedChannels. now rewrite occupied_loop. }
  split; [exact E|]. rewrite E. split; [|split].
  - destruct (filter_positions (fun m => negb (RXFrequency m =? 0)) (Memory r))
      as (slots & Hs & Hm & Hin).
    exists slots. split; [exact Hs|]. split; [exact Hm|].
    intros i. rewrite Hin, negb_true_iff, N.eqb_neq. tauto.
  - intros m. rewrite filter_In, negb_true_iff, N.eqb_neq. tauto.
  - apply sorted_filter.
Qed.

Lemma OccupedChannels_subsequence_witness :
  OccupedChannels radio_three
  = filter (fun m => negb (RXFrequency m =? 0)) (Memory radio_three)
  /\ StronglySorted N.lt (map Number (OccupedChannels radio_three)).
Proof.
  split.
  - apply (proj1 (OccupedChannels_subsequence radio_three)).
  - apply (proj2 (proj2 (proj2 (OccupedChannels_subsequence radio_three)))).
    repeat constructor.
Defined.

Example OccupedChannels_three :
  OccupedChannels radio_three
  = [entry_146520000 5 "FIVE"; entry_146520000 7 "SEVEN"].
Proof. reflexivity. Qed.

(** ** Decoding the sample line *)

(** C6. The line [ME 001,0146520000,0,0,0,0,0,0,00,00,000,00000000,0,0146520000,0,0]
    followed by a carriage return decodes without error; the fields are
    stored in the order of the format: [Number] is 1, [RXFrequency] and
    [TXFrequency] are 146520000 and every other numeric field is 0.  The
    name of the receiver is not touched. *)
Theorem ReadChannelLine_sample :
  forall m,
    ReadChannelLine m line_146520000
    = (mkMemoryEntry 1 146520000 0 0 0 0 0 0 0 0 0 0 0 146520000 0 0 (Name m),
       None).
Proof.
  intros m. unfold ReadChannelLine.
  replace (String.eqb line_146520000 emptyLine) with false by (vm_compute; reflexivity).
  cbn [negb].
  replace (Fmt.Sscanf line_146520000 MEFormat
             (map field_kind (firstn 16 (StructFieldPointers m))))
    with ([VUint 16 1; VUint 32 146520000; VUint 8 0; VUint 8 0; VUint 8 0;
           VUint 8 0; VUint 8 0; VUint 8 0; VUint 16 0; VUint 16 0;
           VUint 16 0; VUint 32 0; VUint 8 0; VUint 32 146520000; VUint 8 0;
           VUint 8 0], @None Fmt.scanError)
    by (vm_compute; reflexivity).
  reflexivity.
Qed.

(** ** Reading one channel *)

Lemma ReadChannel_unfold :
  forall channel r,
    ReadChannel channel r =
    match WriteReadString (Fmt.Sprintf MECommandFormat [VInt channel]) r with
    | ((_, Some err), r1) => ((MemoryEntry_zero, Some (ErrReadChannel err)), r1)
    | ((chline, None), r1) =>
        match WriteReadString (Fmt.Sprintf MNCommandFormat [VInt channel]) r1 with
        | ((_, Some err), r2) =>
            ((MemoryEntry_zero, Some (ErrReadChannelName err)), r2)
        | ((nameline, None), r2) =>
            match ReadChannelLine MemoryEntry_zero chline with
            | (_, Some err) =>
                ((MemoryEntry_zero, Some (ErrParseChannelLine err)), r2)
            | (m1, None) =>
                match ReadNameLine m1 nameline with
                | (_, Some err) =>
                    ((MemoryEntry_zero, Some (ErrParseNameLine err)), r2)
                | (m2, None) => ((m2, None), r2)
                end
            end
        end
    end.
Proof.
  intros channel r. unfold ReadChannel, bind, ret.
  destruct (WriteReadString _ r) as [[chline [err|]] r1]; [reflexivity|].
  destruct (WriteReadString _ r1) as [[nameline [err|]] r2]; [reflexivity|].
  destruct (ReadChannelLine MemoryEntry_zero chline) as [m1 [err|]];
    [reflexivity|].
  destruct (ReadNameLine m1 nameline) as [m2 [err|]]; reflexivity.
Qed.

(** C10. [ReadChannel] returns an error only together with the zero
    entry: a failure of the numeric-read transaction, of the name-read
    transaction, of the numeric decode or of the name decode each gives
    [MemoryEntry{}] and the error of that step, also when earlier steps had
    already filled fields of the record. *)
Theorem ReadChannel_atomic :
  forall channel r,
    let MEcmd := Fmt.Sprintf MECommandFormat [VInt channel] in
    let MNcmd := Fmt.Sprintf MNCommandFormat [VInt channel] in
    (forall m err r', ReadChannel channel r = ((m, Some err), r') ->
                      m = MemoryEntry_zero)
    /\ (forall s err r1,
          WriteReadString MEcmd r = ((s, Some err), r1) ->
          ReadChannel channel r
          = ((MemoryEntry_zero, Some (ErrReadChannel err)), r1))
    /\ (forall chline r1 s err r2,
          WriteReadString MEcmd r = ((chline, None), r1) ->
          WriteReadString MNcmd r1 = ((s, Some err), r2) ->
          ReadChannel channel r
          = ((MemoryEntry_zero, Some (ErrReadChannelName err)), r2))
    /\ (forall chline r1 nameline r2 m1 err,
          WriteReadString MEcmd r = ((chline, None), r1) ->
          WriteReadString MNcmd r1 = ((nameline, None), r2) ->
          ReadChannelLine MemoryEntry_zero chline = (m1, Some err) ->
          ReadChannel channel r
          = ((MemoryEntry_zero, Some (ErrParseChannelLine err)), r2))
    /\ (forall chline r1 nameline r2 m1 m2 err,
          WriteReadString MEcmd r = ((chline, None), r1) ->
          WriteReadString MNcmd r1 = ((nameline, None), r2) ->
          ReadChannelLine MemoryEntry_zero chline = (m1, None) ->
          ReadNameLine m1 nameline = (m2, Some err) ->
          ReadChannel channel r
          = ((MemoryEntry_zero, Some (ErrParseNameLine err)), r2)).
Proof.
  intros channel r MEcmd MNcmd. subst MEcmd MNcmd.
  repeat split.
  - intros m err r'. rewrite ReadChannel_unfold.
    destruct (WriteReadString _ r) as [[chline [e|]] r1];
      [intros H; now inversion H|].
    destruct (WriteReadString _ r1) as [[nameline [e|]] r2];
      [intros H; now inversion H|].
    destruct (ReadChannelLine MemoryEntry_zero chline) as [m1 [e|]];
      [intros H; now inversion H|].
    destruct (ReadNameLine m1 nameline) as [m2 [e|]];
      intros H; now inversion H.
  - intros s err r1 H1. now rewrite ReadChannel_unfold, H1.
  - intros chline r1 s err r2 H1 H2. now rewrite ReadChannel_unfold, H1, H2.
  - intros chline r1 nameline r2 m1 err H1 H2 H3.
    now rewrite ReadChannel_unfold, H1, H2, H3.
  - intros chline r1 nameline r2 m1 m2 err H1 H2 H3 H4.
    now rewrite ReadChannel_unfold, H1, H2, H3, H4.
Qed.

Lemma ReadChannel_atomic_witness :
  ReadChannel 1 radio_bad_name
  = ((MemoryEntry_zero,
      Some (ErrParseNameLine (ErrNameLine "XX 001,CALL"))),
     snd (ReadChannel 1 radio_bad_name)).
Proof.
  apply (proj2 (proj2 (proj2 (proj2 (ReadChannel_atomic 1 radio_bad_name))))
           line_146520000
           (snd (WriteReadString (Fmt.Sprintf MECommandFormat [VInt 1])
                   radio_bad_name))
           ("XX 001,CALL" ++ String CR "")
           (snd (ReadChannel 1 radio_bad_name))
           (entry_146520000 1 "")
           (entry_146520000 1 "")); reflexivity.
Defined.

(** ** Writing one channel *)

Lemma WriteChannel_unfold :
  forall channel r,
    WriteChannel channel r =
    let ch := lookupNumber (Memory r) (uint16 channel) in
    if RXFrequency ch =? 0 then (Some (ErrEmptyChannel channel), r)
    else
      match WriteReadString (clearCommand channel) r with
      | ((_, Some err), r1) => (Some (ErrClearChannel channel err), r1)
      | ((_, None), r1) =>
          match WriteReadString (WriteChannelLine ch ++ String CR "") r1 with
          | ((_, Some err), r2) => (Some (ErrWriteChannelData channel err), r2)
          | ((_, None), r2) =>
              match WriteReadString (WriteNameLine ch ++ String CR "") r2 with
              | ((_, Some err), r3) =>
                  (Some (ErrWriteChannelName channel err), r3)
              | ((_, None), r3) => (None, r3)
              end
          end
      end.
Proof.
  intros channel r. unfold WriteChannel, clearCommand, bind, ret. cbv zeta.
  destruct (RXFrequency _ =? 0); [reflexivity|].
  destruct (WriteReadString _ r) as [[l1 [err|]] r1]; [reflexivity|].
  destruct (WriteReadString _ r1) as [[l2 [err|]] r2]; [reflexivity|].
  destruct (WriteReadString _ r2) as [[l3 [err|]] r3]; reflexivity.
Qed.

Lemma WriteReadString_answered :
  forall command r line,
    hd WriteOk (writes (PortRW r)) = WriteOk ->
    hd_error (reads (PortRW r)) = Some (ReadLine line) ->
    Strings.HasPrefix line "?" = false ->
    WriteReadString command r = ((line, None), exchanged r command line).
Proof.
  intros command [[ws rs] pp br md mem lg] line Hw Hr Hq.
  simpl in Hw, Hr. rewrite WriteReadString_unfold.
  destruct rs as [|[l|c] rs]; try discriminate. inversion Hr; subst l.
  unfold exchanged.
  destruct ws as [|[| |] ws]; try discriminate;
    unfold WriteString, ReadString, logEvent, set_PortRW; simpl;
    rewrite Hq, <- app_assoc; reflexivity.
Qed.

(** Whatever the port does, a transaction leaves the bank alone and logs
    at most its own command; one that succeeds has logged it. *)
Lemma WriteReadString_log :
  forall command r,
    let res := WriteReadString command r in
    Memory (snd res) = Memory r
    /\ exists evs, Log (snd res) = (Log r ++ evs)%list
                   /\ (commands evs = [command]
                       \/ (commands evs = [] /\ snd (fst res) <> None)).
Proof.
  intros command [[ws rs] pp br md mem lg]. rewrite WriteReadString_unfold.
  unfold WriteString, ReadString, logEvent, set_PortRW; simpl.
  destruct ws as [|[|c|c] ws]; simpl;
    try (destruct rs as [|[l|c'] rs]; simpl;
         try destruct (Strings.HasPrefix l "?"); simpl);
    (split; [reflexivity|]);
    first [ exists [Send command]; split; [reflexivity|now left]
          | exists [Send command; Recv l]; rewrite <- app_assoc;
            split; [reflexivity|now left]
          | exists []; rewrite app_nil_r; split;
            [reflexivity|right; split; [reflexivity|discriminate]] ].
Qed.



Lemma lookupNumber_first :
  forall mem number,
    let ch := lookupNumber mem number in
    (exists i,
       nth_error mem i = Some ch /\ Number ch = number
       /\ forall j m, (j < i)%nat -> nth_error mem j = Some m ->
                      Number m <> number)
    \/ (ch = MemoryEntry_zero
        /\ forall m, In m mem -> Number m <> number).
Proof.
  induction mem as [|m0 mem IH]; intros number; simpl.
  - right. split; [reflexivity|]. intros m [].
  - destruct (Number m0 =? number) eqn:E.
    + left. exists 0%nat. apply N.eqb_eq in E. simpl.
      repeat split; auto. intros j m Hj. inversion Hj.
    + apply N.eqb_neq in E. destruct (IH number) as [[i (Hi & Hn & Hlt)]|[Hz Hall]].
      * left. exists (S i). simpl. repeat split; auto.
        intros [|j] m Hj Hm; simpl in Hm.
        -- now inversion Hm; subst.
        -- apply (Hlt j m); [lia|assumption].
      * right. split; [assumption|]. intros m [->|Hin]; auto.
Qed.

(** C8 (as the code has it). [WriteChannel] selects the first entry of the
    bank whose [Number] field is the channel number (as a [uint16]), or
    the zero entry when no entry has that number; it fails with the
    Precondition error, without touching the radio, exactly when the
    selected entry has [RXFrequency] zero. *)
Theorem WriteChannel_selects_by_number :
  forall channel r,
    let ch := lookupNumber (Memory r) (uint16 channel) in
    ((exists e, fst (WriteChannel channel r) = Some e /\ Precondition e)
     <-> RXFrequency ch = 0)
    /\ ((exists i,
           nth_error (Memory r) i = Some ch /\ Number ch = uint16 channel
           /\ forall j m, (j < i)%nat -> nth_error (Memory r) j = Some m ->
                          Number m <> uint16 channel)
        \/ (ch = MemoryEntry_zero
            /\ forall m, In m (Memory r) -> Number m <> uint16 channel)).
Proof.
  intros channel r ch. split; [|apply lookupNumber_first].
  rewrite WriteChannel_unfold. cbv zeta. fold ch.
  destruct (RXFrequency ch =? 0) eqn:E.
  - apply N.eqb_eq in E. split; [auto|]. intros _.
    exists (ErrEmptyChannel channel). split; [reflexivity|now exists channel].
  - apply N.eqb_neq in E. split; [|tauto].
    intros [e [He [c Hc]]]. subst e. exfalso.
    destruct (WriteReadString _ r) as [[l1 [err|]] r1]; [discriminate|].
    destruct (WriteReadString _ r1) as [[l2 [err|]] r2]; [discriminate|].
    destruct (WriteReadString _ r2) as [[l3 [err|]] r3]; discriminate.
Qed.

(** C8, as the claim has it, fails: in a bank loaded from a dump, channel
    5 sits in slot 0 and slot 5 is empty, yet [WriteChannel 5] writes the
    channel instead of failing with the Precondition error. *)
Lemma WriteChannel_not_by_position :
  RXFrequency (nth 5 (Memory radio_loaded) MemoryEntry_zero) = 0
  /\ fst (WriteChannel 5 radio_loaded) = None.
Proof. split; vm_compute; reflexivity. Qed.

(** ** Facts about strings *)

Lemma append_nil_r : forall s : string, s ++ "" = s.
Proof. induction s as [|c s IH]; simpl; congruence. Qed.

Lemma append_assoc : forall s1 s2 s3 : string, (s1 ++ s2) ++ s3 = s1 ++ s2 ++ s3.
Proof. induction s1 as [|c s1 IH]; intros; simpl; congruence. Qed.

Lemma all_chars_impl :
  forall (p q : ascii -> bool) s,
    (forall c, p c = true -> q c = true) ->
    all_chars p s = true -> all_chars q s = true.
Proof.
  intros p q s Hpq. induction s as [|c s IH]; simpl; [reflexivity|].
  rewrite !andb_true_iff. intros [Hc Hs]. auto.
Qed.

Lemma all_chars_app :
  forall p s1 s2, all_chars p (s1 ++ s2) = all_chars p s1 && all_chars p s2.
Proof.
  induction s1 as [|c s1 IH]; intros s2; simpl; [reflexivity|].
  now rewrite IH, andb_assoc.
Qed.

Lemma length_replicate :
  forall n c s, String.length (replicate n c s) = (n + String.length s)%nat.
Proof. induction n as [|n IH]; intros; simpl; [reflexivity|now rewrite IH]. Qed.

Lemma all_chars_replicate :
  forall p n c s,
    p c = true -> all_chars p s = true -> all_chars p (replicate n c s) = true.
Proof. induction n as [|n IH]; intros; simpl; [assumption|]. rewrite IH; auto. now rewrite H. Qed.

Lemma isDigit_digit : forall d, d < 10 -> isDigit (Fmt.digit d) = true.
Proof.
  intros d Hd. unfold isDigit, Fmt.digit.
  rewrite N_ascii_embedding by lia.
  apply andb_true_iff. split; apply N.leb_le; lia.
Qed.

Lemma isDigit_notComma : forall c, isDigit c = true -> notComma c = true.
Proof.
  intros c H. unfold notComma. destruct (Ascii.eqb_spec c ","); [|reflexivity].
  subst c. discriminate H.
Qed.

Lemma isDigit_notCR : forall c, isDigit c = true -> Ascii.eqb c CR = false.
Proof.
  intros c H. destruct (Ascii.eqb_spec c CR); [|reflexivity].
  subst c. discriminate H.
Qed.

(** ** Facts about [%d] *)

Lemma fmtUnsigned_digits :
  forall fuel u buf,
    all_chars isDigit buf = true ->
    all_chars isDigit (Fmt.fmtUnsigned fuel u buf) = true.
Proof.
  induction fuel as [|fuel IH]; intros u buf Hbuf; simpl; [assumption|].
  destruct (u <? 10) eqn:E.
  - simpl. apply N.ltb_lt in E. now rewrite isDigit_digit, Hbuf.
  - apply IH. simpl. rewrite isDigit_digit, Hbuf; [reflexivity|].
    apply N.mod_lt. lia.
Qed.

Lemma decimal_digits : forall u, all_chars isDigit (Fmt.decimal u) = true.
Proof. intros u. apply fmtUnsigned_digits. reflexivity. Qed.

(** With the [0] flag the output is the decimal digits behind zeros. *)
Lemma fmtInteger_zero :
  forall w u,
    Fmt.fmtInteger true (Some w) false u
    = replicate (w - String.length (Fmt.decimal u)) "0" (Fmt.decimal u).
Proof.
  intros w u. unfold Fmt.fmtInteger, Fmt.padLeft.
  rewrite length_replicate.
  replace (w - (w - String.length (Fmt.decimal u)
                + String.length (Fmt.decimal u)))%nat with O by lia.
  reflexivity.
Qed.

Lemma fmtInteger_digits :
  forall w u, all_chars isDigit (Fmt.fmtInteger true (Some w) false u) = true.
Proof.
  intros w u. rewrite fmtInteger_zero.
  apply all_chars_replicate; [reflexivity|apply decimal_digits].
Qed.

(** ** The name line *)

Lemma HasSuffix_CR_app :
  forall p s,
    all_chars (fun c => negb (Ascii.eqb c CR)) p = true ->
    Strings.HasSuffix (p ++ s) (String CR "") = Strings.HasSuffix s (String CR "").
Proof.
  induction p as [|c p IH]; intros s Hp; [reflexivity|].
  simpl in Hp. apply andb_true_iff in Hp. destruct Hp as [Hc Hp].
  apply negb_true_iff in Hc. cbn [append Strings.HasSuffix String.eqb].
  rewrite Hc. now apply IH.
Qed.

Lemma TrimSuffix_none :
  forall s suf, Strings.HasSuffix s suf = false -> Strings.TrimSuffix s suf = s.
Proof.
  induction s as [|c s IH]; intros suf;
    cbn [Strings.HasSuffix Strings.TrimSuffix].
  - intros _. now destruct (String.eqb "" suf).
  - destruct (String.eqb (String c s) suf); [intros H; discriminate H|].
    intros H. now rewrite IH.
Qed.

Lemma Split_none :
  forall s, all_chars notComma s = true -> Strings.Split s "," = [s].
Proof.
  induction s as [|c s IH]; simpl; [reflexivity|].
  rewrite andb_true_iff. unfold notComma at 1. rewrite negb_true_iff.
  intros [Hc Hs]. rewrite Hc, IH by assumption. reflexivity.
Qed.

Lemma Split_comma :
  forall p s,
    all_chars notComma p = true ->
    Strings.Split (p ++ String "," s) "," = p :: Strings.Split s ",".
Proof.
  induction p as [|c p IH]; intros s; simpl; [reflexivity|].
  rewrite andb_true_iff. unfold notComma at 1. rewrite negb_true_iff.
  intros [Hc Hp]. rewrite Hc, IH by assumption. reflexivity.
Qed.

Lemma WriteNameLine_shape :
  forall e,
    WriteNameLine e
    = "MN " ++ Fmt.fmtInteger true (Some 3%nat) false (Number e)
      ++ String ","
           (if (8 <? String.length (Name e))%nat
            then take 8 (Name e) else Name e).
Proof.
  intros e. unfold WriteNameLine.
  change (Fmt.Sprintf MNFormat ?a)
    with (Fmt.doPrintf [Fmt.Lit "M"; Fmt.Lit "N"; Fmt.Lit " ";
                        Fmt.Verb true (Some 3%nat) "d"; Fmt.Lit ",";
                        Fmt.Verb false None "s"] a).
  cbn [Fmt.doPrintf Fmt.printArg Ascii.eqb Bool.eqb].
  unfold Fmt.fmtString, Fmt.padLeft. cbn [Nat.sub replicate].
  now rewrite append_nil_r.
Qed.

(** C7 (as the code has it). When the name that is written -- the name
    itself if it has at most 8 bytes, its first 8 bytes otherwise --
    contains no comma and does not end in a carriage return, decoding the
    encoded name line gives exactly that name, without error. *)
Theorem name_roundtrip :
  forall e m,
    let n := if (8 <? String.length (Name e))%nat
             then take 8 (Name e) else Name e in
    all_chars notComma n = true ->
    Strings.HasSuffix n (String CR "") = false ->
    ReadNameLine m (WriteNameLine e) = (set_Name m n, None)
    /\ ((String.length (Name e) <= 8)%nat -> n = Name e)
    /\ ((8 < String.length (Name e))%nat -> n = take 8 (Name e)).
Proof.
  intros e m n Hcomma Hcr.
  assert (Hn : (String.length (Name e) <= 8)%nat -> n = Name e).
  { intros H. subst n. apply Nat.ltb_ge in H. now rewrite H. }
  assert (Hn' : (8 < String.length (Name e))%nat -> n = take 8 (Name e)).
  { intros H. subst n. apply Nat.ltb_lt in H. now rewrite H. }
  split; [|split; assumption].
  rewrite WriteNameLine_shape. fold n.
  set (ds := Fmt.fmtInteger true (Some 3%nat) false (Number e)).
  assert (Hds : all_chars isDigit ds = true) by apply fmtInteger_digits.
  unfold ReadNameLine.
  replace (String.eqb ("MN " ++ ds ++ String "," n) emptyLine) with false
    by reflexivity.
  cbn [negb].
  assert (Htrim : Strings.TrimSuffix ("MN " ++ ds ++ String "," n) (String CR "")
                  = "MN " ++ ds ++ String "," n).
  { apply TrimSuffix_none.
    rewrite <- append_assoc.
    rewrite HasSuffix_CR_app.
    - cbn [Strings.HasSuffix String.eqb Ascii.eqb]. simpl. exact Hcr.
    - rewrite all_chars_app. simpl.
      apply (all_chars_impl isDigit); [|assumption].
      intros c Hc. now rewrite isDigit_notCR. }
  rewrite Htrim.
  assert (Hsplit : Strings.Split ("MN " ++ ds ++ String "," n) ","
                   = ["MN " ++ ds; n]).
  { rewrite <- append_assoc, Split_comma, Split_none; auto.
    rewrite all_chars_app. simpl.
    apply (all_chars_impl isDigit); [apply isDigit_notComma|assumption]. }
  rewrite Hsplit. cbn [nth length].
  replace (Strings.HasPrefix ("MN " ++ ds) "MN") with true by reflexivity.
  cbn [negb Nat.ltb Nat.leb orb].
  destruct (String.eqb_spec n "") as [->|_]; reflexivity.
Qed.

Lemma name_roundtrip_witness :
  ReadNameLine MemoryEntry_zero (WriteNameLine (entry_146520000 5 "CALLSIGN-2"))
  = (set_Name MemoryEntry_zero "CALLSIGN", None)
  /\ ((String.length "CALLSIGN-2" <= 8)%nat -> "CALLSIGN" = "CALLSIGN-2")
  /\ ((8 < String.length "CALLSIGN-2")%nat -> "CALLSIGN" = take 8 "CALLSIGN-2").
Proof.
  apply (name_roundtrip (entry_146520000 5 "CALLSIGN-2") MemoryEntry_zero);
    reflexivity.
Defined.

(** C7, as the claim has it, fails: the three-byte name [A,B] is written
    as [MN 005,A,B] and read back as [A]. *)
Lemma name_roundtrip_comma :
  (String.length "A,B" <= 8)%nat
  /\ WriteNameLine (entry_146520000 5 "A,B") = "MN 005,A,B"
  /\ ReadNameLine MemoryEntry_zero (WriteNameLine (entry_146520000 5 "A,B"))
     = (set_Name MemoryEntry_zero "A", None)
  /\ Name (fst (ReadNameLine MemoryEntry_zero
                  (WriteNameLine (entry_146520000 5 "A,B")))) <> "A,B".
Proof.
  split; [simpl; lia|]. split; [reflexivity|]. split; [reflexivity|].
  discriminate.
Qed.

(** ** The numeric line: how many fields must parse *)

(** [Sscanf] reports no error only when every operand has been filled. *)
Lemma doScanf_complete :
  forall items a s vals,
    Fmt.doScanf items a s = (vals, None) -> length vals = length a.
Proof.
  induction items as [|it items IH]; intros a s vals; simpl.
  - destruct a; intros H; inversion H; reflexivity.
  - destruct it as [c| | |wid verb|].
    + destruct (Fmt.getRune Fmt.hugeWid s) as [|?|?|c' s']; try discriminate.
      destruct (Ascii.eqb c c'); [apply IH|discriminate].
    + destruct (Fmt.getRune Fmt.hugeWid s) as [|?|s'|? ?]; try discriminate;
        apply IH.
    + discriminate.
    + destruct (Fmt.SkipSpace Fmt.hugeWid s) as [e|s1]; [discriminate|].
      destruct a as [|arg a]; [discriminate|].
      destruct (Fmt.scanOne verb arg _ s1) as [e|[v s2]]; [discriminate|].
      destruct (Fmt.doScanf items a s2) as [vs e] eqn:E.
      intros H. inversion H; subst. simpl. f_equal. now apply (IH a s2).
    + discriminate.
Qed.

Lemma Sscanf_complete :
  forall str format a vals,
    Fmt.Sscanf str format a = (vals, None) -> length vals = length a.
Proof. intros str format a vals. unfold Fmt.Sscanf. apply doScanf_complete. Qed.

Lemma channelFields_eq :
  forall m, firstn 16 (StructFieldPointers m) = channelFields.
Proof. reflexivity. Qed.

Lemma channelKinds_eq :
  forall m, map field_kind (firstn 16 (StructFieldPointers m)) = channelKinds.
Proof. reflexivity. Qed.

Lemma ReadChannelLine_unfold :
  forall m line,
    ReadChannelLine m line =
    if String.eqb line emptyLine then (m, None)
    else match Fmt.Sscanf line MEFormat channelKinds with
         | (vals, Some _) =>
             (store m channelFields vals, Some (ErrChannelLine line))
         | (vals, None) =>
             if (length vals <? 15)%nat
             then (store m channelFields vals, Some ErrLessItems)
             else (store m channelFields vals, None)
         end.
Proof.
  intros m line. unfold ReadChannelLine.
  destruct (String.eqb line emptyLine); [reflexivity|].
  cbn [negb]. rewrite channelKinds_eq, channelFields_eq. cbv zeta.
  destruct (Fmt.Sscanf line MEFormat channelKinds) as [vals [e|]]; reflexivity.
Qed.

Lemma ReadChannelLine_success :
  forall m line m',
    ReadChannelLine m line = (m', None) ->
    (line = emptyLine /\ m' = m)
    \/ exists vals,
         Fmt.Sscanf line MEFormat channelKinds = (vals, None)
         /\ length vals = 16%nat
         /\ m' = store m channelFields vals.
Proof.
  intros m line m'. rewrite ReadChannelLine_unfold.
  destruct (String.eqb_spec line emptyLine) as [->|Hne].
  - intros H. left. split; [reflexivity|]. congruence.
  - destruct (Fmt.Sscanf line MEFormat channelKinds) as [vals [e|]] eqn:E;
      [discriminate|].
    pose proof (Sscanf_complete _ _ _ _ E) as Hlen.
    destruct (length vals <? 15)%nat; [discriminate|].
    intros H. right. exists vals. split; [reflexivity|].
    split; [exact Hlen|]. congruence.
Qed.

(** C5 (what the code does). On a line whose first fifteen fields parse
    and whose sixteenth is absent, [Sscanf] stores fifteen values and
    reports an error, so [ReadChannelLine] fails with the Malformed error
    of its first check; a decode that succeeds on a line other than the
    empty marker has parsed all sixteen fields, and the check
    [items < 15] never decides. *)
Theorem ReadChannelLine_fifteen_fields :
  Fmt.Sscanf line_fifteen_fields MEFormat
    (map field_kind (firstn 16 (StructFieldPointers MemoryEntry_zero)))
  = ([VUint 16 1; VUint 32 146520000; VUint 8 0; VUint 8 0; VUint 8 0;
      VUint 8 0; VUint 8 0; VUint 8 0; VUint 16 0; VUint 16 0; VUint 16 0;
      VUint 32 0; VUint 8 0; VUint 32 146520000; VUint 8 0],
     Some Fmt.ErrNoMatch)
  /\ ReadChannelLine MemoryEntry_zero line_fifteen_fields
     = (entry_146520000 1 "", Some (ErrChannelLine line_fifteen_fields))
  /\ Malformed (ErrChannelLine line_fifteen_fields)
  /\ (forall m line m',
        ReadChannelLine m line = (m', None) -> line <> emptyLine ->
        exists vals,
          Fmt.Sscanf line MEFormat channelKinds = (vals, None)
          /\ length vals = 16%nat).
Proof.
  split; [vm_compute; reflexivity|]. split; [vm_compute; reflexivity|].
  split; [left; now exists line_fifteen_fields|].
  intros m line m' H Hne.
  destruct (ReadChannelLine_success m line m' H) as [[-> _]|[vals [E [L _]]]].
  - now elim Hne.
  - exists vals. auto.
Qed.

(** ** Reading the bank *)

Lemma WriteReadString_success :
  forall command r line r1,
    WriteReadString command r = ((line, None), r1) ->
    reads (PortRW r) = ReadLine line :: reads (PortRW r1)
    /\ Memory r1 = Memory r.
Proof.
  intros command [[ws rs] pp br md mem lg] line r1.
  rewrite WriteReadString_unfold.
  unfold WriteString, ReadString, logEvent, set_PortRW; simpl.
  destruct ws as [|[|c|c] ws]; simpl; try discriminate;
    (destruct rs as [|[l|c'] rs]; simpl; try discriminate;
     destruct (Strings.HasPrefix l "?"); try discriminate;
     intros H; inversion H; subst; simpl; auto).
Qed.

Lemma ReadChannel_success :
  forall channel r m r2,
    ReadChannel channel r = ((m, None), r2) ->
    exists chline nameline m1,
      reads (PortRW r)
      = ReadLine chline :: ReadLine nameline :: reads (PortRW r2)
      /\ Memory r2 = Memory r
      /\ ReadChannelLine MemoryEntry_zero chline = (m1, None)
      /\ ReadNameLine m1 nameline = (m, None).
Proof.
  intros channel r m r2. rewrite ReadChannel_unfold.
  destruct (WriteReadString _ r) as [[chline [e|]] r1] eqn:E1; [discriminate|].
  destruct (WriteReadString _ r1) as [[nameline [e|]] r2'] eqn:E2;
    [discriminate|].
  destruct (ReadChannelLine MemoryEntry_zero chline) as [m1 [e|]] eqn:E3;
    [discriminate|].
  destruct (ReadNameLine m1 nameline) as [m2 [e|]] eqn:E4; [discriminate|].
  intros H. inversion H; subst.
  apply WriteReadString_success in E1, E2.
  destruct E1 as [R1 M1], E2 as [R2 M2].
  exists chline, nameline, m1. rewrite R1, R2, M2, M1. auto.
Qed.

Lemma setIndex_nth :
  forall mem i m mem',
    setIndex mem i m = Some mem' ->
    nth_error mem' i = Some m
    /\ forall j, j <> i -> nth_error mem' j = nth_error mem j.
Proof.
  induction mem as [|m0 mem IH]; intros i m mem'; simpl; [discriminate|].
  destruct i as [|i].
  - intros H. inversion H; subst. split; [reflexivity|].
    intros [|j] Hj; [now elim Hj|reflexivity].
  - destruct (setIndex mem i m) as [mem1|] eqn:E; [|discriminate].
    simpl. intros H. inversion H; subst.
    destruct (IH i m mem1 E) as [Hi Hj]. split; [exact Hi|].
    intros [|j] Hne; [reflexivity|]. simpl. apply Hj. congruence.
Qed.

Lemma ReadNameLine_Number :
  forall m line m' e, ReadNameLine m line = (m', e) -> Number m' = Number m.
Proof.
  intros m line m' e. unfold ReadNameLine.
  destruct (negb (String.eqb line emptyLine)).
  - destruct (negb _); [intros H; now inversion H|].
    destruct (_ || _); intros H; now inversion H.
  - intros H. now inversion H.
Qed.

(** The slots written by the loop of [ReadMemory] from channel [i] on. *)
Lemma ReadMemoryFrom_slots :
  forall n i r r',
    ReadMemoryFrom n i r = Returns None r' ->
    (forall j, (j < i)%nat -> nth_error (Memory r') j = nth_error (Memory r) j)
    /\ forall k, (k < n)%nat ->
         exists chline nameline m1 m2,
           nth_error (reads (PortRW r)) (2 * k) = Some (ReadLine chline)
           /\ nth_error (reads (PortRW r)) (2 * k + 1)
              = Some (ReadLine nameline)
           /\ ReadChannelLine MemoryEntry_zero chline = (m1, None)
           /\ ReadNameLine m1 nameline = (m2, None)
           /\ nth_error (Memory r') (i + k) = Some m2.
Proof.
  induction n as [|n IH]; intros i r r'; simpl.
  - intros H. inversion H; subst. split; [reflexivity|]. intros k Hk. lia.
  - destruct (ReadChannel (Z.of_nat i) r) as [[m err] r1] eqn:E.
    destruct (setIndex (Memory r1) i m) as [mem|] eqn:Es; [|discriminate].
    destruct err as [err|]; [discriminate|].
    intros H. apply IH in H. destruct H as [Hlow Hhigh].
    apply ReadChannel_success in E.
    destruct E as (chline & nameline & m1 & Hr & Hm & Hc & Hn).
    apply setIndex_nth in Es. destruct Es as [Hi Hother].
    cbn [set_Memory Memory PortRW] in Hlow, Hhigh. rewrite Hm in Hother.
    split.
    + intros j Hj. rewrite Hlow by lia. apply Hother. lia.
    + intros [|k] Hk.
      * exists chline, nameline, m1, m. rewrite Hr.
        repeat split; auto. rewrite Nat.add_0_r, Hlow by lia. exact Hi.
      * destruct (Hhigh k ltac:(lia))
          as (cl & nl & n1 & n2 & H1 & H2 & H3 & H4 & H5).
        exists cl, nl, n1, n2. rewrite Hr. repeat split; auto.
        -- match goal with
           | |- nth_error _ ?j = _ => replace j with (S (S (2 * k))) by lia
           end.
           exact H1.
        -- match goal with
           | |- nth_error _ ?j = _ => replace j with (S (S (2 * k + 1))) by lia
           end.
           exact H2.
        -- replace (i + S k)%nat with (S i + k)%nat by lia. exact H5.
Qed.

(** C9 (as the code has it). After a successful [ReadMemory], the entry in
    slot [i] of the bank, for every [i] below 1000, is the record decoded
    from the two lines the device sent for channel [i]: its [Number] is
    the one parsed from the numeric line, and it is 0 when the device
    reported the channel empty. *)
Theorem ReadMemory_slots :
  forall r r' i,
    ReadMemory r = Returns None r' ->
    (i < 1000)%nat ->
    exists chline nameline m1 m2,
      nth_error (reads (PortRW r)) (2 * i) = Some (ReadLine chline)
      /\ nth_error (reads (PortRW r)) (2 * i + 1) = Some (ReadLine nameline)
      /\ ReadChannelLine MemoryEntry_zero chline = (m1, None)
      /\ ReadNameLine m1 nameline = (m2, None)
      /\ nth_error (Memory r') i = Some m2
      /\ Number m2 = Number m1
      /\ (chline = emptyLine -> Number m2 = 0).
Proof.
  intros r r' i H Hi. unfold ReadMemory in H.
  apply ReadMemoryFrom_slots in H. destruct H as [_ H].
  destruct (H i Hi) as (cl & nl & m1 & m2 & H1 & H2 & H3 & H4 & H5).
  exists cl, nl, m1, m2. repeat split; auto.
  - now apply ReadNameLine_Number in H4.
  - intros ->. apply ReadNameLine_Number in H4. rewrite H4.
    unfold ReadChannelLine in H3.
    rewrite String.eqb_refl in H3. simpl in H3. now inversion H3.
Qed.

(** C9, as the claim has it, fails: when the device reports channel 1 in
    use and the other channels empty, [ReadMemory] succeeds and the
    entries in slots 0 to 5 have the numbers 0, 1, 0, 0, 0, 0: an empty
    slot is numbered 0, whatever its position. *)
Lemma ReadMemory_empty_slots_number_zero :
  option_map (fun r => map Number (firstn 6 (Memory r)))
    (succeeded (ReadMemory radio_one_channel))
  = Some [0; 1; 0; 0; 0; 0]
  /\ option_map (fun r => option_map Number (nth_error (Memory r) 5))
       (succeeded (ReadMemory radio_one_channel))
     <> Some (Some 5).
Proof. split; [vm_compute; reflexivity|vm_compute; discriminate]. Qed.

Lemma ReadMemory_slots_witness :
  exists chline nameline m1 m2,
    nth_error (reads (PortRW radio_one_channel)) (2 * 1)
    = Some (ReadLine chline)
    /\ nth_error (reads (PortRW radio_one_channel)) (2 * 1 + 1)
       = Some (ReadLine nameline)
    /\ ReadChannelLine MemoryEntry_zero chline = (m1, None)
    /\ ReadNameLine m1 nameline = (m2, None)
    /\ nth_error
         (Memory (match ReadMemory radio_one_channel with
                  | Returns _ r' | Panics r' => r'
                  end)) 1
       = Some m2
    /\ Number m2 = Number m1
    /\ (chline = emptyLine -> Number m2 = 0).
Proof.
  apply (ReadMemory_slots radio_one_channel).
  - vm_compute. reflexivity.
  - lia.
Defined.

(** ** The numeric line: printing *)

Lemma fixedDigits_app :
  forall w u buf, fixedDigits w u buf = fixedDigits w u "" ++ buf.
Proof.
  induction w as [|w IH]; intros u buf; simpl; [reflexivity|].
  rewrite IH, (IH _ (String _ "")), append_assoc. reflexivity.
Qed.

Lemma fixedDigits_length :
  forall w u buf,
    String.length (fixedDigits w u buf) = (w + String.length buf)%nat.
Proof.
  induction w as [|w IH]; intros u buf; simpl; [reflexivity|].
  rewrite IH. simpl. lia.
Qed.

Lemma fixedDigits_digits :
  forall w u buf,
    all_chars isDigit buf = true ->
    all_chars isDigit (fixedDigits w u buf) = true.
Proof.
  induction w as [|w IH]; intros u buf Hbuf; simpl; [assumption|].
  apply IH. simpl. rewrite isDigit_digit, Hbuf; [reflexivity|].
  apply N.mod_lt. lia.
Qed.

Lemma fixedDigits_zero :
  forall j buf, fixedDigits j 0 buf = replicate j "0" buf.
Proof.
  induction j as [|j IH]; intros buf; simpl; [reflexivity|].
  change (0 / 10) with 0. change (Fmt.digit (0 mod 10)) with "0"%char.
  rewrite IH. clear IH. revert buf.
  induction j as [|j IH]; intros buf; simpl; [reflexivity|].
  now rewrite IH.
Qed.

Lemma fixedDigits_more :
  forall k j u buf,
    u < 10 ^ N.of_nat k ->
    fixedDigits (k + j) u buf = replicate j "0" (fixedDigits k u buf).
Proof.
  induction k as [|k IH]; intros j u buf Hu.
  - simpl in Hu. assert (u = 0) by lia. subst u. apply fixedDigits_zero.
  - cbn [Nat.add fixedDigits]. apply IH.
    rewrite Nat2N.inj_succ, N.pow_succ_r' in Hu.
    apply N.Div0.div_lt_upper_bound. lia.
Qed.

(** The digit loop gives the decimal digits with no leading zero. *)
Lemma fmtUnsigned_fixed :
  forall fuel u buf,
    (1 <= fuel)%nat -> u < 2 ^ N.of_nat fuel ->
    exists k,
      (1 <= k)%nat
      /\ Fmt.fmtUnsigned fuel u buf = fixedDigits k u buf
      /\ u < 10 ^ N.of_nat k
      /\ forall w, (1 <= w)%nat -> u < 10 ^ N.of_nat w -> (k <= w)%nat.
Proof.
  induction fuel as [|fuel IH]; intros u buf Hf Hu; [lia|].
  cbn [Fmt.fmtUnsigned]. destruct (u <? 10) eqn:E.
  - apply N.ltb_lt in E. exists 1%nat. cbn [fixedDigits].
    rewrite N.mod_small by assumption.
    repeat split; auto.
  - apply N.ltb_ge in E.
    rewrite Nat2N.inj_succ, N.pow_succ_r' in Hu.
    assert (Hq : u / 10 < 2 ^ N.of_nat fuel).
    { apply N.Div0.div_lt_upper_bound. lia. }
    assert (Hq1 : 1 <= u / 10).
    { apply N.div_le_lower_bound; lia. }
    assert (Hfuel : (1 <= fuel)%nat).
    { destruct fuel; [simpl in Hq; lia|lia]. }
    destruct (IH (u / 10) (String (Fmt.digit (u mod 10)) buf) Hfuel Hq)
      as (k & Hk & Hfmt & Hlt & Hmin).
    exists (S k). cbn [fixedDigits]. repeat split; auto.
    + rewrite Nat2N.inj_succ, N.pow_succ_r'.
      pose proof (N.div_mod u 10 ltac:(lia)).
      pose proof (N.mod_lt u 10 ltac:(lia)). lia.
    + intros [|[|w]] Hw Huw; [lia|simpl in Huw; lia|].
      apply le_n_S. apply Hmin; [lia|].
      rewrite Nat2N.inj_succ, N.pow_succ_r' in Huw.
      apply N.Div0.div_lt_upper_bound. lia.
Qed.

Lemma decimal_fixed :
  forall u,
    exists k,
      (1 <= k)%nat
      /\ Fmt.decimal u = fixedDigits k u ""
      /\ forall w, (1 <= w)%nat -> u < 10 ^ N.of_nat w -> (k <= w)%nat.
Proof.
  intros u. unfold Fmt.decimal.
  destruct (fmtUnsigned_fixed (S (N.to_nat (N.size u))) u "")
    as (k & Hk & Hfmt & _ & Hmin).
  - lia.
  - rewrite Nat2N.inj_succ, N2Nat.id, N.pow_succ_r'.
    pose proof (N.size_gt u). lia.
  - exists k. auto.
Qed.

(** [%0wd] of a number of at most [w] digits is its [w] digits. *)
Lemma fmtInteger_fixed :
  forall w u,
    (1 <= w)%nat -> u < 10 ^ N.of_nat w ->
    Fmt.fmtInteger true (Some w) false u = fixedDigits w u "".
Proof.
  intros w u Hw Hu. rewrite fmtInteger_zero.
  destruct (decimal_fixed u) as (k & Hk & Hdec & Hmin).
  rewrite Hdec, fixedDigits_length. cbn [String.length].
  specialize (Hmin w Hw Hu).
  replace (w - (k + 0))%nat with (w - k)%nat by lia.
  replace w with (k + (w - k))%nat at 2 by lia.
  symmetry. apply fixedDigits_more.
  destruct (fmtUnsigned_fixed (S (N.to_nat (N.size u))) u "")
    as (k' & Hk' & Hfmt' & Hlt' & Hmin'); [lia| |].
  - rewrite Nat2N.inj_succ, N2Nat.id, N.pow_succ_r'.
    pose proof (N.size_gt u). lia.
  - unfold Fmt.decimal in Hdec. rewrite Hfmt' in Hdec.
    assert (k' = k).
    { apply (f_equal String.length) in Hdec.
      rewrite !fixedDigits_length in Hdec. lia. }
    subst k'. exact Hlt'.
Qed.

(** [%1d] of a one-digit number is that digit. *)
Lemma fmtInteger_one :
  forall u, u < 10 ->
    Fmt.fmtInteger false (Some 1%nat) false u = fixedDigits 1 u "".
Proof.
  intros u Hu. unfold Fmt.fmtInteger, Fmt.padLeft.
  destruct (decimal_fixed u) as (k & Hk & Hdec & Hmin).
  assert (k = 1%nat) by (specialize (Hmin 1%nat); simpl in Hmin; lia).
  subst k. rewrite Hdec. reflexivity.
Qed.

(** ** The numeric line: scanning *)

Lemma plainChar_digit : forall c, isDigit c = true -> plainChar c = true.
Proof.
  intros c H. unfold isDigit in H. apply andb_true_iff in H.
  destruct H as [H1 H2]. apply N.leb_le in H1, H2.
  unfold plainChar, Fmt.isSpaceByte. cbv zeta.
  apply andb_true_iff. split; [apply N.ltb_lt; lia|].
  apply negb_true_iff, orb_false_iff. split.
  - apply andb_false_iff. right. apply N.leb_gt. lia.
  - apply N.eqb_neq. lia.
Qed.

Lemma wideSpace_plain :
  forall c r, N_of_ascii c < 128 -> Fmt.wideSpace (String c r) = None.
Proof.
  intros c r Hc.
  assert (H194 : (N_of_ascii c =? 194) = false) by (apply N.eqb_neq; lia).
  assert (H225 : (N_of_ascii c =? 225) = false) by (apply N.eqb_neq; lia).
  assert (H226 : (N_of_ascii c =? 226) = false) by (apply N.eqb_neq; lia).
  assert (H227 : (N_of_ascii c =? 227) = false) by (apply N.eqb_neq; lia).
  unfold Fmt.wideSpace. destruct r as [|b [|c' r']]; cbv zeta;
    rewrite ?H194, ?H225, ?H226, ?H227; reflexivity.
Qed.

Lemma getRune_plain :
  forall c r cnt lim,
    plainChar c = true -> cnt < lim ->
    Fmt.getRune lim (Fmt.mkss (String c r) cnt)
    = Fmt.Other c (Fmt.mkss r (cnt + 1)).
Proof.
  intros c r cnt lim Hc Hlim. unfold plainChar in Hc.
  apply andb_true_iff in Hc. destruct Hc as [H128 Hsp].
  apply N.ltb_lt in H128. apply negb_true_iff in Hsp.
  unfold Fmt.getRune. cbn [Fmt.count Fmt.rest].
  replace (lim <=? cnt) with false by (symmetry; apply N.leb_gt; exact Hlim).
  destruct (Ascii.eqb_spec c LF) as [->|_]; [discriminate Hsp|].
  rewrite Hsp, wideSpace_plain by assumption. reflexivity.
Qed.

Lemma getRune_limit :
  forall s lim, lim <= Fmt.count s -> Fmt.getRune lim s = Fmt.EOF.
Proof.
  intros s lim H. unfold Fmt.getRune.
  replace (lim <=? Fmt.count s) with true by (symmetry; apply N.leb_le; exact H).
  reflexivity.
Qed.

Lemma SkipSpace_plain :
  forall c r cnt lim,
    plainChar c = true ->
    Fmt.SkipSpace lim (Fmt.mkss (String c r) cnt)
    = inr (Fmt.mkss (String c r) cnt).
Proof.
  intros c r cnt lim Hc. unfold Fmt.SkipSpace. cbn [Fmt.skipSpace].
  destruct (N.lt_ge_cases cnt lim) as [Hlt|Hge].
  - now rewrite getRune_plain.
  - now rewrite getRune_limit.
Qed.

Lemma skipBlanks_plain :
  forall fuel c r cnt,
    plainChar c = true ->
    Fmt.skipBlanks fuel (Fmt.mkss (String c r) cnt) = Fmt.mkss (String c r) cnt.
Proof.
  intros [|fuel] c r cnt Hc; [reflexivity|]. cbn [Fmt.skipBlanks].
  destruct (N.lt_ge_cases cnt Fmt.hugeWid) as [Hlt|Hge].
  - now rewrite getRune_plain.
  - now rewrite getRune_limit.
Qed.

Lemma scanDigits_all :
  forall ds tail cnt fuel,
    all_chars isDigit ds = true ->
    (String.length ds <= fuel)%nat ->
    Fmt.scanDigits fuel (cnt + N.of_nat (String.length ds))
      (Fmt.mkss (ds ++ tail) cnt)
    = (ds, Fmt.mkss tail (cnt + N.of_nat (String.length ds))).
Proof.
  induction ds as [|c ds IH]; intros tail cnt fuel Hds Hfuel.
  - cbn [String.length N.of_nat append]. rewrite N.add_0_r.
    destruct fuel; [reflexivity|]. cbn [Fmt.scanDigits].
    rewrite getRune_limit by (cbn [Fmt.count]; lia). reflexivity.
  - cbn [all_chars] in Hds. apply andb_true_iff in Hds.
    destruct Hds as [Hc Hds]. cbn [String.length] in *.
    destruct fuel as [|fuel]; [lia|].
    cbn [Fmt.scanDigits append].
    rewrite getRune_plain by (auto using plainChar_digit; lia).
    rewrite Hc.
    replace (cnt + N.of_nat (S (String.length ds)))
      with (cnt + 1 + N.of_nat (String.length ds)) by lia.
    rewrite IH by (auto; lia). reflexivity.
Qed.

Lemma parseDigits_app :
  forall s c acc,
    Fmt.parseDigits (s ++ String c "") acc
    = 10 * Fmt.parseDigits s acc + (N_of_ascii c - 48).
Proof.
  induction s as [|c0 s IH]; intros c acc; cbn [append Fmt.parseDigits].
  - reflexivity.
  - apply IH.
Qed.

Lemma parseDigits_fixed :
  forall w u,
    u < 10 ^ N.of_nat w -> Fmt.parseDigits (fixedDigits w u "") 0 = u.
Proof.
  induction w as [|w IH]; intros u Hu.
  - simpl in Hu. cbn. lia.
  - cbn [fixedDigits]. rewrite fixedDigits_app, parseDigits_app.
    rewrite Nat2N.inj_succ, N.pow_succ_r' in Hu.
    rewrite IH by (apply N.Div0.div_lt_upper_bound; lia).
    unfold Fmt.digit. pose proof (N.mod_lt u 10 ltac:(lia)).
    rewrite N_ascii_embedding by lia.
    pose proof (N.div_mod u 10 ltac:(lia)) as Hdm.
    set (q := u / 10) in *. set (d := u mod 10) in *. clearbody q d.
    clear IH Hu. lia.
Qed.

Lemma scanUint_digits :
  forall ds tail cnt bits,
    ds <> "" ->
    all_chars isDigit ds = true ->
    Fmt.parseDigits ds 0 < 2 ^ 64 ->
    Fmt.parseDigits ds 0 < 2 ^ bits ->
    Fmt.scanUint bits (cnt + N.of_nat (String.length ds))
      (Fmt.mkss (ds ++ tail) cnt)
    = inr (Fmt.parseDigits ds 0,
           Fmt.mkss tail (cnt + N.of_nat (String.length ds))).
Proof.
  intros ds tail cnt bits Hne Hds H64 Hbits.
  destruct ds as [|c ds']; [now elim Hne|].
  assert (Hc : plainChar c = true).
  { cbn [all_chars] in Hds. apply andb_true_iff in Hds.
    apply plainChar_digit. tauto. }
  unfold Fmt.scanUint.
  change (String c ds' ++ tail) with (String c (ds' ++ tail)).
  rewrite SkipSpace_plain by assumption.
  rewrite getRune_plain by (auto; cbn [String.length]; lia).
  change (String c (ds' ++ tail)) with (String c ds' ++ tail).
  rewrite scanDigits_all; [| assumption |].
  - replace (2 ^ 64 <=? Fmt.parseDigits (String c ds') 0) with false
      by (symmetry; apply N.leb_gt; assumption).
    replace (2 ^ bits <=? Fmt.parseDigits (String c ds') 0) with false
      by (symmetry; apply N.leb_gt; assumption).
    reflexivity.
  - cbn [Fmt.rest]. clear. induction (String c ds') as [|a s IH]; simpl; lia.
Qed.

(** A verb [%wd] in front of the [w] digits of a number that fits reads
    the number and stops behind the digits. *)
Lemma doScanf_verb :
  forall w u bits items a cnt tail,
    (1 <= w)%nat ->
    u < 10 ^ N.of_nat w -> u < 2 ^ bits -> u < 2 ^ 64 ->
    (cnt + N.of_nat w <=? Fmt.hugeWid) = true ->
    Fmt.doScanf (Fmt.SVerb (Some (N.of_nat w)) "d" :: items) (KUint bits :: a)
      (Fmt.mkss (fixedDigits w u tail) cnt)
    = (VUint bits u :: fst (Fmt.doScanf items a (Fmt.mkss tail (cnt + N.of_nat w))),
       snd (Fmt.doScanf items a (Fmt.mkss tail (cnt + N.of_nat w)))).
Proof.
  intros w u bits items a cnt tail Hw Hu Hbits H64 Hlim.
  apply N.leb_le in Hlim.
  rewrite (fixedDigits_app w u tail).
  pose proof (fixedDigits_length w u "") as Hlen. cbn [String.length] in Hlen.
  rewrite Nat.add_0_r in Hlen.
  pose proof (fixedDigits_digits w u "" eq_refl) as Hds.
  pose proof (parseDigits_fixed w u Hu) as Hval.
  set (ds := fixedDigits w u "") in *.
  assert (Hne : ds <> "").
  { intros E. rewrite E in Hlen. simpl in Hlen. lia. }
  cbn [Fmt.doScanf].
  destruct ds as [|c ds'] eqn:Eds; [now elim Hne|].
  assert (Hc : plainChar c = true).
  { cbn [all_chars] in Hds. apply andb_true_iff in Hds.
    apply plainChar_digit. tauto. }
  change (String c ds' ++ tail) with (String c (ds' ++ tail)).
  rewrite SkipSpace_plain by assumption.
  change (String c (ds' ++ tail)) with (String c ds' ++ tail).
  cbn [Fmt.count]. rewrite N.min_r by exact Hlim.
  unfold Fmt.scanOne. change (Ascii.eqb "d" "d") with true. cbv iota.
  rewrite <- Hlen.
  rewrite scanUint_digits; try assumption; try (rewrite Hval; assumption).
  rewrite Hval.
  destruct (Fmt.doScanf items a _) as [vs e]. reflexivity.
Qed.

Lemma doScanf_lit :
  forall c items a r cnt,
    plainChar c = true ->
    (cnt + 1 <=? Fmt.hugeWid) = true ->
    Fmt.doScanf (Fmt.SLit c :: items) a (Fmt.mkss (String c r) cnt)
    = Fmt.doScanf items a (Fmt.mkss r (cnt + 1)).
Proof.
  intros c items a r cnt Hc Hlim. apply N.leb_le in Hlim.
  cbn [Fmt.doScanf]. rewrite getRune_plain by (auto; lia).
  now rewrite Ascii.eqb_refl.
Qed.

Lemma doScanf_blank :
  forall items a w u tail cnt,
    (cnt + 1 <=? Fmt.hugeWid) = true ->
    Fmt.doScanf (Fmt.SBlank :: items) a
      (Fmt.mkss (String " " (fixedDigits (S w) u tail)) cnt)
    = Fmt.doScanf items a (Fmt.mkss (fixedDigits (S w) u tail) (cnt + 1)).
Proof.
  intros items a w u tail cnt Hlim. apply N.leb_le in Hlim.
  cbn [Fmt.doScanf].
  assert (E : Fmt.getRune Fmt.hugeWid
                (Fmt.mkss (String " " (fixedDigits (S w) u tail)) cnt)
              = Fmt.Space (Fmt.mkss (fixedDigits (S w) u tail) (cnt + 1))).
  { unfold Fmt.getRune. cbn [Fmt.count Fmt.rest].
    replace (Fmt.hugeWid <=? cnt) with false
      by (symmetry; apply N.leb_gt; lia).
    reflexivity. }
  rewrite E. cbn [Fmt.rest].
  rewrite (fixedDigits_app (S w) u tail).
  pose proof (fixedDigits_length (S w) u "") as Hlen.
  pose proof (fixedDigits_digits (S w) u "" eq_refl) as Hds.
  destruct (fixedDigits (S w) u "") as [|c ds']; [simpl in Hlen; lia|].
  cbn [all_chars] in Hds. apply andb_true_iff in Hds.
  cbn [append]. rewrite skipBlanks_plain; [reflexivity|].
  apply plainChar_digit. tauto.
Qed.

Lemma doScanf_verb_then :
  forall w u bits items a cnt tail vs e,
    (1 <= w)%nat ->
    u < 10 ^ N.of_nat w -> u < 2 ^ bits -> u < 2 ^ 64 ->
    (cnt + N.of_nat w <=? Fmt.hugeWid) = true ->
    Fmt.doScanf items a (Fmt.mkss tail (cnt + N.of_nat w)) = (vs, e) ->
    Fmt.doScanf (Fmt.SVerb (Some (N.of_nat w)) "d" :: items) (KUint bits :: a)
      (Fmt.mkss (fixedDigits w u tail) cnt)
    = (VUint bits u :: vs, e).
Proof.
  intros w u bits items a cnt tail vs e Hw Hu Hbits H64 Hlim Hrest.
  rewrite doScanf_verb by assumption. now rewrite Hrest.
Qed.

(** ** The numeric line: round trip *)

Lemma MEFormat_printItems :
  Fmt.printItems (String.length MEFormat) MEFormat
  = [Fmt.Lit "M"; Fmt.Lit "E"; Fmt.Lit " ";
     Fmt.Verb true (Some 3%nat) "d"; Fmt.Lit ",";
     Fmt.Verb true (Some 10%nat) "d"; Fmt.Lit ",";
     Fmt.Verb false (Some 1%nat) "d"; Fmt.Lit ",";
     Fmt.Verb false (Some 1%nat) "d"; Fmt.Lit ",";
     Fmt.Verb false (Some 1%nat) "d"; Fmt.Lit ",";
     Fmt.Verb false (Some 1%nat) "d"; Fmt.Lit ",";
     Fmt.Verb false (Some 1%nat) "d"; Fmt.Lit ",";
     Fmt.Verb false (Some 1%nat) "d"; Fmt.Lit ",";
     Fmt.Verb true (Some 2%nat) "d"; Fmt.Lit ",";
     Fmt.Verb true (Some 2%nat) "d"; Fmt.Lit ",";
     Fmt.Verb true (Some 3%nat) "d"; Fmt.Lit ",";
     Fmt.Verb true (Some 8%nat) "d"; Fmt.Lit ",";
     Fmt.Verb false (Some 1%nat) "d"; Fmt.Lit ",";
     Fmt.Verb true (Some 10%nat) "d"; Fmt.Lit ",";
     Fmt.Verb false (Some 1%nat) "d"; Fmt.Lit ",";
     Fmt.Verb false (Some 1%nat) "d"].
Proof. vm_compute. reflexivity. Qed.

Lemma MEFormat_scanItems :
  Fmt.scanItems (String.length MEFormat) MEFormat
  = [Fmt.SLit "M"; Fmt.SLit "E"; Fmt.SBlank;
     Fmt.SVerb (Some 3) "d"; Fmt.SLit ",";
     Fmt.SVerb (Some 10) "d"; Fmt.SLit ",";
     Fmt.SVerb (Some 1) "d"; Fmt.SLit ",";
     Fmt.SVerb (Some 1) "d"; Fmt.SLit ",";
     Fmt.SVerb (Some 1) "d"; Fmt.SLit ",";
     Fmt.SVerb (Some 1) "d"; Fmt.SLit ",";
     Fmt.SVerb (Some 1) "d"; Fmt.SLit ",";
     Fmt.SVerb (Some 1) "d"; Fmt.SLit ",";
     Fmt.SVerb (Some 2) "d"; Fmt.SLit ",";
     Fmt.SVerb (Some 2) "d"; Fmt.SLit ",";
     Fmt.SVerb (Some 3) "d"; Fmt.SLit ",";
     Fmt.SVerb (Some 8) "d"; Fmt.SLit ",";
     Fmt.SVerb (Some 1) "d"; Fmt.SLit ",";
     Fmt.SVerb (Some 10) "d"; Fmt.SLit ",";
     Fmt.SVerb (Some 1) "d"; Fmt.SLit ",";
     Fmt.SVerb (Some 1) "d"].
Proof. vm_compute. reflexivity. Qed.

(** The numeric line of an entry in range: every field at its width. *)
Lemma WriteChannelLine_fixed :
  forall e,
    in_range e ->
    WriteChannelLine e
    = String "M" (String "E" (String " "
        (fixedDigits 3 (Number e) (String ","
        (fixedDigits 10 (RXFrequency e) (String ","
        (fixedDigits 1 (RXStepSize e) (String ","
        (fixedDigits 1 (ShiftDirection e) (String ","
        (fixedDigits 1 (ReverseEnabled e) (String ","
        (fixedDigits 1 (ToneEnabled e) (String ","
        (fixedDigits 1 (CTCSSEnabled e) (String ","
        (fixedDigits 1 (DCSEnabled e) (String ","
        (fixedDigits 2 (ToneFrequency e) (String ","
        (fixedDigits 2 (CTCSSFrequency e) (String ","
        (fixedDigits 3 (DCSFrequency e) (String ","
        (fixedDigits 8 (OffsetFrequency e) (String ","
        (fixedDigits 1 (Mode e) (String ","
        (fixedDigits 10 (TXFrequency e) (String ","
        (fixedDigits 1 (TXStepSize e) (String ","
        (fixedDigits 1 (LockOut e) ""))))))))))))))))))))))))))))))))).
Proof.
  intros e (H1 & H2 & H3 & H4 & H5 & H6 & H7 & H8 & H9 & H10 & H11 & H12
            & H13 & H14 & H15 & H16).
  unfold WriteChannelLine, Fmt.Sprintf. rewrite MEFormat_printItems.
  change (firstn 16 (StructFieldValues e))
    with [VUint 16 (Number e); VUint 32 (RXFrequency e);
          VUint 8 (RXStepSize e); VUint 8 (ShiftDirection e);
          VUint 8 (ReverseEnabled e); VUint 8 (ToneEnabled e);
          VUint 8 (CTCSSEnabled e); VUint 8 (DCSEnabled e);
          VUint 16 (ToneFrequency e); VUint 16 (CTCSSFrequency e);
          VUint 16 (DCSFrequency e); VUint 32 (OffsetFrequency e);
          VUint 8 (Mode e); VUint 32 (TXFrequency e);
          VUint 8 (TXStepSize e); VUint 8 (LockOut e)].
  cbn [Fmt.doPrintf Fmt.printArg Ascii.eqb Bool.eqb].
  rewrite !fmtInteger_one by assumption.
  rewrite (fmtInteger_fixed 3 (Number e)) by fits.
  rewrite (fmtInteger_fixed 10 (RXFrequency e)) by fits.
  rewrite (fmtInteger_fixed 2 (ToneFrequency e)) by fits.
  rewrite (fmtInteger_fixed 2 (CTCSSFrequency e)) by fits.
  rewrite (fmtInteger_fixed 3 (DCSFrequency e)) by fits.
  rewrite (fmtInteger_fixed 8 (OffsetFrequency e)) by fits.
  rewrite (fmtInteger_fixed 10 (TXFrequency e)) by fits.
  rewrite append_nil_r.
  rewrite <- !fixedDigits_app. reflexivity.
Qed.

Lemma Sscanf_WriteChannelLine :
  forall e,
    in_range e ->
    Fmt.Sscanf (WriteChannelLine e) MEFormat channelKinds
    = ([VUint 16 (Number e); VUint 32 (RXFrequency e);
        VUint 8 (RXStepSize e); VUint 8 (ShiftDirection e);
        VUint 8 (ReverseEnabled e); VUint 8 (ToneEnabled e);
        VUint 8 (CTCSSEnabled e); VUint 8 (DCSEnabled e);
        VUint 16 (ToneFrequency e); VUint 16 (CTCSSFrequency e);
        VUint 16 (DCSFrequency e); VUint 32 (OffsetFrequency e);
        VUint 8 (Mode e); VUint 32 (TXFrequency e);
        VUint 8 (TXStepSize e); VUint 8 (LockOut e)], None).
Proof.
  intros e Hin. rewrite (WriteChannelLine_fixed e Hin).
  destruct Hin as (H1 & H2 & H3 & H4 & H5 & H6 & H7 & H8 & H9 & H10 & H11
                   & H12 & H13 & H14 & H15 & H16).
  unfold Fmt.Sscanf, channelKinds. rewrite MEFormat_scanItems.
  rewrite !doScanf_lit by reflexivity.
  rewrite doScanf_blank by reflexivity.
  apply (doScanf_verb_then 3); [lia|fits|fits|fits|reflexivity|].
  rewrite doScanf_lit by reflexivity.
  apply (doScanf_verb_then 10); [lia|fits|fits|fits|reflexivity|].
  rewrite doScanf_lit by reflexivity.
  apply (doScanf_verb_then 1); [lia|fits|fits|fits|reflexivity|].
  rewrite doScanf_lit by reflexivity.
  apply (doScanf_verb_then 1); [lia|fits|fits|fits|reflexivity|].
  rewrite doScanf_lit by reflexivity.
  apply (doScanf_verb_then 1); [lia|fits|fits|fits|reflexivity|].
  rewrite doScanf_lit by reflexivity.
  apply (doScanf_verb_then 1); [lia|fits|fits|fits|reflexivity|].
  rewrite doScanf_lit by reflexivity.
  apply (doScanf_verb_then 1); [lia|fits|fits|fits|reflexivity|].
  rewrite doScanf_lit by reflexivity.
  apply (doScanf_verb_then 1); [lia|fits|fits|fits|reflexivity|].
  rewrite doScanf_lit by reflexivity.
  apply (doScanf_verb_then 2); [lia|fits|fits|fits|reflexivity|].
  rewrite doScanf_lit by reflexivity.
  apply (doScanf_verb_then 2); [lia|fits|fits|fits|reflexivity|].
  rewrite doScanf_lit by reflexivity.
  apply (doScanf_verb_then 3); [lia|fits|fits|fits|reflexivity|].
  rewrite doScanf_lit by reflexivity.
  apply (doScanf_verb_then 8); [lia|fits|fits|fits|reflexivity|].
  rewrite doScanf_lit by reflexivity.
  apply (doScanf_verb_then 1); [lia|fits|fits|fits|reflexivity|].
  rewrite doScanf_lit by reflexivity.
  apply (doScanf_verb_then 10); [lia|fits|fits|fits|reflexivity|].
  rewrite doScanf_lit by reflexivity.
  apply (doScanf_verb_then 1); [lia|fits|fits|fits|reflexivity|].
  rewrite doScanf_lit by reflexivity.
  apply (doScanf_verb_then 1); [lia|fits|fits|fits|reflexivity|].
  reflexivity.
Qed.

(** C1. For every entry in range whose [RXFrequency] is not zero,
    decoding the numeric line that encodes it succeeds and stores the
    sixteen numeric fields of the entry, each one exactly; the name of
    the receiver is left as it was. *)
Theorem channel_roundtrip :
  forall e m,
    in_range e ->
    RXFrequency e <> 0 ->
    ReadChannelLine m (WriteChannelLine e) = (set_Name e (Name m), None)
    /\ firstn 16 (StructFieldValues (fst (ReadChannelLine m (WriteChannelLine e))))
       = firstn 16 (StructFieldValues e).
Proof.
  intros e m Hin _.
  assert (E : ReadChannelLine m (WriteChannelLine e)
              = (set_Name e (Name m), None)).
  { rewrite ReadChannelLine_unfold.
    rewrite (Sscanf_WriteChannelLine e Hin).
    rewrite (WriteChannelLine_fixed e Hin).
    reflexivity. }
  split; [exact E|]. rewrite E. reflexivity.
Qed.

Lemma channel_roundtrip_witness :
  ReadChannelLine MemoryEntry_zero
    (WriteChannelLine (entry_146520000 1 "CALL"))
  = (set_Name (entry_146520000 1 "CALL") "", None)
  /\ firstn 16
       (StructFieldValues
          (fst (ReadChannelLine MemoryEntry_zero
                  (WriteChannelLine (entry_146520000 1 "CALL")))))
     = firstn 16 (StructFieldValues (entry_146520000 1 "CALL")).
Proof.
  apply (channel_roundtrip (entry_146520000 1 "CALL") MemoryEntry_zero).
  - unfold in_range. cbn. repeat split.
  - discriminate.
Defined.

(** * Further properties *)

(** ** What a decoded numeric line can hold *)

Lemma getRune_Other :
  forall lim s c s',
    Fmt.getRune lim s = Fmt.Other c s' ->
    Fmt.count s < lim /\ Fmt.count s' = Fmt.count s + 1.
Proof.
  intros lim s c s'. unfold Fmt.getRune.
  destruct (lim <=? Fmt.count s) eqn:E; [discriminate|].
  apply N.leb_gt in E.
  destruct (Fmt.rest s) as [|c0 after]; [discriminate|].
  destruct (Ascii.eqb c0 LF); [discriminate|].
  destruct (Fmt.isSpaceByte c0); [discriminate|].
  destruct (Fmt.wideSpace (String c0 after)); [discriminate|].
  intros H. inversion H; subst. cbn [Fmt.count]. auto.
Qed.

Lemma getRune_Space :
  forall lim s s',
    Fmt.getRune lim s = Fmt.Space s' -> Fmt.count s' = Fmt.count s + 1.
Proof.
  intros lim s s'. unfold Fmt.getRune.
  destruct (lim <=? Fmt.count s); [discriminate|].
  destruct (Fmt.rest s) as [|c0 after]; [discriminate|].
  destruct (Ascii.eqb c0 LF); [discriminate|].
  destruct (Fmt.isSpaceByte c0).
  - intros H. inversion H; subst. reflexivity.
  - destruct (Fmt.wideSpace (String c0 after)); [|discriminate].
    intros H. inversion H; subst. reflexivity.
Qed.

Lemma skipSpace_count :
  forall fuel lim s s',
    Fmt.skipSpace fuel lim s = inr s' -> Fmt.count s <= Fmt.count s'.
Proof.
  induction fuel as [|fuel IH]; intros lim s s'; cbn [Fmt.skipSpace].
  - intros H. inversion H. lia.
  - destruct (Fmt.getRune lim s) as [|?|s1|? ?] eqn:E;
      try (intros H; inversion H; lia).
    intros H. apply IH in H. apply getRune_Space in E. lia.
Qed.

Lemma scanDigits_count :
  forall fuel lim s tok s',
    Fmt.scanDigits fuel lim s = (tok, s') ->
    all_chars isDigit tok = true
    /\ (tok = "" \/ Fmt.count s + N.of_nat (String.length tok) <= lim).
Proof.
  induction fuel as [|fuel IH]; intros lim s tok s'; cbn [Fmt.scanDigits].
  - intros H. inversion H. auto.
  - destruct (Fmt.getRune lim s) as [|?|?|c s1] eqn:E;
      try (intros H; inversion H; auto).
    destruct (isDigit c) eqn:Ec; [|inversion H; auto].
    destruct (Fmt.scanDigits fuel lim s1) as [tok1 s2] eqn:E1.
    inversion H; subst. apply IH in E1. destruct E1 as [Hd Hc].
    apply getRune_Other in E. destruct E as [Hlt Hs1].
    split; [cbn; now rewrite Ec, Hd|]. right. cbn [String.length].
    destruct Hc as [->|Hc]; [cbn; lia|lia].
Qed.

Lemma parseDigits_lt :
  forall tok acc,
    all_chars isDigit tok = true ->
    Fmt.parseDigits tok acc < (acc + 1) * 10 ^ N.of_nat (String.length tok).
Proof.
  induction tok as [|c tok IH]; intros acc Hd.
  - cbn. lia.
  - cbn [all_chars] in Hd. apply andb_true_iff in Hd. destruct Hd as [Hc Hd].
    unfold isDigit in Hc. apply andb_true_iff in Hc.
    destruct Hc as [H1 H2]. apply N.leb_le in H1, H2.
    cbn [Fmt.parseDigits String.length].
    rewrite Nat2N.inj_succ, N.pow_succ_r'.
    specialize (IH (10 * acc + (N_of_ascii c - 48)) Hd).
    eapply N.lt_le_trans; [exact IH|].
    rewrite N.mul_assoc. apply N.mul_le_mono_r. lia.
Qed.

Lemma scanUint_bound :
  forall bits lim s i s',
    Fmt.scanUint bits lim s = inr (i, s') ->
    i < 2 ^ bits /\ forall w, lim <= Fmt.count s + w -> i < 10 ^ w.
Proof.
  intros bits lim s i s'. unfold Fmt.scanUint, Fmt.SkipSpace.
  destruct (Fmt.skipSpace _ lim s) as [e|s1] eqn:E1; [discriminate|].
  apply skipSpace_count in E1.
  assert (Hgo :
    (let '(tok, s2) := Fmt.scanDigits (String.length (Fmt.rest s1)) lim s1 in
     match tok with
     | "" => inl Fmt.ErrExpectedInteger
     | String _ _ =>
         if 2 ^ 64 <=? Fmt.parseDigits tok 0 then inl Fmt.ErrRange
         else if 2 ^ bits <=? Fmt.parseDigits tok 0
              then inl (Fmt.ErrOverflow tok)
              else inr (Fmt.parseDigits tok 0, s2)
     end) = inr (i, s') ->
    i < 2 ^ bits /\ forall w, lim <= Fmt.count s + w -> i < 10 ^ w).
  { destruct (Fmt.scanDigits _ lim s1) as [tok s2] eqn:E2.
    apply scanDigits_count in E2. destruct E2 as [Hd Hc].
    destruct tok as [|c tok]; [discriminate|].
    destruct Hc as [Hc|Hc]; [discriminate|].
    destruct (2 ^ 64 <=? _); [discriminate|].
    destruct (2 ^ bits <=? _) eqn:Eb; [discriminate|].
    apply N.leb_gt in Eb. intros H. inversion H; subst. split; [exact Eb|].
    intros w Hw. pose proof (parseDigits_lt _ 0 Hd) as Hp.
    rewrite N.add_0_l, N.mul_1_l in Hp.
    eapply N.lt_le_trans; [exact Hp|]. apply N.pow_le_mono_r; lia. }
  destruct (Fmt.getRune lim s1); [discriminate|exact Hgo..].
Qed.

Lemma doScanf_stored :
  forall items a s vals e,
    Fmt.doScanf items a s = (vals, e) -> storedBy (verbWidths items) a vals.
Proof.
  induction items as [|it items IH]; intros a s vals e; cbn [Fmt.doScanf].
  - destruct a; intros H; inversion H; subst; exact I.
  - destruct it as [c| | |wid verb|]; cbn [verbWidths].
    + destruct (Fmt.getRune Fmt.hugeWid s) as [|?|?|c' s'];
        try (intros H; inversion H; subst; exact I).
      destruct (Ascii.eqb c c'); [apply IH|intros H; inversion H; subst; exact I].
    + destruct (Fmt.getRune Fmt.hugeWid s) as [|?|s'|? ?];
        try (intros H; inversion H; subst; exact I); apply IH.
    + intros H; inversion H; subst; exact I.
    + destruct (Fmt.SkipSpace Fmt.hugeWid s) as [e1|s1];
        [intros H; inversion H; subst; exact I|].
      destruct a as [|arg a]; [intros H; inversion H; subst; exact I|].
      destruct (Fmt.scanOne verb arg _ s1) as [e1|[v s2]] eqn:E1;
        [intros H; inversion H; subst; exact I|].
      destruct (Fmt.doScanf items a s2) as [vs e2] eqn:E2.
      intros H. inversion H; subst. apply IH in E2.
      unfold Fmt.scanOne in E1.
      destruct arg as [|bits|]; try discriminate;
        [|destruct (Ascii.eqb verb "d"); discriminate].
      destruct (Ascii.eqb verb "d"); [|discriminate].
      destruct (Fmt.scanUint bits _ s1) as [e1|[i s3]] eqn:E3; [discriminate|].
      inversion E1; subst. apply scanUint_bound in E3.
      destruct E3 as [Hb Hw]. cbn [storedBy]. split; [|exact E2].
      exists i. split; [reflexivity|]. split; [exact Hb|].
      destruct wid as [w|]; [|exact I]. apply Hw. apply N.le_min_r.
    + intros H; inversion H; subst; exact I.
Qed.

Lemma Sscanf_stored :
  forall str format a vals e,
    Fmt.Sscanf str format a = (vals, e) ->
    storedBy (verbWidths (Fmt.scanItems (String.length format) format)) a vals.
Proof. intros str format a vals e. unfold Fmt.Sscanf. apply doScanf_stored. Qed.

Lemma decoded_in_range :
  forall m line m',
    ReadChannelLine m line = (m', None) -> line <> emptyLine ->
    in_range m' /\ Name m' = Name m.
Proof.
  intros m line m' H Hne.
  destruct (ReadChannelLine_success m line m' H)
    as [[-> _]|(vals & E & Hlen & ->)]; [now elim Hne|].
  apply Sscanf_stored in E. rewrite MEFormat_scanItems in E.
  do 16 (destruct vals as [|? vals]; [discriminate Hlen|]).
  destruct vals; [|discriminate Hlen].
  cbn [verbWidths storedBy channelKinds] in E.
  repeat match goal with
         | H : _ /\ _ |- _ => destruct H
         | H : exists _, _ |- _ => destruct H
         end.
  subst. split; [|reflexivity].
  unfold in_range. cbn.
  repeat split; first [assumption | bounded].
Qed.

(** X1. A numeric line other than the empty marker that decodes without
    error leaves an entry in range: the number below 1000, the one-digit
    codes below 10, the tone and CTCSS codes below 100, the DCS code below
    1000, the offset below 10^8 and both frequencies below 2^32; the
    name of the receiver is kept. *)
Theorem ReadChannelLine_in_range :
  forall m line m',
    ReadChannelLine m line = (m', None) ->
    line <> emptyLine ->
    in_range m' /\ Name m' = Name m.
Proof. exact decoded_in_range. Qed.

Lemma ReadChannelLine_in_range_witness :
  in_range (entry_146520000 1 "") /\ Name (entry_146520000 1 "") = "".
Proof.
  apply (ReadChannelLine_in_range MemoryEntry_zero line_146520000).
  - vm_compute. reflexivity.
  - discriminate.
Defined.

(** ** The numeric line of any entry *)

Lemma in_range_roundtrip :
  forall e m,
    in_range e ->
    ReadChannelLine m (WriteChannelLine e) = (set_Name e (Name m), None).
Proof.
  intros e m Hin. rewrite ReadChannelLine_unfold.
  rewrite (Sscanf_WriteChannelLine e Hin), (WriteChannelLine_fixed e Hin).
  reflexivity.
Qed.

(** X2. The entry decoded from a numeric line other than the empty
    marker is encoded to a line that decodes, into any receiver, to the
    same sixteen numeric fields: what the decoder accepts, the encoder
    writes back without loss. *)
Theorem decode_encode_decode :
  forall m line m' m2,
    ReadChannelLine m line = (m', None) ->
    line <> emptyLine ->
    ReadChannelLine m2 (WriteChannelLine m') = (set_Name m' (Name m2), None).
Proof.
  intros m line m' m2 H Hne. apply in_range_roundtrip.
  now apply (decoded_in_range m line m').
Qed.

Lemma decode_encode_decode_witness :
  ReadChannelLine (entry_146520000 7 "CALL")
    (WriteChannelLine (entry_146520000 1 ""))
  = (set_Name (entry_146520000 1 "") "CALL", None).
Proof.
  apply (decode_encode_decode MemoryEntry_zero line_146520000).
  - vm_compute. reflexivity.
  - discriminate.
Defined.

Lemma replicate_length_ge :
  forall w c s, (w <= String.length (Fmt.padLeft c w s))%nat.
Proof.
  intros w c s. unfold Fmt.padLeft. rewrite length_replicate. lia.
Qed.

Lemma decimal_nonempty : forall u, (1 <= String.length (Fmt.decimal u))%nat.
Proof.
  intros u. destruct (decimal_fixed u) as (k & Hk & -> & _).
  rewrite fixedDigits_length. lia.
Qed.

(** A field is never printed with fewer digits than its width. *)
Lemma fmtInteger_length :
  forall zero w u,
    (1 <= w)%nat ->
    (w <= String.length (Fmt.fmtInteger zero (Some w) false u))%nat.
Proof.
  intros zero w u Hw. unfold Fmt.fmtInteger. apply replicate_length_ge.
Qed.

Lemma append_length :
  forall s1 s2, String.length (s1 ++ s2) = (String.length s1 + String.length s2)%nat.
Proof. induction s1 as [|c s1 IH]; intros s2; simpl; [reflexivity|now rewrite IH]. Qed.

(** The numeric line of any entry, field by field. *)
Lemma WriteChannelLine_shape :
  forall e,
    WriteChannelLine e
    = "ME " ++ Fmt.fmtInteger true (Some 3%nat) false (Number e)
      ++ String "," (Fmt.fmtInteger true (Some 10%nat) false (RXFrequency e)
      ++ String "," (Fmt.fmtInteger false (Some 1%nat) false (RXStepSize e)
      ++ String "," (Fmt.fmtInteger false (Some 1%nat) false (ShiftDirection e)
      ++ String "," (Fmt.fmtInteger false (Some 1%nat) false (ReverseEnabled e)
      ++ String "," (Fmt.fmtInteger false (Some 1%nat) false (ToneEnabled e)
      ++ String "," (Fmt.fmtInteger false (Some 1%nat) false (CTCSSEnabled e)
      ++ String "," (Fmt.fmtInteger false (Some 1%nat) false (DCSEnabled e)
      ++ String "," (Fmt.fmtInteger true (Some 2%nat) false (ToneFrequency e)
      ++ String "," (Fmt.fmtInteger true (Some 2%nat) false (CTCSSFrequency e)
      ++ String "," (Fmt.fmtInteger true (Some 3%nat) false (DCSFrequency e)
      ++ String "," (Fmt.fmtInteger true (Some 8%nat) false (OffsetFrequency e)
      ++ String "," (Fmt.fmtInteger false (Some 1%nat) false (Mode e)
      ++ String "," (Fmt.fmtInteger true (Some 10%nat) false (TXFrequency e)
      ++ String "," (Fmt.fmtInteger false (Some 1%nat) false (TXStepSize e)
      ++ String "," (Fmt.fmtInteger false (Some 1%nat) false (LockOut e)
      ))))))))))))))).
Proof.
  intros e. unfold WriteChannelLine, Fmt.Sprintf. rewrite MEFormat_printItems.
  change (firstn 16 (StructFieldValues e))
    with [VUint 16 (Number e); VUint 32 (RXFrequency e);
          VUint 8 (RXStepSize e); VUint 8 (ShiftDirection e);
          VUint 8 (ReverseEnabled e); VUint 8 (ToneEnabled e);
          VUint 8 (CTCSSEnabled e); VUint 8 (DCSEnabled e);
          VUint 16 (ToneFrequency e); VUint 16 (CTCSSFrequency e);
          VUint 16 (DCSFrequency e); VUint 32 (OffsetFrequency e);
          VUint 8 (Mode e); VUint 32 (TXFrequency e);
          VUint 8 (TXStepSize e); VUint 8 (LockOut e)].
  cbn [Fmt.doPrintf Fmt.printArg Ascii.eqb Bool.eqb].
  rewrite append_nil_r. reflexivity.
Qed.

(** X3. The numeric line is never shorter than its 65 bytes (the prefix,
    sixteen fields at their widths and fifteen commas), and it has
    exactly 65 bytes for an entry in range. *)
Theorem WriteChannelLine_length :
  forall e,
    (65 <= String.length (WriteChannelLine e))%nat
    /\ (in_range e -> String.length (WriteChannelLine e) = 65%nat).
Proof.
  intros e. split.
  - rewrite WriteChannelLine_shape.
    cbn [append String.length].
    repeat (rewrite append_length; cbn [String.length]).
    pose proof (fmtInteger_length true 3 (Number e)).
    pose proof (fmtInteger_length true 10 (RXFrequency e)).
    pose proof (fmtInteger_length false 1 (RXStepSize e)).
    pose proof (fmtInteger_length false 1 (ShiftDirection e)).
    pose proof (fmtInteger_length false 1 (ReverseEnabled e)).
    pose proof (fmtInteger_length false 1 (ToneEnabled e)).
    pose proof (fmtInteger_length false 1 (CTCSSEnabled e)).
    pose proof (fmtInteger_length false 1 (DCSEnabled e)).
    pose proof (fmtInteger_length true 2 (ToneFrequency e)).
    pose proof (fmtInteger_length true 2 (CTCSSFrequency e)).
    pose proof (fmtInteger_length true 3 (DCSFrequency e)).
    pose proof (fmtInteger_length true 8 (OffsetFrequency e)).
    pose proof (fmtInteger_length false 1 (Mode e)).
    pose proof (fmtInteger_length true 10 (TXFrequency e)).
    pose proof (fmtInteger_length false 1 (TXStepSize e)).
    pose proof (fmtInteger_length false 1 (LockOut e)).
    lia.
  - intros Hin. rewrite (WriteChannelLine_fixed e Hin).
    cbn [String.length]. repeat (rewrite fixedDigits_length; cbn [String.length]).
    reflexivity.
Qed.

Lemma WriteChannelLine_length_witness :
  String.length (WriteChannelLine (entry_146520000 1 "CALL")) = 65%nat.
Proof.
  apply (proj2 (WriteChannelLine_length (entry_146520000 1 "CALL"))).
  unfold in_range. cbn. repeat split.
Defined.

(** ** The transaction, case by case *)

(** X4. What a transaction returns.  One buffered write is used up in
    every case.  When the write or the flush fails, the error wraps the
    write error and nothing is read from the port.  When the write
    succeeds and the port delivers a line, the line is returned as it was
    read, carriage return included, unless it starts with [?]; when the
    read fails the error wraps the read error.  An error never comes with
    a line, and the bank is not touched. *)
Theorem WriteReadString_outcomes :
  forall command r,
    let res := WriteReadString command r in
    writes (PortRW (snd res)) = tl (writes (PortRW r))
    /\ Memory (snd res) = Memory r
    /\ (snd (fst res) <> None -> fst (fst res) = "")
    /\ (hd WriteOk (writes (PortRW r)) <> WriteOk ->
        (exists err, snd (fst res) = Some (ErrWriting err))
        /\ reads (PortRW (snd res)) = reads (PortRW r))
    /\ (hd WriteOk (writes (PortRW r)) = WriteOk ->
        forall line,
          hd_error (reads (PortRW r)) = Some (ReadLine line) ->
          res = (if Strings.HasPrefix line "?"
                 then ("", Some (ErrRejected command))
                 else (line, None),
                 exchanged r command line))
    /\ (hd WriteOk (writes (PortRW r)) = WriteOk ->
        (forall line, hd_error (reads (PortRW r)) <> Some (ReadLine line)) ->
        exists err, fst res = ("", Some (ErrReading err))).
Proof.
  intros command [[ws rs] pp br md mem lg]. cbv zeta.
  rewrite WriteReadString_unfold.
  unfold WriteString, ReadString, logEvent, set_PortRW, exchanged; simpl.
  destruct ws as [|[|c|c] ws]; simpl;
    try (destruct rs as [|[l|c'] rs]; simpl;
         try destruct (Strings.HasPrefix l "?") eqn:Hq; simpl);
    repeat split; intros; try congruence; eauto;
    try match goal with
        | H : Some _ = Some _ |- _ => inversion H; subst
        | H : None = Some _ |- _ => discriminate H
        | H : forall line, Some (ReadLine ?l) <> Some (ReadLine line) |- _ =>
            now elim (H l)
        end;
    try (rewrite Hq); rewrite <- ?app_assoc; try reflexivity.
Qed.

(** ** Reading and writing one channel against a device that answers *)

Lemma ReadChannel_answers :
  forall channel r l1 l2,
    answers (writes (PortRW r)) (reads (PortRW r)) [l1; l2] ->
    ReadChannel channel r
    = (match ReadChannelLine MemoryEntry_zero l1 with
       | (_, Some err) => (MemoryEntry_zero, Some (ErrParseChannelLine err))
       | (m1, None) =>
           match ReadNameLine m1 l2 with
           | (_, Some err) => (MemoryEntry_zero, Some (ErrParseNameLine err))
           | (m2, None) => (m2, None)
           end
       end,
       exchanged
         (exchanged r (Fmt.Sprintf MECommandFormat [VInt channel]) l1)
         (Fmt.Sprintf MNCommandFormat [VInt channel]) l2).
Proof.
  intros channel r l1 l2 (Hw1 & Hr1 & Hq1 & Hw2 & Hr2 & Hq2 & _).
  rewrite ReadChannel_unfold.
  rewrite (WriteReadString_answered _ r l1 Hw1 Hr1 Hq1).
  rewrite (WriteReadString_answered _ (exchanged r _ l1) l2 Hw2 Hr2 Hq2).
  destruct (ReadChannelLine MemoryEntry_zero l1) as [m1 [e|]]; [reflexivity|].
  destruct (ReadNameLine m1 l2) as [m2 [e|]]; reflexivity.
Qed.

(** The read commands of the channels 0 to 999: the prefix, a blank, the
    number on three digits, a carriage return. *)
Lemma read_commands :
  forall channel,
    (0 <= channel < 1000)%Z ->
    Fmt.Sprintf MECommandFormat [VInt channel]
    = "ME " ++ fixedDigits 3 (Z.to_N channel) (String CR "")
    /\ Fmt.Sprintf MNCommandFormat [VInt channel]
       = "MN " ++ fixedDigits 3 (Z.to_N channel) (String CR "").
Proof.
  intros channel Hc.
  assert (Hneg : (channel <? 0)%Z = false) by (apply Z.ltb_ge; lia).
  assert (Habs : Z.abs_N channel = Z.to_N channel)
    by (destruct channel; try reflexivity; lia).
  assert (Hfix : Fmt.fmtInteger true (Some 3%nat) false (Z.to_N channel)
                 = fixedDigits 3 (Z.to_N channel) "").
  { apply fmtInteger_fixed; [lia|]. change (10 ^ N.of_nat 3) with 1000. lia. }
  split.
  - change (Fmt.Sprintf MECommandFormat [VInt channel])
      with ("ME " ++ Fmt.fmtInteger true (Some 3%nat) (channel <? 0)%Z
                       (Z.abs_N channel) ++ String CR "").
    rewrite Hneg, Habs, Hfix, <- fixedDigits_app. reflexivity.
  - change (Fmt.Sprintf MNCommandFormat [VInt channel])
      with ("MN " ++ Fmt.fmtInteger true (Some 3%nat) (channel <? 0)%Z
                       (Z.abs_N channel) ++ String CR "").
    rewrite Hneg, Habs, Hfix, <- fixedDigits_app. reflexivity.
Qed.

(** X5. [ReadChannel] against a device that answers both reads: it sends
    the numeric-read command and then the name-read command of the
    channel, each followed by its answer, before it decodes anything, so
    the name read is made even when the numeric line is malformed; the
    result is the record decoded from the two lines, or the zero entry
    with the decoding error; a channel reported empty by both lines gives
    the zero entry without error; the bank is not touched.  For the
    channels 0 to 999 the commands are [ME ddd] and [MN ddd] followed by a
    carriage return, with [ddd] the number on three digits. *)
Theorem ReadChannel_answered :
  forall channel r l1 l2,
    answers (writes (PortRW r)) (reads (PortRW r)) [l1; l2] ->
    let MEcmd := Fmt.Sprintf MECommandFormat [VInt channel] in
    let MNcmd := Fmt.Sprintf MNCommandFormat [VInt channel] in
    let res := ReadChannel channel r in
    Log (snd res) = (Log r ++ [Send MEcmd; Recv l1; Send MNcmd; Recv l2])%list
    /\ Memory (snd res) = Memory r
    /\ reads (PortRW (snd res)) = tl (tl (reads (PortRW r)))
    /\ fst res
       = match ReadChannelLine MemoryEntry_zero l1 with
         | (_, Some err) => (MemoryEntry_zero, Some (ErrParseChannelLine err))
         | (m1, None) =>
             match ReadNameLine m1 l2 with
             | (_, Some err) => (MemoryEntry_zero, Some (ErrParseNameLine err))
             | (m2, None) => (m2, None)
             end
         end
    /\ (l1 = emptyLine -> l2 = emptyLine -> fst res = (MemoryEntry_zero, None))
    /\ ((0 <= channel < 1000)%Z ->
        MEcmd = "ME " ++ fixedDigits 3 (Z.to_N channel) (String CR "")
        /\ MNcmd = "MN " ++ fixedDigits 3 (Z.to_N channel) (String CR "")).
Proof.
  intros channel r l1 l2 Hans MEcmd MNcmd res. subst res MEcmd MNcmd.
  rewrite (ReadChannel_answers channel r l1 l2 Hans). cbn [fst snd].
  split; [|split; [|split; [|split; [|split]]]].
  - unfold exchanged. cbn [Log]. now rewrite <- app_assoc.
  - reflexivity.
  - reflexivity.
  - reflexivity.
  - intros -> ->. reflexivity.
  - apply read_commands.
Qed.

Lemma ReadChannel_answered_witness :
  let r := radio_one_channel in
  let res := ReadChannel 0 r in
  Log (snd res)
  = (Log r ++ [Send (Fmt.Sprintf MECommandFormat [VInt 0]); Recv emptyLine;
               Send (Fmt.Sprintf MNCommandFormat [VInt 0]); Recv emptyLine])%list
  /\ Memory (snd res) = Memory r
  /\ reads (PortRW (snd res)) = tl (tl (reads (PortRW r)))
  /\ fst res
     = match ReadChannelLine MemoryEntry_zero emptyLine with
       | (_, Some err) => (MemoryEntry_zero, Some (ErrParseChannelLine err))
       | (m1, None) =>
           match ReadNameLine m1 emptyLine with
           | (_, Some err) => (MemoryEntry_zero, Some (ErrParseNameLine err))
           | (m2, None) => (m2, None)
           end
       end
  /\ (emptyLine = emptyLine -> emptyLine = emptyLine ->
      fst res = (MemoryEntry_zero, None))
  /\ ((0 <= 0 < 1000)%Z ->
      Fmt.Sprintf MECommandFormat [VInt 0]
      = "ME " ++ fixedDigits 3 (Z.to_N 0) (String CR "")
      /\ Fmt.Sprintf MNCommandFormat [VInt 0]
         = "MN " ++ fixedDigits 3 (Z.to_N 0) (String CR "")).
Proof.
  apply (ReadChannel_answered 0 radio_one_channel emptyLine emptyLine).
  repeat split; reflexivity.
Defined.

Lemma WriteReadString_refused :
  forall command r line,
    hd WriteOk (writes (PortRW r)) = WriteOk ->
    hd_error (reads (PortRW r)) = Some (ReadLine line) ->
    Strings.HasPrefix line "?" = true ->
    WriteReadString command r
    = (("", Some (ErrRejected command)), exchanged r command line).
Proof.
  intros command [[ws rs] pp br md mem lg] line Hw Hr Hq.
  simpl in Hw, Hr. rewrite WriteReadString_unfold.
  destruct rs as [|[l|c] rs]; try discriminate. inversion Hr; subst l.
  unfold exchanged.
  destruct ws as [|[| |] ws]; try discriminate;
    unfold WriteString, ReadString, logEvent, set_PortRW; simpl;
    rewrite Hq, <- app_assoc; reflexivity.
Qed.

Lemma WriteChannel_Memory :
  forall channel r, Memory (snd (WriteChannel channel r)) = Memory r.
Proof.
  intros channel r. rewrite WriteChannel_unfold. cbv zeta.
  destruct (RXFrequency _ =? 0); [reflexivity|].
  destruct (WriteReadString_log (clearCommand channel) r) as [M1 _].
  destruct (WriteReadString _ r) as [[l1 [e|]] r1]; [exact M1|].
  cbn [snd] in M1.
  match goal with
  | |- context [WriteReadString ?c r1] =>
      destruct (WriteReadString_log c r1) as [M2 _];
      destruct (WriteReadString c r1) as [[l2 [e|]] r2];
      cbn [snd] in M2; [cbn [snd]; congruence|]
  end.
  match goal with
  | |- context [WriteReadString ?c r2] =>
      destruct (WriteReadString_log c r2) as [M3 _];
      destruct (WriteReadString c r2) as [[l3 [e|]] r3];
      cbn [snd] in M3; cbn [snd]; congruence
  end.
Qed.

(** X6. How a write of one channel stops.  [WriteChannel] never changes
    the bank.  On an occupied record, when the device rejects the clear
    command nothing else is sent; when it acknowledges the clear and
    rejects the numeric line, the error wraps the rejection of that line
    and the name line is never sent, so the channel stays cleared on the
    device; when it rejects only the name line, the error wraps that
    rejection. *)
Theorem WriteChannel_rejections :
  forall channel r,
    let ch := lookupNumber (Memory r) (uint16 channel) in
    let c1 := clearCommand channel in
    let c2 := WriteChannelLine ch ++ String CR "" in
    let c3 := WriteNameLine ch ++ String CR "" in
    let ws := writes (PortRW r) in
    let rs := reads (PortRW r) in
    Memory (snd (WriteChannel channel r)) = Memory r
    /\ (RXFrequency ch <> 0 ->
        (forall q,
           hd WriteOk ws = WriteOk -> hd_error rs = Some (ReadLine q) ->
           Strings.HasPrefix q "?" = true ->
           WriteChannel channel r
           = (Some (ErrClearChannel channel (ErrRejected c1)),
              exchanged r c1 q))
        /\ (forall a1 q,
              answers ws rs [a1] ->
              hd WriteOk (tl ws) = WriteOk ->
              hd_error (tl rs) = Some (ReadLine q) ->
              Strings.HasPrefix q "?" = true ->
              WriteChannel channel r
              = (Some (ErrWriteChannelData channel (ErrRejected c2)),
                 exchanged (exchanged r c1 a1) c2 q))
        /\ (forall a1 a2 q,
              answers ws rs [a1; a2] ->
              hd WriteOk (tl (tl ws)) = WriteOk ->
              hd_error (tl (tl rs)) = Some (ReadLine q) ->
              Strings.HasPrefix q "?" = true ->
              WriteChannel channel r
              = (Some (ErrWriteChannelName channel (ErrRejected c3)),
                 exchanged (exchanged (exchanged r c1 a1) c2 a2) c3 q))).
Proof.
  intros channel r ch c1 c2 c3 ws rs. split; [apply WriteChannel_Memory|].
  intros Hocc. apply N.eqb_neq in Hocc.
  split; [|split].
  - intros q Hw Hr Hq. rewrite WriteChannel_unfold. cbv zeta.
    fold ch c1. rewrite Hocc.
    now rewrite (WriteReadString_refused c1 r q Hw Hr Hq).
  - intros a1 q (Hw1 & Hr1 & Hq1 & _) Hw Hr Hq.
    rewrite WriteChannel_unfold. cbv zeta. fold ch c1 c2. rewrite Hocc.
    rewrite (WriteReadString_answered c1 r a1 Hw1 Hr1 Hq1).
    now rewrite (WriteReadString_refused c2 (exchanged r c1 a1) q Hw Hr Hq).
  - intros a1 a2 q (Hw1 & Hr1 & Hq1 & Hw2 & Hr2 & Hq2 & _) Hw Hr Hq.
    rewrite WriteChannel_unfold. cbv zeta. fold ch c1 c2 c3. rewrite Hocc.
    rewrite (WriteReadString_answered c1 r a1 Hw1 Hr1 Hq1).
    rewrite (WriteReadString_answered c2 (exchanged r c1 a1) a2 Hw2 Hr2 Hq2).
    now rewrite (WriteReadString_refused c3
                   (exchanged (exchanged r c1 a1) c2 a2) q Hw Hr Hq).
Qed.

Lemma WriteChannel_rejections_witness :
  WriteChannel 5 radio_rejects_data
  = (Some (ErrWriteChannelData 5
             (ErrRejected (WriteChannelLine (entry_146520000 5 "FIVE")
                           ++ String CR ""))),
     exchanged
       (exchanged radio_rejects_data (clearCommand 5) ("ME" ++ String CR ""))
       (WriteChannelLine (entry_146520000 5 "FIVE") ++ String CR "")
       ("?" ++ String CR "")).
Proof.
  apply (proj1 (proj2 (proj2 (WriteChannel_rejections 5 radio_rejects_data)
                         ltac:(vm_compute; discriminate)))
           ("ME" ++ String CR "") ("?" ++ String CR ""));
    repeat split; reflexivity.
Defined.

(** ** Writing the bank *)

Lemma WriteChannel_answers :
  forall channel r a1 a2 a3,
    let ch := lookupNumber (Memory r) (uint16 channel) in
    let c1 := clearCommand channel in
    let c2 := WriteChannelLine ch ++ String CR "" in
    let c3 := WriteNameLine ch ++ String CR "" in
    RXFrequency ch <> 0 ->
    answers (writes (PortRW r)) (reads (PortRW r)) [a1; a2; a3] ->
    WriteChannel channel r
    = (None, exchanged (exchanged (exchanged r c1 a1) c2 a2) c3 a3).
Proof.
  intros channel r a1 a2 a3 ch c1 c2 c3 Hocc
         (Hw1 & Hr1 & Hq1 & Hw2 & Hr2 & Hq2 & Hw3 & Hr3 & Hq3 & _).
  apply N.eqb_neq in Hocc.
  rewrite WriteChannel_unfold. cbv zeta. fold ch c1 c2 c3. rewrite Hocc.
  rewrite (WriteReadString_answered c1 r a1 Hw1 Hr1 Hq1).
  rewrite (WriteReadString_answered c2 (exchanged r c1 a1) a2 Hw2 Hr2 Hq2).
  now rewrite (WriteReadString_answered c3
                 (exchanged (exchanged r c1 a1) c2 a2) a3 Hw3 Hr3 Hq3).
Qed.

Lemma WriteMemoryOver_unfold :
  forall m ms r,
    WriteMemoryOver (m :: ms) r
    = match WriteChannel (Z.of_N (Number m)) r with
      | (Some err, r1) => (Some (ErrWriteMemory (Number m) err), r1)
      | (None, r1) => WriteMemoryOver ms r1
      end.
Proof.
  intros m ms r. cbn [WriteMemoryOver]. unfold bind, ret.
  destruct (WriteChannel (Z.of_N (Number m)) r) as [[err|] r1]; reflexivity.
Qed.

(** The commands of one [WriteChannel]: some first ones of its three
    lines, and all three when it succeeds. *)
Lemma WriteChannel_sent :
  forall channel r,
    let ch := lookupNumber (Memory r) (uint16 channel) in
    let three := [clearCommand channel; WriteChannelLine ch ++ String CR "";
                  WriteNameLine ch ++ String CR ""] in
    exists evs k,
      Log (snd (WriteChannel channel r)) = (Log r ++ evs)%list
      /\ commands evs = firstn k three
      /\ (fst (WriteChannel channel r) = None -> commands evs = three).
Proof.
  intros channel r ch three. subst three.
  rewrite WriteChannel_unfold. cbv zeta. fold ch.
  set (c1 := clearCommand channel).
  set (c2 := WriteChannelLine ch ++ String CR "").
  set (c3 := WriteNameLine ch ++ String CR "").
  destruct (RXFrequency ch =? 0).
  { exists [], 0%nat. cbn. rewrite app_nil_r. repeat split. discriminate. }
  destruct (WriteReadString_log c1 r) as [_ [e1 [L1 C1]]].
  destruct (WriteReadString c1 r) as [[l1 err1] r1]. cbn [fst snd] in L1, C1.
  destruct err1 as [err1|].
  { exists e1. cbn [fst snd]. destruct C1 as [C1|[C1 _]].
    - exists 1%nat. repeat split; auto. discriminate.
    - exists 0%nat. repeat split; auto. discriminate. }
  destruct C1 as [C1|[_ C1]]; [|now elim C1].
  destruct (WriteReadString_log c2 r1) as [_ [e2 [L2 C2]]].
  destruct (WriteReadString c2 r1) as [[l2 err2] r2]. cbn [fst snd] in L2, C2.
  destruct err2 as [err2|].
  { exists (e1 ++ e2)%list. cbn [fst snd]. rewrite app_assoc, <- L1.
    unfold commands in *. rewrite flat_map_app, C1.
    destruct C2 as [C2|[C2 _]]; rewrite C2.
    - exists 2%nat. repeat split; auto. discriminate.
    - exists 1%nat. repeat split; auto. discriminate. }
  destruct C2 as [C2|[_ C2]]; [|now elim C2].
  destruct (WriteReadString_log c3 r2) as [_ [e3 [L3 C3]]].
  destruct (WriteReadString c3 r2) as [[l3 err3] r3]. cbn [fst snd] in L3, C3.
  assert (E : Log r3 = (Log r ++ (e1 ++ e2 ++ e3))%list).
  { rewrite L3, L2, L1, <- !app_assoc. reflexivity. }
  exists (e1 ++ e2 ++ e3)%list.
  unfold commands in *. rewrite !flat_map_app, C1, C2.
  destruct err3 as [err3|]; cbn [fst snd].
  - destruct C3 as [C3|[C3 _]]; rewrite C3.
    + exists 3%nat. repeat split; auto.
    + exists 2%nat. repeat split; auto. discriminate.
  - destruct C3 as [C3|[_ C3]]; [|now elim C3]. rewrite C3.
    exists 3%nat. repeat split; auto.
Qed.

Lemma WriteMemoryOver_sent :
  forall ms r,
    exists evs rest,
      Log (snd (WriteMemoryOver ms r)) = (Log r ++ evs)%list
      /\ Memory (snd (WriteMemoryOver ms r)) = Memory r
      /\ flat_map (channelLines (Memory r)) ms = (commands evs ++ rest)%list
      /\ (fst (WriteMemoryOver ms r) = None -> rest = []).
Proof.
  induction ms as [|m ms IH]; intros r.
  - exists [], []. cbn. rewrite app_nil_r. auto.
  - rewrite WriteMemoryOver_unfold.
    destruct (WriteChannel_sent (Z.of_N (Number m)) r) as (e1 & k & L1 & C1 & F1).
    pose proof (WriteChannel_Memory (Z.of_N (Number m)) r) as M1.
    cbv zeta in C1, F1.
    change [clearCommand (Z.of_N (Number m));
            WriteChannelLine
              (lookupNumber (Memory r) (uint16 (Z.of_N (Number m))))
            ++ String CR "";
            WriteNameLine
              (lookupNumber (Memory r) (uint16 (Z.of_N (Number m))))
            ++ String CR ""]
      with (channelLines (Memory r) m) in C1, F1.
    destruct (WriteChannel (Z.of_N (Number m)) r) as [[err|] r1];
      cbn [fst snd] in *.
    + exists e1, (skipn k (channelLines (Memory r) m)
                  ++ flat_map (channelLines (Memory r)) ms)%list.
      repeat split; auto; [|discriminate].
      rewrite C1, app_assoc, firstn_skipn. reflexivity.
    + specialize (F1 eq_refl).
      destruct (IH r1) as (e2 & rest & L2 & M2 & C2 & F2).
      exists (e1 ++ e2)%list, rest.
      rewrite L2, L1, M2, M1, <- app_assoc. repeat split; auto.
      unfold commands in *. rewrite flat_map_app, F1, <- app_assoc.
      rewrite M1 in C2. now rewrite <- C2.
Qed.


Lemma WriteMemoryOver_answers :
  forall ms r lines,
    (forall m, In m ms ->
               lookupNumber (Memory r) (uint16 (Z.of_N (Number m))) = m
               /\ RXFrequency m <> 0) ->
    length lines = (3 * length ms)%nat ->
    answers (writes (PortRW r)) (reads (PortRW r)) lines ->
    let cmds := flat_map entryLines ms in
    fst (WriteMemoryOver ms r) = None
    /\ Log (snd (WriteMemoryOver ms r)) = (Log r ++ transcript cmds lines)%list
    /\ reads (PortRW (snd (WriteMemoryOver ms r)))
       = skipn (length lines) (reads (PortRW r)).
Proof.
  induction ms as [|m ms IH]; intros r lines Hsel Hlen Hans; cbv zeta.
  - destruct lines; [|discriminate]. cbn. rewrite app_nil_r. auto.
  - destruct lines as [|a1 [|a2 [|a3 lines]]]; try (cbn in Hlen; lia).
    destruct (Hsel m (or_introl eq_refl)) as [Hm Hocc].
    rewrite WriteMemoryOver_unfold.
    assert (H3 : answers (writes (PortRW r)) (reads (PortRW r)) [a1; a2; a3]).
    { cbn [answers] in *. tauto. }
    rewrite (WriteChannel_answers (Z.of_N (Number m)) r a1 a2 a3);
      [|rewrite Hm; exact Hocc|exact H3].
    rewrite Hm.
    set (r3 := exchanged (exchanged (exchanged r _ a1) _ a2) _ a3).
    destruct (IH r3 lines) as (F & L & R).
    + intros m' Hin. apply Hsel. now right.
    + cbn in Hlen. lia.
    + cbn [answers] in Hans. subst r3. cbn [exchanged PortRW writes reads].
      tauto.
    + split; [exact F|]. split.
      * rewrite L. subst r3. cbn [exchanged Log flat_map transcript app entryLines].
        rewrite <- !app_assoc. reflexivity.
      * rewrite R. subst r3. cbn [exchanged PortRW reads length skipn].
        destruct (reads (PortRW r)) as [|x1 [|x2 [|x3 rs]]]; cbn;
          try reflexivity; now destruct (length lines).
Qed.

Lemma OccupedChannels_occupied :
  forall r m, In m (OccupedChannels r) -> RXFrequency m <> 0.
Proof.
  intros r m. unfold OccupedChannels. rewrite occupied_loop.
  cbn [app]. rewrite filter_In, negb_true_iff, N.eqb_neq. tauto.
Qed.

(** X8. [WriteMemory] against a device that answers every command, on a
    bank in which every occupied entry is the first one with its number:
    it returns no error after exactly three transactions for each
    occupied entry, in bank order -- the clear command with the entry's
    number, its numeric line and its name line -- and reads exactly the
    answers to these. *)
Theorem WriteMemory_answered :
  forall r lines,
    (forall m, In m (OccupedChannels r) ->
               lookupNumber (Memory r) (uint16 (Z.of_N (Number m))) = m) ->
    length lines = (3 * length (OccupedChannels r))%nat ->
    answers (writes (PortRW r)) (reads (PortRW r)) lines ->
    let cmds := flat_map entryLines (OccupedChannels r) in
    fst (WriteMemory r) = None
    /\ Log (snd (WriteMemory r)) = (Log r ++ transcript cmds lines)%list
    /\ length cmds = length lines
    /\ reads (PortRW (snd (WriteMemory r)))
       = skipn (length lines) (reads (PortRW r)).
Proof.
  intros r lines Hsel Hlen Hans cmds. unfold WriteMemory.
  destruct (WriteMemoryOver_answers (OccupedChannels r) r lines)
    as (F & L & R); auto.
  - intros m Hin. split; [now apply Hsel|].
    now apply (OccupedChannels_occupied r).
  - repeat split; auto. subst cmds. rewrite Hlen.
    clear. induction (OccupedChannels r) as [|m ms IH]; cbn; [reflexivity|].
    cbn in IH. lia.
Qed.

Lemma WriteMemory_answered_witness :
  fst (WriteMemory radio_three_acks) = None
  /\ Log (snd (WriteMemory radio_three_acks))
     = (Log radio_three_acks
        ++ transcript (flat_map entryLines (OccupedChannels radio_three_acks))
             (repeat (String "M" (String "E" (String CR ""))) 6))%list
  /\ length (flat_map entryLines (OccupedChannels radio_three_acks))
     = length (repeat (String "M" (String "E" (String CR ""))) 6)
  /\ reads (PortRW (snd (WriteMemory radio_three_acks)))
     = skipn (length (repeat (String "M" (String "E" (String CR ""))) 6))
         (reads (PortRW radio_three_acks)).
Proof.
  apply (WriteMemory_answered radio_three_acks
           (repeat (String "M" (String "E" (String CR ""))) 6)).
  - intros m [<-|[<-|[]]]; reflexivity.
  - reflexivity.
  - repeat split; reflexivity.
Defined.

(** ** Reading the bank: bounds, failure, commands *)

Lemma WriteReadString_exchanged :
  forall command r line r1,
    WriteReadString command r = ((line, None), r1) ->
    r1 = exchanged r command line.
Proof.
  intros command [[ws rs] pp br md mem lg] line r1.
  rewrite WriteReadString_unfold.
  unfold WriteString, ReadString, logEvent, set_PortRW, exchanged; simpl.
  destruct ws as [|[|c|c] ws]; simpl; try discriminate;
    (destruct rs as [|[l|c'] rs]; simpl; try discriminate;
     destruct (Strings.HasPrefix l "?"); try discriminate;
     intros H; inversion H; subst; rewrite <- app_assoc; reflexivity).
Qed.

Lemma ReadChannel_Memory :
  forall channel r, Memory (snd (ReadChannel channel r)) = Memory r.
Proof.
  intros channel r. rewrite ReadChannel_unfold.
  match goal with
  | |- context [WriteReadString ?c r] =>
      destruct (WriteReadString_log c r) as [M1 _];
      destruct (WriteReadString c r) as [[l1 [e|]] r1]; cbn [snd] in M1;
      [exact M1|]
  end.
  match goal with
  | |- context [WriteReadString ?c r1] =>
      destruct (WriteReadString_log c r1) as [M2 _];
      destruct (WriteReadString c r1) as [[l2 [e|]] r2]; cbn [snd] in M2;
      [cbn [snd]; congruence|]
  end.
  destruct (ReadChannelLine MemoryEntry_zero l1) as [m1 [e|]];
    [cbn [snd]; congruence|].
  destruct (ReadNameLine m1 l2) as [m2 [e|]]; cbn [snd]; congruence.
Qed.

Lemma ReadChannel_error_zero :
  forall channel r m err r1,
    ReadChannel channel r = ((m, Some err), r1) -> m = MemoryEntry_zero.
Proof.
  intros channel r m err r1. rewrite ReadChannel_unfold.
  destruct (WriteReadString _ r) as [[chline [e|]] r1'];
    [intros H; now inversion H|].
  destruct (WriteReadString _ r1') as [[nameline [e|]] r2];
    [intros H; now inversion H|].
  destruct (ReadChannelLine MemoryEntry_zero chline) as [m1 [e|]];
    [intros H; now inversion H|].
  destruct (ReadNameLine m1 nameline) as [m2 [e|]];
    intros H; now inversion H.
Qed.

Lemma setIndex_length :
  forall mem i m mem',
    setIndex mem i m = Some mem' -> length mem' = length mem.
Proof.
  induction mem as [|m0 mem IH]; intros i m mem'; simpl; [discriminate|].
  destruct i as [|i].
  - intros H. now inversion H.
  - destruct (setIndex mem i m) as [mem1|] eqn:E; [|discriminate].
    simpl. intros H. inversion H; subst. simpl. f_equal. now apply (IH i m).
Qed.

Lemma setIndex_some :
  forall mem i m,
    (i < length mem)%nat -> exists mem', setIndex mem i m = Some mem'.
Proof.
  induction mem as [|m0 mem IH]; intros i m Hi; simpl in *; [lia|].
  destruct i as [|i]; [eauto|].
  destruct (IH i m ltac:(lia)) as [mem' ->]. simpl. eauto.
Qed.

Lemma ReadMemoryFrom_returns :
  forall n i r,
    (i + n <= length (Memory r))%nat ->
    exists res r', ReadMemoryFrom n i r = Returns res r'.
Proof.
  induction n as [|n IH]; intros i r Hlen; cbn [ReadMemoryFrom].
  - eauto.
  - pose proof (ReadChannel_Memory (Z.of_nat i) r) as M1.
    destruct (ReadChannel (Z.of_nat i) r) as [[m err] r1]. cbn [snd] in M1.
    destruct (setIndex_some (Memory r1) i m ltac:(rewrite M1; lia))
      as [mem Es].
    rewrite Es. destruct err as [err|]; [eauto|].
    apply IH. cbn [set_Memory Memory].
    apply setIndex_length in Es. rewrite Es, M1. lia.
Qed.

Lemma ReadMemoryFrom_length :
  forall n i r res r',
    ReadMemoryFrom n i r = Returns res r' ->
    length (Memory r') = length (Memory r).
Proof.
  induction n as [|n IH]; intros i r res r'; cbn [ReadMemoryFrom].
  - intros H. now inversion H.
  - pose proof (ReadChannel_Memory (Z.of_nat i) r) as M1.
    destruct (ReadChannel (Z.of_nat i) r) as [[m err] r1]. cbn [snd] in M1.
    destruct (setIndex (Memory r1) i m) as [mem|] eqn:Es; [|discriminate].
    apply setIndex_length in Es.
    destruct err as [err|].
    + intros H. inversion H; subst. cbn [set_Memory Memory]. congruence.
    + intros H. apply IH in H. cbn [set_Memory Memory] in H. congruence.
Qed.

(** X9. [ReadMemory] and the size of the bank.  On a bank of at least
    1000 slots it returns (it does not panic) and leaves the bank at its
    size; on a shorter bank it never returns success: it stops with an
    error or panics on the first slot that is missing. *)
Theorem ReadMemory_bank_size :
  forall r,
    ((1000 <= length (Memory r))%nat ->
     exists res r',
       ReadMemory r = Returns res r'
       /\ length (Memory r') = length (Memory r))
    /\ ((length (Memory r) < 1000)%nat ->
        forall r', ReadMemory r <> Returns None r').
Proof.
  intros r. unfold ReadMemory. split.
  - intros Hlen.
    destruct (ReadMemoryFrom_returns 1000 0 r Hlen) as (res & r' & E).
    exists res, r'. split; [exact E|]. now apply ReadMemoryFrom_length in E.
  - intros Hlen r' E.
    pose proof (ReadMemoryFrom_length _ _ _ _ _ E) as L.
    apply ReadMemoryFrom_slots in E. destruct E as [_ E].
    destruct (E 999%nat ltac:(lia)) as (cl & nl & m1 & m2 & _ & _ & _ & _ & H).
    assert (nth_error (Memory r') (0 + 999) <> None) by congruence.
    apply nth_error_Some in H0. lia.
Qed.

Example ReadMemory_short_bank_panics :
  match ReadMemory radio_short_bank with
  | Panics r' => length (Log r') = 16%nat
  | Returns _ _ => False
  end.
Proof. vm_compute. reflexivity. Qed.

Lemma ReadMemoryFrom_failure :
  forall n i r err r',
    ReadMemoryFrom n i r = Returns (Some err) r' ->
    exists k err0,
      (k < n)%nat
      /\ err = ErrReadMemory err0
      /\ nth_error (Memory r') (i + k) = Some MemoryEntry_zero
      /\ (forall j, (j < i)%nat \/ (i + k < j)%nat ->
                    nth_error (Memory r') j = nth_error (Memory r) j)
      /\ forall k', (k' < k)%nat ->
           exists chline nameline m1 m2,
             nth_error (reads (PortRW r)) (2 * k') = Some (ReadLine chline)
             /\ nth_error (reads (PortRW r)) (2 * k' + 1)
                = Some (ReadLine nameline)
             /\ ReadChannelLine MemoryEntry_zero chline = (m1, None)
             /\ ReadNameLine m1 nameline = (m2, None)
             /\ nth_error (Memory r') (i + k') = Some m2.
Proof.
  induction n as [|n IH]; intros i r err r'; cbn [ReadMemoryFrom];
    [discriminate|].
  pose proof (ReadChannel_Memory (Z.of_nat i) r) as M1.
  destruct (ReadChannel (Z.of_nat i) r) as [[m e] r1] eqn:E. cbn [snd] in M1.
  destruct (setIndex (Memory r1) i m) as [mem|] eqn:Es; [|discriminate].
  apply setIndex_nth in Es. destruct Es as [Hi Hother]. rewrite M1 in Hother.
  destruct e as [e|].
  - intros H. inversion H; subst.
    apply ReadChannel_error_zero in E. subst m.
    exists 0%nat, e. cbn [set_Memory Memory]. rewrite Nat.add_0_r.
    repeat split; auto; try lia.
    intros j Hj. apply Hother. lia.
  - intros H. apply IH in H.
    destruct H as (k & e0 & Hk & He & Hz & Hkeep & Hdone).
    cbn [set_Memory Memory PortRW] in Hz, Hkeep, Hdone.
    apply ReadChannel_success in E.
    destruct E as (chline & nameline & m1 & Hr & _ & Hc & Hn).
    exists (S k), e0.
    split; [lia|]. split; [exact He|]. split; [|split].
    + replace (i + S k)%nat with (S i + k)%nat by lia. exact Hz.
    + intros j Hj. rewrite Hkeep by lia. apply Hother. lia.
    + intros [|k'] Hk'.
      * exists chline, nameline, m1, m. rewrite Hr.
        repeat split; auto. rewrite Nat.add_0_r, Hkeep by lia. exact Hi.
      * destruct (Hdone k' ltac:(lia))
          as (cl & nl & n1 & n2 & H1 & H2 & H3 & H4 & H5).
        exists cl, nl, n1, n2. rewrite Hr. repeat split; auto.
        -- match goal with
           | |- nth_error _ ?j = _ => replace j with (S (S (2 * k'))) by lia
           end.
           exact H1.
        -- match goal with
           | |- nth_error _ ?j = _ =>
               replace j with (S (S (2 * k' + 1))) by lia
           end.
           exact H2.
        -- replace (i + S k')%nat with (S i + k')%nat by lia. exact H5.
Qed.

(** X10. The bank after a failed [ReadMemory].  When [ReadMemory] returns
    an error, it is the error of one channel [i] below 1000, wrapped: the
    slots before [i] hold the records decoded from the lines the device
    sent for their channels, slot [i] has been overwritten with the zero
    entry, and the slots after [i] hold what they held before. *)
Theorem ReadMemory_failure :
  forall r err r',
    ReadMemory r = Returns (Some err) r' ->
    exists i err0,
      (i < 1000)%nat
      /\ err = ErrReadMemory err0
      /\ nth_error (Memory r') i = Some MemoryEntry_zero
      /\ (forall j, (i < j)%nat ->
                    nth_error (Memory r') j = nth_error (Memory r) j)
      /\ forall k, (k < i)%nat ->
           exists chline nameline m1 m2,
             nth_error (reads (PortRW r)) (2 * k) = Some (ReadLine chline)
             /\ nth_error (reads (PortRW r)) (2 * k + 1)
                = Some (ReadLine nameline)
             /\ ReadChannelLine MemoryEntry_zero chline = (m1, None)
             /\ ReadNameLine m1 nameline = (m2, None)
             /\ nth_error (Memory r') k = Some m2.
Proof.
  intros r err r' H. unfold ReadMemory in H.
  apply ReadMemoryFrom_failure in H.
  destruct H as (k & e0 & Hk & He & Hz & Hkeep & Hdone).
  exists k, e0. cbn [Nat.add] in *. repeat split; auto.
  all: intros j Hj; apply Hkeep; lia.
Qed.

Lemma ReadMemory_failure_witness :
  exists i err0,
    (i < 1000)%nat
    /\ ErrReadMemory
         (ErrReadChannel
            (ErrRejected (Fmt.Sprintf MECommandFormat [VInt 2])))
       = ErrReadMemory err0
    /\ nth_error
         (Memory (match ReadMemory radio_fails_at_two with
                  | Returns _ r' | Panics r' => r'
                  end)) i
       = Some MemoryEntry_zero
    /\ (forall j, (i < j)%nat ->
          nth_error
            (Memory (match ReadMemory radio_fails_at_two with
                     | Returns _ r' | Panics r' => r'
                     end)) j
          = nth_error (Memory radio_fails_at_two) j)
    /\ forall k, (k < i)%nat ->
         exists chline nameline m1 m2,
           nth_error (reads (PortRW radio_fails_at_two)) (2 * k)
           = Some (ReadLine chline)
           /\ nth_error (reads (PortRW radio_fails_at_two)) (2 * k + 1)
              = Some (ReadLine nameline)
           /\ ReadChannelLine MemoryEntry_zero chline = (m1, None)
           /\ ReadNameLine m1 nameline = (m2, None)
           /\ nth_error
                (Memory (match ReadMemory radio_fails_at_two with
                         | Returns _ r' | Panics r' => r'
                         end)) k
              = Some m2.
Proof.
  apply (ReadMemory_failure radio_fails_at_two).
  vm_compute. reflexivity.
Defined.

Example ReadMemory_fails_at_two :
  option_map (fun r => map Number (firstn 4 (Memory r)))
    (match ReadMemory radio_fails_at_two with
     | Returns (Some _) r' => Some r'
     | _ => None
     end)
  = Some [0; 1; 0; 9].
Proof. vm_compute. reflexivity. Qed.

Lemma ReadChannel_success_log :
  forall channel r m r2,
    ReadChannel channel r = ((m, None), r2) ->
    exists l1 l2,
      reads (PortRW r) = ReadLine l1 :: ReadLine l2 :: reads (PortRW r2)
      /\ Log r2
         = (Log r ++ [Send (Fmt.Sprintf MECommandFormat [VInt channel]);
                      Recv l1;
                      Send (Fmt.Sprintf MNCommandFormat [VInt channel]);
                      Recv l2])%list.
Proof.
  intros channel r m r2. rewrite ReadChannel_unfold.
  destruct (WriteReadString _ r) as [[l1 [e|]] r1] eqn:E1; [discriminate|].
  destruct (WriteReadString _ r1) as [[l2 [e|]] r2'] eqn:E2; [discriminate|].
  destruct (ReadChannelLine MemoryEntry_zero l1) as [m1 [e|]]; [discriminate|].
  destruct (ReadNameLine m1 l2) as [m2 [e|]]; [discriminate|].
  intros H. inversion H; subst.
  pose proof (WriteReadString_success _ _ _ _ E1) as [R1 _].
  pose proof (WriteReadString_success _ _ _ _ E2) as [R2 _].
  apply WriteReadString_exchanged in E1, E2.
  exists l1, l2. split; [now rewrite R1, R2|].
  rewrite E2, E1. cbn [exchanged Log]. now rewrite <- app_assoc.
Qed.

Lemma ReadMemoryFrom_transcript :
  forall n i r r',
    ReadMemoryFrom n i r = Returns None r' ->
    exists lines,
      length lines = (2 * n)%nat
      /\ map ReadLine lines = firstn (2 * n) (reads (PortRW r))
      /\ Log r'
         = (Log r ++ transcript (flat_map readCommands (seq i n)) lines)%list.
Proof.
  induction n as [|n IH]; intros i r r'; cbn [ReadMemoryFrom].
  - intros H. inversion H; subst. exists []. cbn. now rewrite app_nil_r.
  - destruct (ReadChannel (Z.of_nat i) r) as [[m e] r1] eqn:E.
    destruct (setIndex (Memory r1) i m) as [mem|]; [|discriminate].
    destruct e as [e|]; [discriminate|].
    intros H. apply IH in H. destruct H as (lines & Hlen & Hmap & Hlog).
    cbn [set_Memory PortRW Log] in Hmap, Hlog.
    apply ReadChannel_success_log in E. destruct E as (l1 & l2 & Hr & Hl).
    exists (l1 :: l2 :: lines).
    split; [cbn [length]; lia|]. split.
    + replace (2 * S n)%nat with (S (S (2 * n))) by lia.
      rewrite Hr. cbn [map firstn]. now rewrite Hmap.
    + rewrite Hlog, Hl. cbn [seq flat_map readCommands app transcript].
      rewrite <- !app_assoc. reflexivity.
Qed.

(** X11. A successful [ReadMemory] has made exactly 2000 transactions:
    for the channels 0 to 999 in ascending order, the numeric-read command
    and then the name-read command of the channel, answered by the first
    2000 lines of the device. *)
Theorem ReadMemory_transcript :
  forall r r',
    ReadMemory r = Returns None r' ->
    exists lines,
      length lines = 2000%nat
      /\ map ReadLine lines = firstn 2000 (reads (PortRW r))
      /\ Log r'
         = (Log r
            ++ transcript (flat_map readCommands (seq 0 1000)) lines)%list.
Proof.
  intros r r' H. unfold ReadMemory in H.
  apply ReadMemoryFrom_transcript in H. exact H.
Qed.

Lemma ReadMemory_transcript_witness :
  exists lines,
    length lines = 2000%nat
    /\ map ReadLine lines = firstn 2000 (reads (PortRW radio_one_channel))
    /\ Log (match ReadMemory radio_one_channel with
            | Returns _ r' | Panics r' => r'
            end)
       = (Log radio_one_channel
          ++ transcript (flat_map readCommands (seq 0 1000)) lines)%list.
Proof.
  apply (ReadMemory_transcript radio_one_channel).
  vm_compute. reflexivity.
Defined.

(** ** The name line of any entry, and any name line *)

Lemma TrimSuffix_CR_app :
  forall p s,
    all_chars (fun c => negb (Ascii.eqb c CR)) p = true ->
    Strings.TrimSuffix (p ++ s) (String CR "")
    = p ++ Strings.TrimSuffix s (String CR "").
Proof.
  induction p as [|c p IH]; intros s Hp; [reflexivity|].
  simpl in Hp. apply andb_true_iff in Hp. destruct Hp as [Hc Hp].
  apply negb_true_iff in Hc. cbn [append Strings.TrimSuffix String.eqb].
  rewrite Hc. now rewrite IH.
Qed.

Lemma Split_nonempty :
  forall s sep, exists piece pieces, Strings.Split s sep = piece :: pieces.
Proof.
  induction s as [|c s IH]; intros sep; cbn [Strings.Split]; [eauto|].
  destruct (Ascii.eqb c sep); [eauto|].
  destruct (IH sep) as (piece & pieces & ->). eauto.
Qed.

Lemma Split_first_length :
  forall s sep,
    (String.length (nth 0 (Strings.Split s sep) "") <= String.length s)%nat.
Proof.
  induction s as [|c s IH]; intros sep; cbn [Strings.Split]; [simpl; lia|].
  destruct (Ascii.eqb c sep); [simpl; lia|].
  specialize (IH sep).
  destruct (Split_nonempty s sep) as (piece & pieces & E).
  rewrite E in *. simpl in *. lia.
Qed.

Lemma TrimSuffix_length :
  forall s suf,
    (String.length (Strings.TrimSuffix s suf) <= String.length s)%nat.
Proof.
  induction s as [|c s IH]; intros suf; cbn [Strings.TrimSuffix].
  - destruct (String.eqb "" suf); simpl; lia.
  - destruct (String.eqb (String c s) suf); simpl; [lia|].
    specialize (IH suf). lia.
Qed.

Lemma take_length :
  forall n s, (String.length (take n s) <= n)%nat.
Proof.
  induction n as [|n IH]; intros s; [simpl; lia|].
  destruct s as [|c s]; simpl; [lia|]. specialize (IH s). lia.
Qed.

(** X12. Decoding the name line of any entry succeeds.  The name read
    back is the name that was written (the name itself, or its first 8
    bytes when it is longer) without one trailing carriage return and cut
    in front of its first comma; it has at most 8 bytes. *)
Theorem name_line_decodes :
  forall e m,
    let n := if (8 <? String.length (Name e))%nat
             then take 8 (Name e) else Name e in
    let back := nth 0 (Strings.Split
                         (Strings.TrimSuffix n (String CR "")) ",") "" in
    ReadNameLine m (WriteNameLine e) = (set_Name m back, None)
    /\ (String.length back <= 8)%nat.
Proof.
  intros e m n back. split.
  - rewrite WriteNameLine_shape. fold n.
    set (ds := Fmt.fmtInteger true (Some 3%nat) false (Number e)).
    assert (Hds : all_chars isDigit ds = true) by apply fmtInteger_digits.
    unfold ReadNameLine.
    replace (String.eqb ("MN " ++ ds ++ String "," n) emptyLine) with false
      by reflexivity.
    cbn [negb].
    replace ("MN " ++ ds ++ String "," n)
      with (("MN " ++ ds ++ ",") ++ n)
      by (rewrite !append_assoc; reflexivity).
    rewrite TrimSuffix_CR_app.
    2:{ rewrite all_chars_app. apply andb_true_iff. split; [reflexivity|].
        rewrite all_chars_app. apply andb_true_iff. split; [|reflexivity].
        apply (all_chars_impl isDigit); [|assumption].
        intros c Hc. now rewrite isDigit_notCR. }
    replace (("MN " ++ ds ++ ",") ++ Strings.TrimSuffix n (String CR ""))
      with (("MN " ++ ds) ++ String "," (Strings.TrimSuffix n (String CR "")))
      by (rewrite !append_assoc; reflexivity).
    rewrite Split_comma.
    2:{ rewrite all_chars_app. apply andb_true_iff. split; [reflexivity|].
        apply (all_chars_impl isDigit); [apply isDigit_notComma|assumption]. }
    fold back.
    destruct (Split_nonempty (Strings.TrimSuffix n (String CR "")) ",")
      as (piece & pieces & E).
    assert (Hback : back = piece) by (subst back; now rewrite E).
    rewrite E. cbn [nth length].
    replace (Strings.HasPrefix ("MN " ++ ds) "MN") with true by reflexivity.
    cbn [negb Nat.ltb Nat.leb orb]. rewrite Hback.
    destruct (String.eqb_spec piece "") as [->|_]; reflexivity.
  - subst back.
    pose proof (Split_first_length (Strings.TrimSuffix n (String CR "")) ",").
    pose proof (TrimSuffix_length n (String CR "")).
    assert (String.length n <= 8)%nat; [|lia].
    subst n. destruct (8 <? String.length (Name e))%nat eqn:E.
    + apply take_length.
    + now apply Nat.ltb_ge in E.
Qed.

Lemma HasPrefix_MN :
  forall s,
    Strings.HasPrefix s "MN" = true <-> exists r, s = String "M" (String "N" r).
Proof.
  intros s. unfold Strings.HasPrefix. split.
  - destruct s as [|a [|b r]]; cbn [String.prefix].
    + discriminate.
    + destruct (ascii_dec "M" a); discriminate.
    + destruct (ascii_dec "M" a) as [<-|]; [|discriminate].
      destruct (ascii_dec "N" b) as [<-|]; [|discriminate].
      eauto.
  - intros [r ->]. destruct r; reflexivity.
Qed.

Lemma Split_first_prefix :
  forall s sep,
    exists rest, s = nth 0 (Strings.Split s sep) "" ++ rest.
Proof.
  induction s as [|c s IH]; intros sep; cbn [Strings.Split].
  - exists "". reflexivity.
  - destruct (Ascii.eqb c sep); [exists (String c s); reflexivity|].
    destruct (IH sep) as [rest E].
    destruct (Split_nonempty s sep) as (piece & pieces & Es).
    rewrite Es in *. cbn [nth] in *. exists rest. cbn [append]. congruence.
Qed.

Lemma TrimSuffix_prefix :
  forall s suf, exists rest, s = Strings.TrimSuffix s suf ++ rest.
Proof.
  induction s as [|c s IH]; intros suf; cbn [Strings.TrimSuffix].
  - exists "". now destruct (String.eqb "" suf).
  - destruct (String.eqb (String c s) suf); [exists (String c s); reflexivity|].
    destruct (IH suf) as [rest E]. exists rest. cbn [append]. congruence.
Qed.

(** The first piece of the trimmed line starts with [MN] exactly when the
    line does. *)
Lemma first_item_MN :
  forall line,
    Strings.HasPrefix
      (nth 0 (Strings.Split (Strings.TrimSuffix line (String CR "")) ",") "")
      "MN"
    = Strings.HasPrefix line "MN".
Proof.
  intros line.
  destruct (Strings.HasPrefix line "MN") eqn:E.
  - apply HasPrefix_MN in E. destruct E as [r ->].
    change (String "M" (String "N" r)) with ("MN" ++ r).
    rewrite TrimSuffix_CR_app by reflexivity.
    destruct (Split_nonempty (Strings.TrimSuffix r (String CR "")) ",")
      as (piece & pieces & Es).
    cbn [append Strings.Split].
    change (Ascii.eqb "M" ",") with false. change (Ascii.eqb "N" ",") with false.
    cbv iota. rewrite Es. cbn [nth]. apply HasPrefix_MN. eauto.
  - destruct (Strings.HasPrefix (nth 0 _ "") "MN") eqn:E'; [|reflexivity].
    apply HasPrefix_MN in E'. destruct E' as [r Hr].
    destruct (Split_first_prefix
                (Strings.TrimSuffix line (String CR "")) ",") as [x Hx].
    destruct (TrimSuffix_prefix line (String CR "")) as [y Hy].
    rewrite Hr in Hx. rewrite Hx in Hy.
    assert (Strings.HasPrefix line "MN" = true).
    { apply HasPrefix_MN. rewrite Hy. cbn [append]. eauto. }
    congruence.
Qed.

(** X13. What [ReadNameLine] does with any line.  The empty marker
    leaves the entry as it is.  Any other line is refused, with a
    Malformed error and the entry unchanged, exactly when it does not
    start with [MN]; a line that starts with [MN] always decodes, and a
    line with no comma gives the empty name.  In every case the sixteen
    numeric fields of the entry are kept. *)
Theorem ReadNameLine_cases :
  forall m line,
    let res := ReadNameLine m line in
    (line = emptyLine -> res = (m, None))
    /\ (line <> emptyLine -> Strings.HasPrefix line "MN" = false ->
        fst res = m /\ exists e, snd res = Some e /\ Malformed e)
    /\ (line <> emptyLine -> Strings.HasPrefix line "MN" = true ->
        snd res = None
        /\ (all_chars notComma line = true -> Name (fst res) = ""))
    /\ firstn 16 (StructFieldValues (fst res)) = firstn 16 (StructFieldValues m).
Proof.
  intros m line res. subst res. unfold ReadNameLine.
  destruct (String.eqb_spec line emptyLine) as [->|Hne]; cbn [negb].
  - split; [reflexivity|]. split; [intros Hx; now elim Hx|].
    split; [intros Hx; now elim Hx|reflexivity].
  - rewrite first_item_MN.
    split; [intros Hx; now elim Hne|].
    destruct (Strings.HasPrefix line "MN") eqn:E; cbn [negb].
    + split; [intros _ Hx; discriminate Hx|]. split.
      * intros _ _. split.
        -- destruct (_ || _); reflexivity.
        -- intros Hc.
           destruct (TrimSuffix_prefix line (String CR "")) as [y Hy].
           assert (Ht : all_chars notComma
                          (Strings.TrimSuffix line (String CR "")) = true).
           { rewrite Hy, all_chars_app in Hc.
             apply andb_true_iff in Hc. tauto. }
           rewrite (Split_none _ Ht). reflexivity.
      * destruct (_ || _); reflexivity.
    + split.
      * intros _ _. split; [reflexivity|].
        eexists. split; [reflexivity|]. right. right. eexists. reflexivity.
      * split; [intros _ Hx; discriminate Hx|reflexivity].
Qed.

(** ** The numeric line of an entry out of range *)

Lemma decimal_fixed_lt :
  forall u,
    exists k,
      (1 <= k)%nat /\ Fmt.decimal u = fixedDigits k u "" /\ u < 10 ^ N.of_nat k.
Proof.
  intros u. unfold Fmt.decimal.
  destruct (fmtUnsigned_fixed (S (N.to_nat (N.size u))) u "")
    as (k & Hk & Hfmt & Hlt & _).
  - lia.
  - rewrite Nat2N.inj_succ, N2Nat.id, N.pow_succ_r'.
    pose proof (N.size_gt u). lia.
  - exists k. auto.
Qed.

Lemma string_split_at :
  forall w s,
    (w < String.length s)%nat ->
    exists s1 c s2, s = s1 ++ String c s2 /\ String.length s1 = w.
Proof.
  induction w as [|w IH]; intros s Hw.
  - destruct s as [|c s]; [simpl in Hw; lia|]. exists "", c, s. auto.
  - destruct s as [|c0 s]; [simpl in Hw; lia|].
    destruct (IH s ltac:(simpl in Hw; lia)) as (s1 & c & s2 & -> & Hl).
    exists (String c0 s1), c, s2. simpl. auto.
Qed.

(** A number of more than [w] digits is printed with all its digits. *)
Lemma fmtInteger_wide :
  forall zero w u,
    (1 <= w)%nat -> 10 ^ N.of_nat w <= u ->
    exists ds c rest,
      Fmt.fmtInteger zero (Some w) false u = ds ++ String c rest
      /\ String.length ds = w
      /\ all_chars isDigit ds = true /\ isDigit c = true.
Proof.
  intros zero w u Hw Hu.
  destruct (decimal_fixed_lt u) as (k & Hk & Hdec & Hlt).
  assert (Hwk : (w < k)%nat).
  { assert (10 ^ N.of_nat w < 10 ^ N.of_nat k) by lia.
    apply N.pow_lt_mono_r_iff in H; lia. }
  assert (Hlen : String.length (Fmt.decimal u) = k).
  { rewrite Hdec, fixedDigits_length. simpl. lia. }
  assert (E : Fmt.fmtInteger zero (Some w) false u = Fmt.decimal u).
  { unfold Fmt.fmtInteger, Fmt.padLeft.
    destruct zero; rewrite ?length_replicate, Hlen;
      repeat match goal with
             | |- context [(?a - ?b)%nat] =>
                 replace (a - b)%nat with O by lia; cbn [replicate]
             end;
      rewrite ?Hlen;
      repeat match goal with
             | |- context [(?a - ?b)%nat] =>
                 replace (a - b)%nat with O by lia; cbn [replicate]
             end; reflexivity. }
  destruct (string_split_at w (Fmt.decimal u) ltac:(lia))
    as (ds & c & rest & Hs & Hl).
  pose proof (decimal_digits u) as Hd. rewrite Hs, all_chars_app in Hd.
  apply andb_true_iff in Hd. destruct Hd as [Hd1 Hd2].
  cbn [all_chars] in Hd2. apply andb_true_iff in Hd2.
  exists ds, c, rest. rewrite E. tauto.
Qed.

Lemma doScanf_wide :
  forall ds c rest bits items a cnt,
    ds <> "" -> all_chars isDigit ds = true -> isDigit c = true ->
    10 ^ N.of_nat (String.length ds) <= 2 ^ bits ->
    10 ^ N.of_nat (String.length ds) <= 2 ^ 64 ->
    (cnt + N.of_nat (String.length ds) + 1 <=? Fmt.hugeWid) = true ->
    Fmt.doScanf
      (Fmt.SVerb (Some (N.of_nat (String.length ds))) "d" :: Fmt.SLit ","
       :: items)
      (KUint bits :: a) (Fmt.mkss (ds ++ String c rest) cnt)
    = ([VUint bits (Fmt.parseDigits ds 0)], Some Fmt.ErrNoMatch).
Proof.
  intros ds c rest bits items a cnt Hne Hds Hc Hbits H64 Hlim.
  apply N.leb_le in Hlim.
  pose proof (parseDigits_lt ds 0 Hds) as Hval.
  rewrite N.add_0_l, N.mul_1_l in Hval.
  cbn [Fmt.doScanf].
  destruct ds as [|c0 ds'] eqn:Eds; [now elim Hne|].
  assert (Hc0 : plainChar c0 = true).
  { cbn [all_chars] in Hds. apply andb_true_iff in Hds.
    apply plainChar_digit. tauto. }
  change (String c0 ds' ++ String c rest)
    with (String c0 (ds' ++ String c rest)).
  rewrite SkipSpace_plain by assumption.
  change (String c0 (ds' ++ String c rest))
    with (String c0 ds' ++ String c rest).
  cbn [Fmt.count]. rewrite N.min_r by lia.
  unfold Fmt.scanOne. change (Ascii.eqb "d" "d") with true. cbv iota.
  rewrite scanUint_digits; try assumption; try lia.
  cbn [Fmt.doScanf].
  rewrite getRune_plain by (auto using plainChar_digit; lia).
  replace (Ascii.eqb "," c) with false; [reflexivity|].
  symmetry. rewrite Ascii.eqb_sym. apply negb_true_iff.
  now apply isDigit_notComma.
Qed.

(** The scan stops on the comma behind a field that is too wide. *)
Lemma scan_wide :
  forall zero w u bits items a cnt tail,
    (1 <= w)%nat -> 10 ^ N.of_nat w <= u ->
    10 ^ N.of_nat w <= 2 ^ bits -> 10 ^ N.of_nat w <= 2 ^ 64 ->
    (cnt + N.of_nat w + 1 <=? Fmt.hugeWid) = true ->
    exists vs,
      Fmt.doScanf (Fmt.SVerb (Some (N.of_nat w)) "d" :: Fmt.SLit "," :: items)
        (KUint bits :: a)
        (Fmt.mkss (Fmt.fmtInteger zero (Some w) false u ++ tail) cnt)
      = (vs, Some Fmt.ErrNoMatch).
Proof.
  intros zero w u bits items a cnt tail Hw Hu Hbits H64 Hlim.
  destruct (fmtInteger_wide zero w u Hw Hu) as (ds & c & rest & -> & Hl & Hd & Hc).
  rewrite append_assoc. cbn [append]. subst w.
  eexists. apply doScanf_wide; auto.
  intros ->. simpl in Hw. lia.
Qed.

(** The scan goes on behind a field that fits its width. *)
Lemma scan_fits :
  forall zero w u bits items a cnt tail e,
    (zero = true /\ (1 <= w)%nat) \/ w = 1%nat ->
    u < 10 ^ N.of_nat w -> u < 2 ^ bits -> u < 2 ^ 64 ->
    (cnt + N.of_nat w <=? Fmt.hugeWid) = true ->
    (exists vs,
       Fmt.doScanf items a (Fmt.mkss tail (cnt + N.of_nat w)) = (vs, e)) ->
    exists vs,
      Fmt.doScanf (Fmt.SVerb (Some (N.of_nat w)) "d" :: items) (KUint bits :: a)
        (Fmt.mkss (Fmt.fmtInteger zero (Some w) false u ++ tail) cnt)
      = (vs, e).
Proof.
  intros zero w u bits items a cnt tail e Hz Hu Hbits H64 Hlim [vs Hrest].
  assert (E : Fmt.fmtInteger zero (Some w) false u = fixedDigits w u "").
  { destruct Hz as [[-> Hw]| ->].
    - now apply fmtInteger_fixed.
    - destruct zero; [apply fmtInteger_fixed; [lia|assumption]|].
      apply fmtInteger_one. exact Hu. }
  rewrite E, <- fixedDigits_app. eexists.
  apply doScanf_verb_then; eauto.
  destruct Hz as [[_ Hw]| ->]; lia.
Qed.

Lemma doScanf_blank_digits :
  forall items a ds tail cnt,
    ds <> "" -> all_chars isDigit ds = true ->
    (cnt + 1 <=? Fmt.hugeWid) = true ->
    Fmt.doScanf (Fmt.SBlank :: items) a
      (Fmt.mkss (String " " (ds ++ tail)) cnt)
    = Fmt.doScanf items a (Fmt.mkss (ds ++ tail) (cnt + 1)).
Proof.
  intros items a ds tail cnt Hne Hds Hlim. apply N.leb_le in Hlim.
  cbn [Fmt.doScanf].
  assert (E : Fmt.getRune Fmt.hugeWid (Fmt.mkss (String " " (ds ++ tail)) cnt)
              = Fmt.Space (Fmt.mkss (ds ++ tail) (cnt + 1))).
  { unfold Fmt.getRune. cbn [Fmt.count Fmt.rest].
    replace (Fmt.hugeWid <=? cnt) with false
      by (symmetry; apply N.leb_gt; lia).
    reflexivity. }
  rewrite E. cbn [Fmt.rest].
  destruct ds as [|c ds']; [now elim Hne|].
  cbn [all_chars] in Hds. apply andb_true_iff in Hds.
  cbn [append]. rewrite skipBlanks_plain; [reflexivity|].
  apply plainChar_digit. tauto.
Qed.

(** One field of the numeric line: too wide if a hypothesis says so, and
    fitting otherwise. *)
Ltac scan_field :=
  lazymatch goal with
  | |- exists _,
         Fmt.doScanf (Fmt.SVerb (Some _) _ :: _) _
           (Fmt.mkss (Fmt.fmtInteger ?z (Some ?w) false ?u ++ _) ?cnt) = _ =>
      first
        [ apply (scan_wide z w u);
          [lia | exceeds | vm_compute; discriminate | vm_compute; discriminate
          | reflexivity]
        | apply (scan_fits z w u);
          [first [left; split; [reflexivity|lia] | right; reflexivity]
          | bounded | bounded | bounded | reflexivity
          | rewrite doScanf_lit by reflexivity] ]
  end.

Lemma wide_field_stops_scan :
  forall e,
    typed e -> ~ narrow e ->
    exists vs,
      Fmt.Sscanf (WriteChannelLine e) MEFormat channelKinds
      = (vs, Some Fmt.ErrNoMatch).
Proof.
  intros e (T1 & T2 & T3 & T4 & T5 & T6 & T7 & T8 & T9 & T10 & T11 & T12
            & T13 & T14 & T15 & T16) Hwide.
  rewrite WriteChannelLine_shape. unfold Fmt.Sscanf, channelKinds.
  rewrite MEFormat_scanItems. cbn [append].
  rewrite !doScanf_lit by reflexivity.
  rewrite doScanf_blank_digits;
    [| intros E; pose proof (fmtInteger_length true 3 (Number e) ltac:(lia)) as L;
       rewrite E in L; simpl in L; lia
     | apply fmtInteger_digits | reflexivity].
  destruct (N.lt_ge_cases (Number e) 1000) as [H1|H1];
    [|repeat scan_field].
  destruct (N.lt_ge_cases (RXStepSize e) 10) as [H2|H2];
    [|repeat scan_field].
  destruct (N.lt_ge_cases (ShiftDirection e) 10) as [H3|H3];
    [|repeat scan_field].
  destruct (N.lt_ge_cases (ReverseEnabled e) 10) as [H4|H4];
    [|repeat scan_field].
  destruct (N.lt_ge_cases (ToneEnabled e) 10) as [H5|H5];
    [|repeat scan_field].
  destruct (N.lt_ge_cases (CTCSSEnabled e) 10) as [H6|H6];
    [|repeat scan_field].
  destruct (N.lt_ge_cases (DCSEnabled e) 10) as [H7|H7];
    [|repeat scan_field].
  destruct (N.lt_ge_cases (ToneFrequency e) 100) as [H8|H8];
    [|repeat scan_field].
  destruct (N.lt_ge_cases (CTCSSFrequency e) 100) as [H9|H9];
    [|repeat scan_field].
  destruct (N.lt_ge_cases (DCSFrequency e) 1000) as [H10|H10];
    [|repeat scan_field].
  destruct (N.lt_ge_cases (OffsetFrequency e) 100000000) as [H11|H11];
    [|repeat scan_field].
  destruct (N.lt_ge_cases (Mode e) 10) as [H12|H12];
    [|repeat scan_field].
  destruct (N.lt_ge_cases (TXStepSize e) 10) as [H13|H13];
    [|repeat scan_field].
  elim Hwide. unfold narrow. tauto.
Qed.

Lemma scan_fits_then :
  forall zero w u bits items a cnt tail vs e,
    (zero = true /\ (1 <= w)%nat) \/ w = 1%nat ->
    u < 10 ^ N.of_nat w -> u < 2 ^ bits -> u < 2 ^ 64 ->
    (cnt + N.of_nat w <=? Fmt.hugeWid) = true ->
    Fmt.doScanf items a (Fmt.mkss tail (cnt + N.of_nat w)) = (vs, e) ->
    Fmt.doScanf (Fmt.SVerb (Some (N.of_nat w)) "d" :: items) (KUint bits :: a)
      (Fmt.mkss (Fmt.fmtInteger zero (Some w) false u ++ tail) cnt)
    = (VUint bits u :: vs, e).
Proof.
  intros zero w u bits items a cnt tail vs e Hz Hu Hbits H64 Hlim Hrest.
  assert (E : Fmt.fmtInteger zero (Some w) false u = fixedDigits w u "").
  { destruct Hz as [[-> Hw]| ->].
    - now apply fmtInteger_fixed.
    - destruct zero; [apply fmtInteger_fixed; [lia|assumption]|].
      apply fmtInteger_one. exact Hu. }
  rewrite E, <- fixedDigits_app.
  apply doScanf_verb_then; auto.
  destruct Hz as [[_ Hw]| ->]; lia.
Qed.

(** The last verb [%1d] reads one digit and leaves the rest of the input. *)
Lemma doScanf_leading :
  forall c rest bits cnt,
    isDigit c = true -> 10 <= 2 ^ bits ->
    (cnt + 1 <=? Fmt.hugeWid) = true ->
    Fmt.doScanf [Fmt.SVerb (Some 1) "d"] [KUint bits]
      (Fmt.mkss (String c rest) cnt)
    = ([VUint bits (Fmt.parseDigits (String c "") 0)], None).
Proof.
  intros c rest bits cnt Hc Hbits Hlim. apply N.leb_le in Hlim.
  assert (Hds : all_chars isDigit (String c "") = true).
  { cbn [all_chars]. now rewrite Hc. }
  pose proof (parseDigits_lt (String c "") 0 Hds) as Hval.
  change ((0 + 1) * 10 ^ N.of_nat (String.length (String c ""))) with 10 in Hval.
  cbn [Fmt.doScanf].
  rewrite SkipSpace_plain by now apply plainChar_digit.
  cbn [Fmt.count]. rewrite N.min_r by lia.
  unfold Fmt.scanOne. change (Ascii.eqb "d" "d") with true. cbv iota.
  change (String c rest) with (String c "" ++ rest).
  change 1 with (N.of_nat (String.length (String c ""))) at 1.
  rewrite scanUint_digits; try assumption;
    [reflexivity | discriminate | eapply N.lt_le_trans; [exact Hval|];
                                  vm_compute; discriminate | lia].
Qed.

Lemma leads_byte : forall u, u < 256 -> leads u = true.
Proof.
  intros u Hu.
  assert (H : forallb leads (map N.of_nat (seq 0 256)) = true)
    by (vm_compute; reflexivity).
  rewrite forallb_forall in H. apply H. apply in_map_iff.
  exists (N.to_nat u). split; [apply N2Nat.id|]. apply in_seq. lia.
Qed.

Lemma leading_lt : forall u, 10 <= u -> leading u < u.
Proof.
  intros u Hu. unfold leading.
  replace (u <? 10) with false by (symmetry; apply N.ltb_ge; exact Hu).
  destruct (u <? 100); apply N.div_lt; lia.
Qed.

(** The scan of the numeric line of an entry whose fields in front of
    [LockOut] fit their widths. *)
Lemma Sscanf_narrow :
  forall e,
    typed e -> narrow e ->
    Fmt.Sscanf (WriteChannelLine e) MEFormat channelKinds
    = ([VUint 16 (Number e); VUint 32 (RXFrequency e);
        VUint 8 (RXStepSize e); VUint 8 (ShiftDirection e);
        VUint 8 (ReverseEnabled e); VUint 8 (ToneEnabled e);
        VUint 8 (CTCSSEnabled e); VUint 8 (DCSEnabled e);
        VUint 16 (ToneFrequency e); VUint 16 (CTCSSFrequency e);
        VUint 16 (DCSFrequency e); VUint 32 (OffsetFrequency e);
        VUint 8 (Mode e); VUint 32 (TXFrequency e);
        VUint 8 (TXStepSize e); VUint 8 (leading (LockOut e))], None).
Proof.
  intros e (T1 & T2 & T3 & T4 & T5 & T6 & T7 & T8 & T9 & T10 & T11 & T12
            & T13 & T14 & T15 & T16)
         (H1 & H3 & H4 & H5 & H6 & H7 & H8 & H9 & H10 & H11 & H12 & H13 & H15).
  rewrite WriteChannelLine_shape. unfold Fmt.Sscanf, channelKinds.
  rewrite MEFormat_scanItems. cbn [append].
  rewrite !doScanf_lit by reflexivity.
  rewrite doScanf_blank_digits;
    [| intros E; pose proof (fmtInteger_length true 3 (Number e) ltac:(lia)) as L;
       rewrite E in L; simpl in L; lia
     | apply fmtInteger_digits | reflexivity].
  do 15 (match goal with
         | |- Fmt.doScanf _ _
                (Fmt.mkss (Fmt.fmtInteger ?z (Some ?w) false ?u ++ _) _) = _ =>
             apply (scan_fits_then z w u);
             [first [left; split; [reflexivity|lia] | right; reflexivity]
             | bounded | bounded | bounded | reflexivity
             | rewrite doScanf_lit by reflexivity]
         end).
  pose proof (leads_byte (LockOut e) T16) as HL. unfold leads in HL.
  destruct (Fmt.fmtInteger false (Some 1%nat) false (LockOut e)) as [|c rest];
    [discriminate HL|].
  apply andb_true_iff in HL. destruct HL as [Hc Hv]. apply N.eqb_eq in Hv.
  rewrite <- Hv. apply doScanf_leading; [exact Hc| |reflexivity].
  vm_compute; discriminate.
Qed.

Lemma encoded_not_empty :
  forall e, String.eqb (WriteChannelLine e) emptyLine = false.
Proof. intros e. rewrite WriteChannelLine_shape. reflexivity. Qed.

(** X14. [WriteChannelLine] prints a field with all its digits, wider
    than the format when the value needs more: the line of an entry with
    such a field in front of [LockOut] is one that [ReadChannelLine]
    rejects as malformed. *)
Theorem wide_field_rejected :
  forall e m,
    typed e -> ~ narrow e ->
    exists m',
      ReadChannelLine m (WriteChannelLine e)
      = (m', Some (ErrChannelLine (WriteChannelLine e))).
Proof.
  intros e m Ht Hw. rewrite ReadChannelLine_unfold, encoded_not_empty.
  destruct (wide_field_stops_scan e Ht Hw) as [vs ->]. eauto.
Qed.

Lemma wide_field_rejected_witness :
  exists m',
    ReadChannelLine MemoryEntry_zero (WriteChannelLine entry_number_1000)
    = (m', Some (ErrChannelLine (WriteChannelLine entry_number_1000))).
Proof.
  apply (wide_field_rejected entry_number_1000 MemoryEntry_zero).
  - vm_compute. repeat split; reflexivity.
  - intros [H _]. vm_compute in H. discriminate H.
Defined.

(** X15. The line of an entry whose fields in front of [LockOut] fit
    their widths is always accepted, but [LockOut], the last field, is
    read back as its first decimal digit only: the entry comes back
    unchanged exactly when [LockOut] is below ten. *)
Theorem LockOut_read_as_first_digit :
  forall e m,
    typed e -> narrow e ->
    ReadChannelLine m (WriteChannelLine e)
    = (set_uint (set_Name e (Name m)) FLockOut (leading (LockOut e)), None)
    /\ (ReadChannelLine m (WriteChannelLine e) = (set_Name e (Name m), None)
        <-> LockOut e < 10).
Proof.
  intros e m Ht Hn.
  assert (E : ReadChannelLine m (WriteChannelLine e)
              = (set_uint (set_Name e (Name m)) FLockOut (leading (LockOut e)),
                 None)).
  { rewrite ReadChannelLine_unfold, encoded_not_empty.
    rewrite (Sscanf_narrow e Ht Hn). reflexivity. }
  split; [exact E|]. rewrite E. split.
  - intros H. apply (f_equal (fun p => LockOut (fst p))) in H.
    cbn in H. destruct (N.lt_ge_cases (LockOut e) 10) as [|Hge]; [assumption|].
    pose proof (leading_lt _ Hge). lia.
  - intros H. unfold leading. apply N.ltb_lt in H. rewrite H.
    destruct e; reflexivity.
Qed.

Lemma LockOut_read_as_first_digit_witness :
  ReadChannelLine MemoryEntry_zero (WriteChannelLine entry_lockout_25)
  = (set_uint (set_Name entry_lockout_25 "") FLockOut 2, None)
  /\ (ReadChannelLine MemoryEntry_zero (WriteChannelLine entry_lockout_25)
      = (set_Name entry_lockout_25 "", None)
      <-> LockOut entry_lockout_25 < 10).
Proof.
  apply (LockOut_read_as_first_digit entry_lockout_25 MemoryEntry_zero).
  - vm_compute. repeat split; reflexivity.
  - vm_compute. repeat split; reflexivity.
Defined.

(** ** Identification *)

Lemma IDFormat_scanItems :
  Fmt.scanItems (String.length IDFormat) IDFormat
  = [Fmt.SLit "I"; Fmt.SLit "D"; Fmt.SBlank; Fmt.SVerb None "s"].
Proof. vm_compute. reflexivity. Qed.

Lemma decodeRune_plain :
  forall c r, plainChar c = true -> FmtS.decodeRune (String c r) = (String c "", r).
Proof.
  intros c r Hc. unfold plainChar in Hc. apply andb_true_iff in Hc.
  destruct Hc as [Hc _]. unfold FmtS.decodeRune. now rewrite Hc.
Qed.

Lemma getRune_blank :
  forall sp tail cnt lim,
    Fmt.isSpaceByte sp = true ->
    match Fmt.getRune lim (Fmt.mkss (String sp tail) cnt) with
    | Fmt.Other _ _ => False
    | _ => True
    end.
Proof.
  intros sp tail cnt lim Hsp. unfold Fmt.getRune. cbn [Fmt.count Fmt.rest].
  destruct (lim <=? cnt); [exact I|].
  destruct (Ascii.eqb sp LF); [exact I|]. now rewrite Hsp.
Qed.

(** A word of plain characters in front of a blank is the token. *)
Lemma token_plain :
  forall model sp tail fuel lim cnt,
    all_chars plainChar model = true -> Fmt.isSpaceByte sp = true ->
    cnt + N.of_nat (String.length model) <= lim ->
    (String.length model <= fuel)%nat ->
    FmtS.token fuel lim (Fmt.mkss (model ++ String sp tail) cnt)
    = (model, Fmt.mkss (String sp tail) (cnt + N.of_nat (String.length model))).
Proof.
  induction model as [|c model IH]; intros sp tail fuel lim cnt Hm Hsp Hlim Hf.
  - cbn [append String.length N.of_nat]. rewrite N.add_0_r.
    destruct fuel as [|fuel]; [reflexivity|]. cbn [FmtS.token].
    pose proof (getRune_blank sp tail cnt lim Hsp) as G.
    destruct (Fmt.getRune lim (Fmt.mkss (String sp tail) cnt));
      [reflexivity..|now elim G].
  - cbn [all_chars] in Hm. apply andb_true_iff in Hm. destruct Hm as [Hc Hm].
    cbn [String.length] in Hlim, Hf.
    destruct fuel as [|fuel]; [lia|].
    cbn [append FmtS.token].
    rewrite getRune_plain by (auto; lia).
    cbn [Fmt.rest Fmt.count]. rewrite decodeRune_plain by assumption.
    rewrite IH by (auto; lia).
    cbn [append String.length]. do 2 f_equal. lia.
Qed.

Lemma Sscanf_model :
  forall model sp tail,
    model <> "" -> all_chars plainChar model = true ->
    Fmt.isSpaceByte sp = true ->
    N.of_nat (String.length model) + 3 <= Fmt.hugeWid ->
    FmtS.Sscanf ("ID " ++ model ++ String sp tail) IDFormat [KString]
    = ([VString model], None).
Proof.
  intros model sp tail Hne Hm Hsp Hlim.
  unfold FmtS.Sscanf. rewrite IDFormat_scanItems.
  destruct model as [|c model']; [now elim Hne|].
  assert (Hc : plainChar c = true).
  { cbn [all_chars] in Hm. apply andb_true_iff in Hm. tauto. }
  assert (Hlen : (String.length (String c model')
                  <= String.length (String c (model' ++ String sp tail)))%nat).
  { clear. cbn [String.length]. apply le_n_S.
    induction model' as [|a s IH]; simpl; lia. }
  assert (H3 : 3 < Fmt.hugeWid) by (vm_compute; reflexivity).
  cbn [append FmtS.doScanf].
  rewrite getRune_plain by (reflexivity || (vm_compute; reflexivity)).
  change (Ascii.eqb "I" "I") with true. cbv iota.
  rewrite getRune_plain by (reflexivity || (vm_compute; reflexivity)).
  change (Ascii.eqb "D" "D") with true. cbv iota.
  change (0 + 1 + 1) with 2.
  assert (E : Fmt.getRune Fmt.hugeWid
                (Fmt.mkss (String " " (String c (model' ++ String sp tail))) 2)
              = Fmt.Space (Fmt.mkss (String c (model' ++ String sp tail)) 3))
    by reflexivity.
  rewrite E. cbn [Fmt.rest].
  rewrite skipBlanks_plain by assumption.
  rewrite SkipSpace_plain by assumption.
  cbn [Fmt.count]. unfold FmtS.scanOne.
  change (Ascii.eqb "s" "s" || Ascii.eqb "s" "v") with true. cbv iota.
  unfold FmtS.convertString.
  rewrite !SkipSpace_plain by assumption.
  rewrite N.min_l by lia.
  rewrite getRune_plain by (auto; lia).
  cbn [Fmt.rest].
  change (String c (model' ++ String sp tail))
    with (String c model' ++ String sp tail) at 2.
  rewrite token_plain; auto. lia.
Qed.

(** X16. When the device answers the identification command with the
    line [ID], a blank, a word of plain characters and a blank (the
    carriage return that ends the line, or any other), [Identify]
    returns no error after this one transaction and [Model] is that
    word; nothing else of the radio changes. *)
Theorem Identify_reads_model :
  forall r model sp tail,
    hd WriteOk (writes (PortRW r)) = WriteOk ->
    hd_error (reads (PortRW r))
    = Some (ReadLine ("ID " ++ model ++ String sp tail)) ->
    model <> "" -> all_chars plainChar model = true ->
    Fmt.isSpaceByte sp = true ->
    N.of_nat (String.length model) + 3 <= Fmt.hugeWid ->
    Identify r
    = (None,
       set_Model (exchanged r IDCommandFormat ("ID " ++ model ++ String sp tail))
         model).
Proof.
  intros r model sp tail Hw Hr Hne Hm Hsp Hlim.
  unfold Identify, bind.
  rewrite (WriteReadString_answered IDCommandFormat r _ Hw Hr eq_refl).
  now rewrite (Sscanf_model model sp tail Hne Hm Hsp Hlim).
Qed.

Lemma Identify_reads_model_witness :
  Identify (newRadio ["ID TH-D7" ++ String CR ""])
  = (None,
     set_Model
       (exchanged (newRadio ["ID TH-D7" ++ String CR ""]) IDCommandFormat
          ("ID " ++ "TH-D7" ++ String CR ""))
       "TH-D7").
Proof.
  apply (Identify_reads_model (newRadio ["ID TH-D7" ++ String CR ""])
           "TH-D7" CR "").
  - reflexivity.
  - reflexivity.
  - discriminate.
  - reflexivity.
  - reflexivity.
  - vm_compute. discriminate.
Defined.

Lemma getRune_Other_rest :
  forall lim s c s',
    Fmt.getRune lim s = Fmt.Other c s' -> Fmt.rest s = String c (Fmt.rest s').
Proof.
  intros lim s c s'. unfold Fmt.getRune.
  destruct (lim <=? Fmt.count s); [discriminate|].
  destruct (Fmt.rest s) as [|c0 after]; [discriminate|].
  destruct (Ascii.eqb c0 LF); [discriminate|].
  destruct (Fmt.isSpaceByte c0); [discriminate|].
  destruct (Fmt.wideSpace (String c0 after)); [discriminate|].
  intros H. inversion H; subst. reflexivity.
Qed.

Lemma wideSpace_shorter :
  forall s after,
    Fmt.wideSpace s = Some after ->
    (String.length after < String.length s)%nat.
Proof.
  intros s after. unfold Fmt.wideSpace.
  destruct s as [|a [|b r]]; try discriminate. cbv zeta.
  destruct ((N_of_ascii a =? 194)
            && ((N_of_ascii b =? 133) || (N_of_ascii b =? 160))).
  - intros H. inversion H; subst. cbn [String.length]. lia.
  - destruct r as [|c r']; [discriminate|].
    repeat match goal with
           | |- (if ?b then _ else _) = _ -> _ => destruct b
           end;
      try discriminate; intros H; inversion H; subst; cbn [String.length]; lia.
Qed.

Lemma getRune_Space_shorter :
  forall lim s s',
    Fmt.getRune lim s = Fmt.Space s' ->
    (String.length (Fmt.rest s') < String.length (Fmt.rest s))%nat.
Proof.
  intros lim s s'. unfold Fmt.getRune.
  destruct (lim <=? Fmt.count s); [discriminate|].
  destruct (Fmt.rest s) as [|c0 after]; [discriminate|].
  destruct (Ascii.eqb c0 LF); [discriminate|].
  destruct (Fmt.isSpaceByte c0).
  - intros H. inversion H; subst. cbn [Fmt.rest String.length]. lia.
  - destruct (Fmt.wideSpace (String c0 after)) as [after'|] eqn:W;
      [|discriminate].
    intros H. inversion H; subst. cbn [Fmt.rest].
    now apply wideSpace_shorter.
Qed.

(** Behind the blanks that [SkipSpace] has skipped there is no blank. *)
Lemma skipSpace_stops :
  forall fuel lim s s1,
    (String.length (Fmt.rest s) < fuel)%nat ->
    Fmt.skipSpace fuel lim s = inr s1 ->
    match Fmt.getRune lim s1 with
    | Fmt.Space _ | Fmt.Newline _ => False
    | _ => True
    end.
Proof.
  induction fuel as [|fuel IH]; intros lim s s1 Hf; [lia|].
  cbn [Fmt.skipSpace].
  destruct (Fmt.getRune lim s) as [|s'|s'|c s'] eqn:G.
  - intros H. inversion H; subst. now rewrite G.
  - discriminate.
  - apply IH. apply getRune_Space_shorter in G. lia.
  - intros H. inversion H; subst. now rewrite G.
Qed.

Lemma decodeRune_nonempty :
  forall c r, fst (FmtS.decodeRune (String c r)) <> "".
Proof.
  intros c r. unfold FmtS.decodeRune.
  destruct (N_of_ascii c <? 128); [discriminate|].
  destruct (FmtS.leadByte (N_of_ascii c)) as [[[[|[|[|[|[|n]]]]] lo] hi]|];
    destruct r as [|c1 [|c2 [|c3 r]]];
    repeat match goal with
           | |- context [if ?b then _ else _] => destruct b
           end;
    discriminate.
Qed.

(** [%s] as the last verb either fails and stores nothing or stores a
    word that is not empty. *)
Lemma doScanf_word :
  forall s,
    (exists e, FmtS.doScanf [Fmt.SVerb None "s"] [KString] s = ([], Some e))
    \/ (exists tok,
          FmtS.doScanf [Fmt.SVerb None "s"] [KString] s = ([VString tok], None)
          /\ tok <> "").
Proof.
  intros s. cbn [FmtS.doScanf].
  destruct (Fmt.SkipSpace Fmt.hugeWid s) as [e|s1] eqn:S1; [left; eauto|].
  unfold FmtS.scanOne.
  change (Ascii.eqb "s" "s" || Ascii.eqb "s" "v") with true. cbv iota.
  unfold FmtS.convertString.
  set (lim := N.min Fmt.hugeWid (Fmt.count s1 + Fmt.hugeWid)).
  destruct (Fmt.SkipSpace lim s1) as [e|s2] eqn:S2; [left; eauto|].
  pose proof (skipSpace_stops _ lim s1 s2 (Nat.lt_succ_diag_r _) S2) as Hstop.
  destruct (Fmt.getRune lim s2) as [|s'|s'|c s'] eqn:G;
    [left; eauto|now elim Hstop|now elim Hstop|].
  assert (S3 : Fmt.SkipSpace lim s2 = inr s2).
  { unfold Fmt.SkipSpace. cbn [Fmt.skipSpace]. now rewrite G. }
  rewrite S3.
  pose proof (getRune_Other_rest _ _ _ _ G) as Hr. rewrite Hr.
  cbn [String.length FmtS.token]. rewrite G, Hr.
  pose proof (decodeRune_nonempty c (Fmt.rest s')) as Hne.
  destruct (FmtS.decodeRune (String c (Fmt.rest s'))) as [bytes after].
  destruct (FmtS.token _ lim _) as [tok s3].
  right. exists (bytes ++ tok). split; [reflexivity|].
  cbn [fst] in Hne. destruct bytes; [now elim Hne|discriminate].
Qed.

Lemma Sscanf_ID_cases :
  forall line,
    (exists e, FmtS.Sscanf line IDFormat [KString] = ([], Some e))
    \/ (exists tok,
          FmtS.Sscanf line IDFormat [KString] = ([VString tok], None)
          /\ tok <> "" /\ Strings.HasPrefix line "ID" = true).
Proof.
  intros line. unfold FmtS.Sscanf. rewrite IDFormat_scanItems.
  cbn [FmtS.doScanf].
  destruct (Fmt.getRune Fmt.hugeWid (Fmt.mkss line 0)) as [|s'|s'|c1 s1] eqn:G1;
    try (left; eauto; fail).
  destruct (Ascii.eqb_spec "I"%char c1) as [<-|_]; [|left; eauto].
  destruct (Fmt.getRune Fmt.hugeWid s1) as [|s'|s'|c2 s2] eqn:G2;
    try (left; eauto; fail).
  destruct (Ascii.eqb_spec "D"%char c2) as [<-|_]; [|left; eauto].
  apply getRune_Other_rest in G1, G2. cbn [Fmt.rest] in G1.
  assert (Hpre : Strings.HasPrefix line "ID" = true).
  { rewrite G1, G2. unfold Strings.HasPrefix. cbn.
    destruct (Fmt.rest s2); reflexivity. }
  destruct (Fmt.getRune Fmt.hugeWid s2) as [|s'|s'|c3 s3];
    try (left; eauto; fail).
  - pose proof (doScanf_word s2) as W. cbn [FmtS.doScanf] in W.
    destruct W as [[e H]|[tok [H Hne]]]; rewrite H; [left|right]; eauto.
  - pose proof (doScanf_word
                  (Fmt.skipBlanks (String.length (Fmt.rest s')) s')) as W.
    cbn [FmtS.doScanf] in W.
    destruct W as [[e H]|[tok [H Hne]]]; rewrite H; [left|right]; eauto.
Qed.

Lemma WriteReadString_Model :
  forall command r, Model (snd (WriteReadString command r)) = Model r.
Proof.
  intros command [[ws rs] pp br md mem lg]. rewrite WriteReadString_unfold.
  unfold WriteString, ReadString, logEvent, set_PortRW; simpl.
  destruct ws as [|[|c|c] ws]; simpl;
    try (destruct rs as [|[l|c'] rs]; simpl;
         try destruct (Strings.HasPrefix l "?"); simpl);
    reflexivity.
Qed.

(** X17. Whatever the device does, [Identify] leaves the bank alone and
    sends at most the identification command.  When it returns an error
    [Model] keeps its value; it returns none only after a transaction
    whose reply starts with [ID], and [Model] is then a word that is not
    empty. *)
Theorem Identify_outcomes :
  forall r,
    Memory (snd (Identify r)) = Memory r
    /\ (exists evs,
          Log (snd (Identify r)) = (Log r ++ evs)%list
          /\ (commands evs = [IDCommandFormat] \/ commands evs = []))
    /\ (fst (Identify r) <> None -> Model (snd (Identify r)) = Model r)
    /\ (fst (Identify r) = None ->
        exists line,
          Log (snd (Identify r))
          = (Log r ++ [Send IDCommandFormat; Recv line])%list
          /\ Strings.HasPrefix line "ID" = true
          /\ Model (snd (Identify r)) <> "").
Proof.
  intros r. unfold Identify, bind.
  pose proof (WriteReadString_log IDCommandFormat r) as [HM [evs [HL HC]]].
  pose proof (WriteReadString_Model IDCommandFormat r) as HMd.
  destruct (WriteReadString IDCommandFormat r) as [[line [e|]] r1] eqn:W;
    cbn [fst snd] in *.
  - split; [exact HM|]. split; [exists evs; tauto|].
    split; [intros _; exact HMd|discriminate].
  - apply WriteReadString_exchanged in W. subst r1.
    destruct (Sscanf_ID_cases line) as [[e H]|[tok [H [Hne Hpre]]]]; rewrite H;
      cbn [fst snd].
    + split; [exact HM|]. split; [exists evs; tauto|].
      split; [intros _; exact HMd|discriminate].
    + split; [reflexivity|].
      split; [exists [Send IDCommandFormat; Recv line]; split;
              [reflexivity|now left]|].
      split; [intros Hx; now elim Hx|].
      intros _. exists line. repeat split; auto.
Qed.

(** ** Start-up *)

Lemma filter_zero_entries :
  forall k n,
    filter (fun m => negb (RXFrequency m =? 0)) (skipn k (make n)) = [].
Proof.
  intros k n. unfold make. revert k.
  induction n as [|n IH]; intros k.
  - now destruct k.
  - destruct k as [|k]; [|apply IH].
    cbn [skipn repeat filter]. change (RXFrequency MemoryEntry_zero =? 0) with true.
    cbn [negb]. apply (IH 0%nat).
Qed.

(** X18. A radio made by [NewRadio] has a bank of 1000 unoccupied
    entries: [WriteMemory] sends nothing for it, and [ReadMemory] always
    returns on it, with a bank of the same size.  [NewRadio] fails exactly
    when the port cannot be opened. *)
Theorem NewRadio_fresh_bank :
  forall open portpath baudrate,
    match NewRadio open portpath baudrate with
    | inl err =>
        exists cause,
          open portpath baudrate = inl cause
          /\ err = ErrNewRadio (ErrOpening cause)
    | inr r =>
        open portpath baudrate = inr (PortRW r)
        /\ length (Memory r) = 1000%nat
        /\ OccupedChannels r = []
        /\ WriteMemory r = (None, r)
        /\ exists res r',
             ReadMemory r = Returns res r' /\ length (Memory r') = 1000%nat
    end.
Proof.
  intros open portpath baudrate. unfold NewRadio, Connect.
  cbn [PortPath BaudRate].
  destruct (open portpath baudrate) as [cause|rw]; [eauto|].
  set (r := set_PortRW _ rw).
  assert (Hlen : length (Memory r) = 1000%nat) by apply repeat_length.
  assert (Hocc : OccupedChannels r = []).
  { unfold OccupedChannels. rewrite occupied_loop. cbn [app].
    apply (filter_zero_entries 0 1000). }
  split; [reflexivity|]. split; [exact Hlen|]. split; [exact Hocc|].
  split; [unfold WriteMemory; rewrite Hocc; reflexivity|].
  destruct (ReadMemoryFrom_returns 1000 0 r ltac:(rewrite Hlen; lia))
    as (res & r' & HR).
  exists res, r'. split; [exact HR|].
  rewrite (ReadMemoryFrom_length _ _ _ _ _ HR). exact Hlen.
Qed.

Lemma lookupNumber_NoDup :
  forall mem rest m,
    NoDup (map Number mem) -> In m mem ->
    lookupNumber (mem ++ rest) (Number m) = m.
Proof.
  induction mem as [|a mem IH]; intros rest m Hnd Hin; [now elim Hin|].
  cbn [map] in Hnd. inversion Hnd as [|x l Hnotin Hnd']; subst.
  cbn [app lookupNumber].
  destruct (N.eqb_spec (Number a) (Number m)) as [E|E].
  - destruct Hin as [->|Hin]; [reflexivity|].
    elim Hnotin. rewrite E. now apply in_map.
  - destruct Hin as [->|Hin]; [now elim E|]. now apply IH.
Qed.

Lemma uint16_Number : forall n, n < 2 ^ 16 -> uint16 (Z.of_N n) = n.
Proof.
  intros n Hn. unfold uint16. rewrite Z.mod_small; [apply N2Z.id|].
  split; [apply N2Z.is_nonneg|].
  change (2 ^ 16)%Z with (Z.of_N (2 ^ 16)). now apply N2Z.inj_lt.
Qed.

(** X19. [main] with a port that opens and a dump that parses: whatever
    [Identify] did, when the device answers the commands that follow and
    the first thousand entries of the dump have different numbers, [main]
    ends at its last line after writing exactly the occupied ones among
    these entries, each under its own number and in the order of the dump;
    the entries behind the first thousand are not written. *)
Theorem main_writes_dump :
  forall open rw loaded lines,
    open "/dev/ttyUSB0" 9600%Z = inr rw ->
    NoDup (map Number (firstn 1000 loaded)) ->
    (forall m, In m (firstn 1000 loaded) -> Number m < 2 ^ 16) ->
    length lines = (3 * length (written loaded))%nat ->
    answers (writes (PortRW (identified rw))) (reads (PortRW (identified rw)))
      lines ->
    exists r,
      main open (Entries loaded) = (Done, Some r)
      /\ Log r
         = (Log (identified rw)
            ++ transcript (flat_map entryLines (written loaded)) lines)%list
      /\ length (Memory r) = 1000%nat.
Proof.
  intros open rw loaded lines Hopen Hnd Htyped Hlen Hans.
  unfold main, NewRadio, Connect. cbn [PortPath BaudRate]. rewrite Hopen.
  change (set_PortRW
            (mkRadio (mkReadWriter [] []) "/dev/ttyUSB0" 9600 "" (make 1000) [])
            rw)
    with (mkRadio rw "/dev/ttyUSB0" 9600 "" (make 1000) []).
  unfold identified in *.
  destruct (Identify (mkRadio rw "/dev/ttyUSB0" 9600 "" (make 1000) []))
    as [e r1].
  cbn [snd] in *. cbn [set_Memory Memory PortRW PortPath BaudRate Model Log].
  set (bank := copy (make 1000) loaded).
  set (r2 := mkRadio (PortRW r1) (PortPath r1) (BaudRate r1) (Model r1) bank
               (Log r1)).
  assert (Hbank : bank = (firstn 1000 loaded
                          ++ skipn (length loaded) (make 1000))%list).
  { unfold bank, copy, make. now rewrite repeat_length. }
  assert (Hocc : OccupedChannels r2 = written loaded).
  { unfold OccupedChannels. rewrite occupied_loop. cbn [app Memory r2].
    rewrite Hbank, filter_app, filter_zero_entries. apply app_nil_r. }
  change (set_Memory (set_Memory (set_Memory r1 []) (make 1000)) bank) with r2.
  unfold WriteMemory. rewrite Hocc.
  destruct (WriteMemoryOver_answers (written loaded) r2 lines)
    as (F & L & _); auto.
  { intros m Hin. apply filter_In in Hin. destruct Hin as [Hin Hrx].
    split.
    - rewrite (uint16_Number _ (Htyped m Hin)). cbn [Memory r2].
      rewrite Hbank. now apply lookupNumber_NoDup.
    - apply negb_true_iff in Hrx. now apply N.eqb_neq. }
  destruct (WriteMemoryOver_sent (written loaded) r2) as (_ & _ & _ & M & _).
  destruct (WriteMemoryOver (written loaded) r2) as [err r3].
  cbn [fst snd] in *. subst err. exists r3.
  split; [reflexivity|]. split; [exact L|].
  rewrite M. cbn [Memory r2]. rewrite Hbank.
  rewrite length_app, length_firstn, length_skipn.
  unfold make. rewrite repeat_length. lia.
Qed.

Lemma main_writes_dump_witness :
  exists r,
    main (fun _ _ => inr port_four_answers)
      (Entries [entry_146520000 5 "CALL"])
    = (Done, Some r)
    /\ Log r
       = (Log (identified port_four_answers)
          ++ transcript (flat_map entryLines (written [entry_146520000 5 "CALL"]))
               (repeat (String "M" (String "E" (String CR ""))) 3))%list
    /\ length (Memory r) = 1000%nat.
Proof.
  apply (main_writes_dump (fun _ _ => inr port_four_answers) port_four_answers
           [entry_146520000 5 "CALL"]
           (repeat (String "M" (String "E" (String CR ""))) 3)).
  - reflexivity.
  - repeat constructor. intros H. exact H.
  - intros m [<-|H]; [vm_compute; reflexivity|now elim H].
  - reflexivity.
  - vm_compute. repeat split; reflexivity.
Defined.
